(** * go-timeline: style resolution and geometric layout engine

    A shallow embedding of the Go sources of the timeline generator
    (models, style helpers, SVG layout, program entry point) together with
    the properties claimed for them.

    Conventions of the embedding.
    - [float64] values are modelled as real numbers ([R]): arithmetic is the
      exact arithmetic of the reals, so rounding, infinities and NaN are
      outside the model.  [math.Min], [math.Max], [math.Abs], [math.Sqrt],
      [math.Cos], [math.Sin] and [math.Pi] are [Rmin], [Rmax], [Rabs], [sqrt],
      [cos], [sin] and [PI].
    - [int] values are integers ([Z]); no arithmetic of the program comes
      near the 64-bit range.
    - A Go pointer field ([*string], [*int], [*float64], [*bool], pointer to
      an override struct) is an [option]: [nil] is [None].
    - Strings are byte strings.  The Unicode-aware library functions
      ([strings.Fields], [strings.TrimSpace], [strings.ToLower]) are modelled
      on ASCII: bytes from 0x80 on are neither white space nor cased.
    - [strconv.ParseFloat] is a parameter of the parsing functions.
    - The file system is a parameter too: reading a local image file and
      encoding it as a data URI in [drawCommentBody], creating the output
      file and writing to it in [main].
    - The SVG text buffer is a list of drawing primitives, one constructor
      per [fmt.Fprintf] site of the source, carrying the printed arguments;
      the textual serialisation itself is not modelled. *)

From Stdlib Require Import Reals Lra ZArith String Ascii List Bool Lia.
From stdpp Require Import gmap strings list.

Open Scope R_scope.
Open Scope string_scope.

(** ** Numeric helpers *)

(** [float64(n)] for an [int] n. *)
Definition float64 (n : Z) : R := IZR n.

(** [int(x)] for a [float64] x: truncation toward zero. *)
Definition int (x : R) : Z :=
  if Rle_dec 0 x then Int_part x else (- Int_part (- x))%Z.

(** Boolean comparisons on [float64]. *)
Definition Rltb (x y : R) : bool := if Rlt_dec x y then true else false.
Definition Rleb (x y : R) : bool := if Rle_dec x y then true else false.
Definition Rgtb (x y : R) : bool := Rltb y x.
Definition Rgeb (x y : R) : bool := Rleb y x.
Definition Reqb (x y : R) : bool := if Req_dec_T x y then true else false.

(** ** Data model (models.go) *)

(** *** Template structs *)

Record LayoutOptions := {
  lo_Padding : R;
  lo_EntrySpacing : R;
  lo_ConnectorLength : R
}.

Record JunctionMarkerStyle := {
  jm_Shape : string;
  jm_Size : R;
  jm_Color : option string
}.

Record TitleLineStyle := {
  tl_Visible : bool;
  tl_Color : string;
  tl_Width : R;
  tl_Length : R;
  tl_Margin : R
}.

Record FontStyle := {
  f_FontFamily : string;
  f_FontSize : Z;
  f_FontWeight : string;
  f_FontStyle : string
}.

Record CenterLine := {
  cl_Width : Z;
  cl_Type : string;
  cl_Orientation : string;
  cl_Angle : option R;
  cl_Color : string;
  cl_RoundedCaps : bool
}.

Record YearTextStyle := {
  yt_Position : string;
  yt_MainAxisOffset : R;
  yt_CrossAxisOffset : R;
  yt_TextColor : string;
  yt_Font : FontStyle;
  yt_Shape : string;
  yt_FillColor : string;
  yt_BorderColor : string;
  yt_BorderWidth : R
}.

Record DotStyle := {
  dot_Size : Z;
  dot_Color : string;
  dot_Shape : string;
  dot_Visible : bool;
  dot_OffsetMain : Z;
  dot_OffsetCross : Z;
  dot_StopAtDot : bool
}.

Record ConnectorStyle := {
  cs_DrawToPeriod : option bool;
  cs_DrawToComment : option bool;
  cs_Width : Z;
  cs_Color : string;
  cs_LineType : string;
  cs_Side : string;
  cs_Dot : DotStyle
}.

Record CommentTextStyle := {
  ct_Position : string;
  ct_MainAxisOffset : R;
  ct_CrossAxisOffset : R;
  ct_Font : FontStyle;
  ct_TitleFont : FontStyle;
  ct_TitleLine : TitleLineStyle;
  ct_TitleColor : string;
  ct_Shape : string;
  ct_FillColor : string;
  ct_TextColor : string;
  ct_Padding : string;
  ct_BlockWidth : option R;
  ct_BorderColor : string;
  ct_BorderWidth : Z;
  ct_BorderStyle : string;
  ct_TextAlign : string
}.

Record CenterlineProjectionStyle := {
  cp_Color : string
}.

Record PeriodStyle := {
  ps_YearText : YearTextStyle;
  ps_Connector : ConnectorStyle;
  ps_CommentText : CommentTextStyle;
  ps_CenterlineProjection : CenterlineProjectionStyle;
  ps_JunctionMarker : JunctionMarkerStyle
}.

Record Template := {
  t_CenterLine : CenterLine;
  t_Layout : LayoutOptions;
  t_GlobalFont : option FontStyle;
  t_PeriodDefaults : PeriodStyle
}.

(** *** Override structs *)

Record FontStyleOverride := {
  fo_FontFamily : option string;
  fo_FontSize : option Z;
  fo_FontWeight : option string;
  fo_FontStyle : option string
}.

Record YearTextStyleOverride := {
  yto_Position : option string;
  yto_MainAxisOffset : option R;
  yto_CrossAxisOffset : option R;
  yto_Font : option FontStyleOverride;
  yto_TextColor : option string;
  yto_Shape : option string;
  yto_FillColor : option string;
  yto_BorderColor : option string;
  yto_BorderWidth : option R
}.

Record TitleLineStyleOverride := {
  tlo_Visible : option bool;
  tlo_Color : option string;
  tlo_Width : option R;
  tlo_Length : option R;
  tlo_Margin : option R
}.

Record CommentTextStyleOverride := {
  cto_Position : option string;
  cto_MainAxisOffset : option R;
  cto_CrossAxisOffset : option R;
  cto_Font : option FontStyleOverride;
  cto_TitleFont : option FontStyleOverride;
  cto_TitleLine : option TitleLineStyleOverride;
  cto_TitleColor : option string;
  cto_Shape : option string;
  cto_FillColor : option string;
  cto_TextColor : option string;
  cto_Padding : option string;
  cto_BlockWidth : option R;
  cto_BorderColor : option string;
  cto_BorderWidth : option Z;
  cto_BorderStyle : option string;
  cto_TextAlign : option string
}.

Record JunctionMarkerOverride := {
  jmo_Shape : option string;
  jmo_Size : option R;
  jmo_Color : option string
}.

Record DotStyleOverride := {
  doto_Size : option Z;
  doto_Color : option string;
  doto_Shape : option string;
  doto_Visible : option bool;
  doto_OffsetMain : option Z;
  doto_OffsetCross : option Z;
  doto_StopAtDot : option bool
}.

Record ConnectorStyleOverride := {
  cso_Color : option string;
  cso_LineType : option string;
  cso_Width : option Z;
  cso_DrawToPeriod : option bool;
  cso_DrawToComment : option bool;
  cso_Dot : option DotStyleOverride
}.

(** *** Data structs *)

Record TimelineEntry := {
  e_Period : string;
  e_TitleText : string;
  e_CommentText : string;
  e_CommentImage : string;
  e_Link : string;
  e_EntrySpacingOverride : option R;
  e_OrientationOverride : option string;
  e_AngleOverride : option R;
  e_ConnectorOverride : option ConnectorStyleOverride;
  e_CommentTextOverride : option CommentTextStyleOverride;
  e_YearTextOverride : option YearTextStyleOverride;
  e_CenterlineProjectionOverride : option CenterlineProjectionStyle;
  e_JunctionMarkerOverride : option JunctionMarkerOverride
}.

Record TimelineData := {
  td_Entries : list TimelineEntry
}.

(** Go zero values of the style structs (what [make] puts in a fresh slice). *)

Definition zeroFontStyle : FontStyle :=
  {| f_FontFamily := ""; f_FontSize := 0; f_FontWeight := ""; f_FontStyle := "" |}.

Definition zeroTitleLineStyle : TitleLineStyle :=
  {| tl_Visible := false; tl_Color := ""; tl_Width := 0; tl_Length := 0;
     tl_Margin := 0 |}.

Definition zeroDotStyle : DotStyle :=
  {| dot_Size := 0; dot_Color := ""; dot_Shape := ""; dot_Visible := false;
     dot_OffsetMain := 0; dot_OffsetCross := 0; dot_StopAtDot := false |}.

Definition zeroConnectorStyle : ConnectorStyle :=
  {| cs_DrawToPeriod := None; cs_DrawToComment := None; cs_Width := 0;
     cs_Color := ""; cs_LineType := ""; cs_Side := ""; cs_Dot := zeroDotStyle |}.

Definition zeroJunctionMarkerStyle : JunctionMarkerStyle :=
  {| jm_Shape := ""; jm_Size := 0; jm_Color := None |}.

Definition zeroYearTextStyle : YearTextStyle :=
  {| yt_Position := ""; yt_MainAxisOffset := 0; yt_CrossAxisOffset := 0;
     yt_TextColor := ""; yt_Font := zeroFontStyle; yt_Shape := "";
     yt_FillColor := ""; yt_BorderColor := ""; yt_BorderWidth := 0 |}.

Definition zeroCommentTextStyle : CommentTextStyle :=
  {| ct_Position := ""; ct_MainAxisOffset := 0; ct_CrossAxisOffset := 0;
     ct_Font := zeroFontStyle; ct_TitleFont := zeroFontStyle;
     ct_TitleLine := zeroTitleLineStyle; ct_TitleColor := ""; ct_Shape := "";
     ct_FillColor := ""; ct_TextColor := ""; ct_Padding := "";
     ct_BlockWidth := None; ct_BorderColor := ""; ct_BorderWidth := 0;
     ct_BorderStyle := ""; ct_TextAlign := "" |}.

(** ** Style resolution (helper functions for effective styles) *)

(** Constants of the SVG generator used by the font cascade. *)
Definition defaultFontSize : R := 12.
Definition defaultFont : string := "Arial, sans-serif".
Definition imagePlaceholderHeight : R := 50.
Definition foreignObjectHeightEstimate : R := 100.

(** Value from pointer or default. *)
Definition getString (ptr : option string) (def : string) : string :=
  match ptr with Some v => v | None => def end.
Definition getInt (ptr : option Z) (def : Z) : Z :=
  match ptr with Some v => v | None => def end.
Definition getFloat64 (ptr : option R) (def : R) : R :=
  match ptr with Some v => v | None => def end.
Definition getBool (ptr : option bool) (def : bool) : bool :=
  match ptr with Some v => v | None => def end.

Definition getEffectiveJunctionMarkerStyle
    (defaults : JunctionMarkerStyle) (override : option JunctionMarkerOverride)
    : JunctionMarkerStyle :=
  match override with
  | None => defaults
  | Some o =>
      {| jm_Shape := getString (jmo_Shape o) (jm_Shape defaults);
         jm_Size := getFloat64 (jmo_Size o) (jm_Size defaults);
         jm_Color := match jmo_Color o with
                     | Some c => Some c
                     | None => jm_Color defaults
                     end |}
  end.

Definition getEffectiveTitleLineStyle
    (defaults : TitleLineStyle) (override : option TitleLineStyleOverride)
    : TitleLineStyle :=
  match override with
  | None => defaults
  | Some o =>
      let visible := getBool (tlo_Visible o) (tl_Visible defaults) in
      let color := getString (tlo_Color o) (tl_Color defaults) in
      let width := getFloat64 (tlo_Width o) (tl_Width defaults) in
      let length := getFloat64 (tlo_Length o) (tl_Length defaults) in
      let margin := getFloat64 (tlo_Margin o) (tl_Margin defaults) in
      (* Re-evaluate visibility based on dimensions if not explicitly set *)
      let visible' :=
        match tlo_Visible o with
        | None =>
            if Rgtb width 0 && Rgtb length 0 then true
            else if tl_Visible defaults then true
            else false
        | Some _ => visible
        end in
      {| tl_Visible := visible'; tl_Color := color; tl_Width := width;
         tl_Length := length; tl_Margin := margin |}
  end.

Definition getEffectiveDotStyle
    (defaults : DotStyle) (override : option DotStyleOverride) : DotStyle :=
  match override with
  | None => defaults
  | Some o =>
      {| dot_Size := getInt (doto_Size o) (dot_Size defaults);
         dot_Color := getString (doto_Color o) (dot_Color defaults);
         dot_Shape := getString (doto_Shape o) (dot_Shape defaults);
         dot_Visible := getBool (doto_Visible o) true;
         dot_OffsetMain := getInt (doto_OffsetMain o) (dot_OffsetMain defaults);
         dot_OffsetCross := getInt (doto_OffsetCross o) (dot_OffsetCross defaults);
         (* Default stop_at_dot to true if not overridden *)
         dot_StopAtDot := getBool (doto_StopAtDot o) true |}
  end.

Definition getEffectiveConnectorStyle
    (defaults : ConnectorStyle) (override : option ConnectorStyleOverride)
    : ConnectorStyle :=
  match override with
  | None => defaults
  | Some o =>
      let defaultDrawToPeriod :=
        match cs_DrawToPeriod defaults with Some b => b | None => true end in
      let drawToPeriodResult := getBool (cso_DrawToPeriod o) defaultDrawToPeriod in
      let defaultDrawToComment :=
        match cs_DrawToComment defaults with Some b => b | None => true end in
      let drawToCommentResult := getBool (cso_DrawToComment o) defaultDrawToComment in
      {| cs_DrawToPeriod := Some drawToPeriodResult;
         cs_DrawToComment := Some drawToCommentResult;
         cs_Width := getInt (cso_Width o) (cs_Width defaults);
         cs_Color := getString (cso_Color o) (cs_Color defaults);
         cs_LineType := getString (cso_LineType o) (cs_LineType defaults);
         cs_Side := cs_Side defaults;
         cs_Dot := getEffectiveDotStyle (cs_Dot defaults) (cso_Dot o) |}
  end.

(** Effective font: component default, then global font, then hard-coded
    values, then the override on top, then a last fallback of the family. *)
Definition getEffectiveFontStyle
    (global : option FontStyle) (defaults : FontStyle)
    (override : option FontStyleOverride) : FontStyle :=
  let base := defaults in
  (* Apply global defaults if base values are zero/empty *)
  let base :=
    match global with
    | Some g =>
        {| f_FontFamily := if f_FontFamily base =? "" then f_FontFamily g
                           else f_FontFamily base;
           f_FontSize := if (f_FontSize base =? 0)%Z then f_FontSize g
                         else f_FontSize base;
           f_FontWeight := if f_FontWeight base =? "" then f_FontWeight g
                           else f_FontWeight base;
           f_FontStyle := if f_FontStyle base =? "" then f_FontStyle g
                          else f_FontStyle base |}
    | None => base
    end in
  (* Apply hardcoded defaults if still zero/empty *)
  let base :=
    {| f_FontFamily := if f_FontFamily base =? "" then defaultFont
                       else f_FontFamily base;
       f_FontSize := if (f_FontSize base =? 0)%Z then int defaultFontSize
                     else f_FontSize base;
       f_FontWeight := if f_FontWeight base =? "" then "normal"
                       else f_FontWeight base;
       f_FontStyle := if f_FontStyle base =? "" then "normal"
                      else f_FontStyle base |} in
  let effective :=
    match override with
    | Some o =>
        {| f_FontFamily := getString (fo_FontFamily o) (f_FontFamily base);
           f_FontSize := getInt (fo_FontSize o) (f_FontSize base);
           f_FontWeight := getString (fo_FontWeight o) (f_FontWeight base);
           f_FontStyle := getString (fo_FontStyle o) (f_FontStyle base) |}
    | None => base
    end in
  (* Final fallback if Font Family is still empty *)
  {| f_FontFamily := if f_FontFamily effective =? "" then "sans-serif"
                     else f_FontFamily effective;
     f_FontSize := f_FontSize effective;
     f_FontWeight := f_FontWeight effective;
     f_FontStyle := f_FontStyle effective |}.

Definition getEffectiveCommentTextStyle
    (globalFont : option FontStyle) (defaults : CommentTextStyle)
    (override : option CommentTextStyleOverride) : CommentTextStyle :=
  let ov {A} (f : CommentTextStyleOverride -> option A) : option A :=
    match override with Some o => f o | None => None end in
  let blockWidth :=
    match override with
    | Some o => cto_BlockWidth o      (* directly assign pointer *)
    | None => ct_BlockWidth defaults
    end in
  (* Merge BlockWidth (if override didn't set it, keep default's pointer) *)
  let blockWidth :=
    match blockWidth with
    | None => ct_BlockWidth defaults
    | Some w => Some w
    end in
  let bodyFontOverride := ov cto_Font in
  let titleFontOverride := ov cto_TitleFont in
  let titleLineOverride := ov cto_TitleLine in
  {| ct_Position := getString (ov cto_Position) (ct_Position defaults);
     ct_MainAxisOffset :=
       getFloat64 (ov cto_MainAxisOffset) (ct_MainAxisOffset defaults);
     ct_CrossAxisOffset :=
       getFloat64 (ov cto_CrossAxisOffset) (ct_CrossAxisOffset defaults);
     ct_Font := getEffectiveFontStyle globalFont (ct_Font defaults) bodyFontOverride;
     ct_TitleFont :=
       getEffectiveFontStyle globalFont (ct_TitleFont defaults) titleFontOverride;
     ct_TitleLine :=
       getEffectiveTitleLineStyle (ct_TitleLine defaults) titleLineOverride;
     ct_TitleColor := getString (ov cto_TitleColor) (ct_TitleColor defaults);
     ct_Shape := getString (ov cto_Shape) (ct_Shape defaults);
     ct_FillColor := getString (ov cto_FillColor) (ct_FillColor defaults);
     ct_TextColor := getString (ov cto_TextColor) (ct_TextColor defaults);
     ct_Padding := getString (ov cto_Padding) (ct_Padding defaults);
     ct_BlockWidth := blockWidth;
     ct_BorderColor := getString (ov cto_BorderColor) (ct_BorderColor defaults);
     ct_BorderWidth := getInt (ov cto_BorderWidth) (ct_BorderWidth defaults);
     ct_BorderStyle := getString (ov cto_BorderStyle) (ct_BorderStyle defaults);
     ct_TextAlign := getString (ov cto_TextAlign) (ct_TextAlign defaults) |}.

Definition getEffectiveYearTextStyle
    (globalFont : option FontStyle) (defaults : YearTextStyle)
    (override : option YearTextStyleOverride) : YearTextStyle :=
  let ov {A} (f : YearTextStyleOverride -> option A) : option A :=
    match override with Some o => f o | None => None end in
  let fontOverride := ov yto_Font in
  {| yt_Position := getString (ov yto_Position) (yt_Position defaults);
     yt_MainAxisOffset :=
       getFloat64 (ov yto_MainAxisOffset) (yt_MainAxisOffset defaults);
     yt_CrossAxisOffset :=
       getFloat64 (ov yto_CrossAxisOffset) (yt_CrossAxisOffset defaults);
     yt_TextColor := getString (ov yto_TextColor) (yt_TextColor defaults);
     yt_Font := getEffectiveFontStyle globalFont (yt_Font defaults) fontOverride;
     yt_Shape := getString (ov yto_Shape) (yt_Shape defaults);
     yt_FillColor := getString (ov yto_FillColor) (yt_FillColor defaults);
     yt_BorderColor := getString (ov yto_BorderColor) (yt_BorderColor defaults);
     yt_BorderWidth := getFloat64 (ov yto_BorderWidth) (yt_BorderWidth defaults) |}.

Definition getEffectiveCenterlineProjectionStyle
    (defaults : CenterlineProjectionStyle)
    (override : option CenterlineProjectionStyle) : CenterlineProjectionStyle :=
  match override with
  | None => defaults
  | Some o =>
      if negb (cp_Color o =? "") then {| cp_Color := cp_Color o |} else defaults
  end.

(** SVG dash array: [None] is the empty attribute, [Some (a, b)] is
    [stroke-dasharray="a b"]. *)
Definition DashArray := option (Z * Z).

Definition getStrokeDashArray (styleType : string) (width : Z) : DashArray :=
  let width := if (width <=? 0)%Z then 1%Z else width in
  if styleType =? "dotted" then Some (width, (width * 2)%Z)
  else if styleType =? "dashed" then Some ((width * 4)%Z, (width * 2)%Z)
  else None.

(** Returns -1 for "start" (top/left), +1 for "end" (bottom/right). *)
Definition getCrossAxisDirection (position : string) (index : Z)
    (isHorizontal : bool) : R :=
  let position := if position =? "" then "start" else position in
  let isStart :=
    if position =? "start" then true
    else if position =? "end" then false
    else if position =? "alternate-start-end" then (Z.rem index 2 =? 0)%Z
    else if position =? "alternate-end-start" then negb (Z.rem index 2 =? 0)%Z
    else true in
  if isStart then -1 else 1.

(** ** Library string functions, on ASCII *)

Module strings.

(** [unicode.IsSpace] on one byte: tab, line feed, vertical tab, form feed,
    carriage return, space. *)
Definition isSpace (c : ascii) : bool :=
  let n := nat_of_ascii c in
  ((9 <=? n)%nat && (n <=? 13)%nat) || (n =? 32)%nat.

Definition toLowerByte (c : ascii) : ascii :=
  let n := nat_of_ascii c in
  if ((65 <=? n)%nat && (n <=? 90)%nat) then ascii_of_nat (n + 32) else c.

(** [strings.ToLower]. *)
Fixpoint ToLower (s : string) : string :=
  match s with
  | EmptyString => EmptyString
  | String c r => String (toLowerByte c) (ToLower r)
  end.

Fixpoint trimLeft (s : string) : string :=
  match s with
  | EmptyString => EmptyString
  | String c r => if isSpace c then trimLeft r else s
  end.

Fixpoint trimRight (s : string) : string :=
  match s with
  | EmptyString => EmptyString
  | String c r =>
      match trimRight r with
      | EmptyString => if isSpace c then EmptyString else String c EmptyString
      | r' => String c r'
      end
  end.

(** [strings.TrimSpace]. *)
Definition TrimSpace (s : string) : string := trimRight (trimLeft s).

(** [strings.Fields]: the maximal runs of non-space bytes, in order. *)
Fixpoint Fields (s : string) : list string :=
  match s with
  | EmptyString => []
  | String c r =>
      if isSpace c then Fields r
      else
        match r with
        | EmptyString => [String c EmptyString]
        | String c' _ =>
            if isSpace c' then String c EmptyString :: Fields r
            else
              match Fields r with
              | w :: ws => String c w :: ws
              | [] => [String c EmptyString]
              end
        end
  end.

(** [strings.Split(s, sep)] for a one-byte separator. *)
Fixpoint Split (s : string) (sep : ascii) : list string :=
  match s with
  | EmptyString => [EmptyString]
  | String c r =>
      if Ascii.eqb c sep then EmptyString :: Split r sep
      else
        match Split r sep with
        | w :: ws => String c w :: ws
        | [] => [String c EmptyString]
        end
  end.

(** The text before and after the first occurrence of [sep]. *)
Fixpoint cut (s : string) (sep : ascii) : option (string * string) :=
  match s with
  | EmptyString => None
  | String c r =>
      if Ascii.eqb c sep then Some (EmptyString, r)
      else
        match cut r sep with
        | Some (a, b) => Some (String c a, b)
        | None => None
        end
  end.

(** [strings.SplitN(s, sep, n)] for a one-byte separator and [n >= 0]. *)
Fixpoint SplitN (s : string) (sep : ascii) (n : nat) : list string :=
  match n with
  | O => []
  | S O => [s]
  | S n' =>
      match cut s sep with
      | Some (a, b) => a :: SplitN b sep n'
      | None => [s]
      end
  end.

(** [len([]rune(s))] for well-formed UTF-8: the bytes that are not
    continuation bytes (10xxxxxx). *)
Fixpoint runeCount (s : string) : nat :=
  match s with
  | EmptyString => O
  | String c r =>
      let n := nat_of_ascii c in
      if ((128 <=? n)%nat && (n <? 192)%nat) then runeCount r
      else S (runeCount r)
  end.

(** [strings.HasPrefix]. *)
Definition HasPrefix (s prefix : string) : bool := String.prefix prefix s.

End strings.

(** ** Text dimension estimation *)

Definition getEstimatedHeight (font : FontStyle) : R :=
  if (f_FontSize font <=? 0)%Z then 15
  else float64 (f_FontSize font) * (12 / 10).

Definition estimateTextSVGWidth (text : string) (font : FontStyle) : R :=
  if (f_FontSize font <=? 0)%Z || (text =? "") then 0
  else
    let averageCharWidthFactor := 6 / 10 in
    INR (strings.runeCount text) * float64 (f_FontSize font)
      * averageCharWidthFactor.

(** ** Padding and shape strings *)

(** Errors of [parseShapeString], one constructor per [fmt.Errorf] site. *)
Inductive ShapeError :=
| ErrShapeStartsWithSemicolon
| ErrInvalidParameterFormat (part : string)
| ErrInvalidNumericValue (key valStr : string)
| ErrMissingParameter (param shape : string).

Section Parsing.

(** [strconv.ParseFloat(s, 64)]: [None] when it returns an error. *)
Variable ParseFloat : string -> option R.

(** The loop of [parsePadding]: invalid parts default to 0. *)
Definition paddingValue (part : string) : R :=
  match ParseFloat part with
  | Some val => val
  | None => 0
  end.

Definition parsePadding (paddingStr : string) : R * R * R * R :=
  if paddingStr =? "" then (0, 0, 0, 0)
  else
    let parts := strings.Fields paddingStr in
    let values := map paddingValue parts in
    match values with
    | [v0] => (v0, v0, v0, v0)
    | [v0; v1] => (v0, v1, v0, v1)
    | [v0; v1; v2] => (v0, v1, v2, v1)
    | [v0; v1; v2; v3] => (v0, v1, v2, v3)
    | v0 :: v1 :: v2 :: v3 :: _ => (v0, v1, v2, v3)
    | _ => (0, 0, 0, 0)
    end.

(** The parameter loop of [parseShapeString] over [parts[1:]]; an error
    returns at once with the parameters collected so far. *)
Fixpoint parseShapeParams (parts : list string) (params : gmap string R)
    : gmap string R * option ShapeError :=
  match parts with
  | [] => (params, None)
  | part :: rest =>
      match strings.SplitN part "=" 2 with
      | [p0; p1] =>
          let key := strings.ToLower (strings.TrimSpace p0) in
          let valStr := strings.TrimSpace p1 in
          if (key =? "r") && (strings.ToLower valStr =? "auto") then
            parseShapeParams rest (<[key := -1]> params)
          else
            match ParseFloat valStr with
            | None => (params, Some (ErrInvalidNumericValue key valStr))
            | Some val => parseShapeParams rest (<[key := val]> params)
            end
      | _ => (params, Some (ErrInvalidParameterFormat part))
      end
  end.

(** Validation of the required parameters of the known shapes. *)
Definition validateShapeParams (shapeType : string) (params : gmap string R)
    : option ShapeError :=
  if shapeType =? "circle" then
    match params !! "r" with
    | None => Some (ErrMissingParameter "r" "circle")
    | Some _ => None
    end
  else if shapeType =? "rectangle" then
    match params !! "w" with
    | None => Some (ErrMissingParameter "w" "rectangle")
    | Some _ =>
        match params !! "h" with
        | None => Some (ErrMissingParameter "h" "rectangle")
        | Some _ => None
        end
    end
  else None.

Definition parseShapeString (shapeStr : string)
    : string * gmap string R * option ShapeError :=
  let params : gmap string R := ∅ in
  if (shapeStr =? "") || (shapeStr =? "none") then ("none", params, None)
  else
    let parts := strings.Split shapeStr ";" in
    let shapeType := strings.ToLower (strings.TrimSpace (hd "" parts)) in
    if shapeType =? "" then ("none", params, Some ErrShapeStartsWithSemicolon)
    else
      match parseShapeParams (tl parts) params with
      | (params, Some err) => (shapeType, params, Some err)
      | (params, None) =>
          (shapeType, params, validateShapeParams shapeType params)
      end.

End Parsing.

(** ** Bounds tracker *)

(** Structure to hold calculated bounds. *)
Record bounds := {
  minX : R;
  maxX : R;
  minY : R;
  maxY : R;
  isSet : bool
}.

(** The zero value [bounds{}]. *)
Definition emptyBounds : bounds :=
  {| minX := 0; maxX := 0; minY := 0; maxY := 0; isSet := false |}.

(** Update bounds considering a point (x, y). *)
Definition updatePoint (b : bounds) (x y : R) : bounds :=
  if negb (isSet b) then
    {| minX := x; maxX := x; minY := y; maxY := y; isSet := true |}
  else
    {| minX := Rmin (minX b) x; maxX := Rmax (maxX b) x;
       minY := Rmin (minY b) y; maxY := Rmax (maxY b) y;
       isSet := isSet b |}.

(** Update bounds considering a rectangle. *)
Definition updateRect (b : bounds) (x y width height : R) : bounds :=
  if Rgtb width 0 && Rgtb height 0 then
    updatePoint (updatePoint b x y) (x + width) (y + height)
  else b.

(** One update of the bounds, as data. *)
Inductive BoundsUpdate :=
| UpdPoint (x y : R)
| UpdRect (x y width height : R).

Definition applyUpdate (b : bounds) (u : BoundsUpdate) : bounds :=
  match u with
  | UpdPoint x y => updatePoint b x y
  | UpdRect x y w h => updateRect b x y w h
  end.

(** ** Drawing state *)

(** The primitives written to the SVG body, one constructor per format
    string of the source. *)
Inductive Primitive :=
| AxisLine (x1 y1 x2 y2 : R) (stroke : string) (width : R) (dash : DashArray)
    (roundedCaps : bool)
| MarkerPolygon (ax ay bx by_ cx cy : R) (fill : string)
| MarkerCircle (cx cy r : R) (fill : string)
| ConnectorLine (x1 y1 x2 y2 : R) (stroke : string) (width : R)
    (dash : DashArray)
| DotCircle (cx cy r : R) (fill : string)
| DotSquare (x y width height : R) (fill : string)
| DotArrow (p1x p1y p2x p2y tipX tipY : R) (fill : string)
| LinkOpen (href : string)
| LinkClose
| YearCircle (cx cy r : R) (fill stroke : string) (strokeWidth : R)
| YearRect (x y width height : R) (fill stroke : string) (strokeWidth : R)
| YearText (x y : R) (font : FontStyle) (fill text : string)
| CommentBackground (x y width height : R) (fill stroke : string)
    (strokeWidth : R) (dash : DashArray)
| CommentTitle (x y : R) (font : FontStyle) (fill text : string)
| CommentTitleLine (x1 y1 x2 y2 : R) (stroke : string) (width : R)
| CommentBody (x y width height : R) (textColor : string) (font : FontStyle)
    (textAlign imageURL bodyText : string).

(** Messages written with [log.Printf] by the layout code. *)
Inductive LogEvent :=
| WarnShapeParse (shape year : string) (err : ShapeError)
| LogImageAttempt (imgSrc : string)
| WarnImageRead (imgSrc : string)
| LogImageEmbedded (imageURL : string).

(** The SVG buffer, the shared bounds and the log, threaded through every
    drawing step. *)
Record Canvas := {
  svg : list Primitive;
  timelineBounds : bounds;
  logged : list LogEvent
}.

Definition emptyCanvas : Canvas :=
  {| svg := []; timelineBounds := emptyBounds; logged := [] |}.

Definition emit (p : Primitive) (c : Canvas) : Canvas :=
  {| svg := svg c ++ [p]; timelineBounds := timelineBounds c;
     logged := logged c |}.

Definition boundsPoint (x y : R) (c : Canvas) : Canvas :=
  {| svg := svg c; timelineBounds := updatePoint (timelineBounds c) x y;
     logged := logged c |}.

Definition boundsRect (x y width height : R) (c : Canvas) : Canvas :=
  {| svg := svg c;
     timelineBounds := updateRect (timelineBounds c) x y width height;
     logged := logged c |}.

Definition logPrintf (ev : LogEvent) (c : Canvas) : Canvas :=
  {| svg := svg c; timelineBounds := timelineBounds c;
     logged := logged c ++ [ev] |}.

(** [for i, a := range l { s = f i a s }], counting from [i]. *)
Fixpoint forRangeFrom {A St : Type} (f : nat -> A -> St -> St) (i : nat)
    (l : list A) (s : St) : St :=
  match l with
  | [] => s
  | a :: rest => forRangeFrom f (S i) rest (f i a s)
  end.

Definition forRange {A St : Type} (f : nat -> A -> St -> St) (l : list A)
    (s : St) : St :=
  forRangeFrom f 0 l s.

(** ** Axis geometry *)

(** Start/end coordinates and effective angle (degrees) of one axis
    segment. *)
Definition calculateAxisGeometry (x1 y1 length : R) (orientation : string)
    (globalAngle overrideAngle : option R) : R * R * R * R * R :=
  let baseAngleDeg := if orientation =? "vertical" then 90 else 0 in
  let effectiveAngleDeg := baseAngleDeg in
  let effectiveAngleDeg :=
    match globalAngle with Some a => a | None => effectiveAngleDeg end in
  let effectiveAngleDeg :=
    match overrideAngle with Some a => a | None => effectiveAngleDeg end in
  let effectiveAngleRad := effectiveAngleDeg * PI / 180 in
  let nx1 := x1 in
  let ny1 := y1 in
  let nx2 := x1 + length * cos effectiveAngleRad in
  let ny2 := y1 + length * sin effectiveAngleRad in
  (nx1, ny1, nx2, ny2, effectiveAngleDeg).

Record LayoutConfig := {
  layoutPadding : R;
  defaultEntrySpacing : R;
  defaultConnectorLength : R;
  centerLineBaseColor : string;
  centerLineWidth : R;
  centerLineIsRounded : bool
}.

Record TimelinePositionData := {
  entryPoints : list R;
  junctionPoints : list R;
  segmentColors : list string;
  markerStyles : list JunctionMarkerStyle;
  connectorStyles : list ConnectorStyle;
  yearStyles : list YearTextStyle;
  commentStyles : list CommentTextStyle
}.

Definition initializeLayoutConfig (template : Template) : LayoutConfig :=
  let padding := lo_Padding (t_Layout template) in
  let spacing := lo_EntrySpacing (t_Layout template) in
  let connLen := lo_ConnectorLength (t_Layout template) in
  let color := cl_Color (t_CenterLine template) in
  let width := float64 (cl_Width (t_CenterLine template)) in
  {| layoutPadding := if Rleb padding 0 then 50 else padding;
     defaultEntrySpacing := if Rleb spacing 0 then 150 else spacing;
     defaultConnectorLength := if Rleb connLen 0 then 50 else connLen;
     centerLineBaseColor := if color =? "" then "#000000" else color;
     centerLineWidth := if Rleb width 0 then 2 else width;
     centerLineIsRounded := cl_RoundedCaps (t_CenterLine template) |}.

(** The spacing that follows an entry: its override when positive, else the
    configured default. *)
Definition entrySpacing (config : LayoutConfig) (entry : TimelineEntry) : R :=
  let spacing := defaultEntrySpacing config in
  let spacing :=
    match e_EntrySpacingOverride entry with
    | Some s => s
    | None => spacing
    end in
  if Rleb spacing 0 then defaultEntrySpacing config else spacing.

(** The loop of [calculateTimelinePositionsAndStyles] from position
    [currentPos] on; after the last entry the closing junction is stored. *)
Fixpoint positionsAndStylesFrom (template : Template) (config : LayoutConfig)
    (currentPos : R) (entries : list TimelineEntry) : TimelinePositionData :=
  match entries with
  | [] =>
      {| entryPoints := []; junctionPoints := [currentPos];
         segmentColors := []; markerStyles := []; connectorStyles := [];
         yearStyles := []; commentStyles := [] |}
  | entry :: rest =>
      let spacing := entrySpacing config entry in
      let defaults := t_PeriodDefaults template in
      let projStyle :=
        getEffectiveCenterlineProjectionStyle
          (ps_CenterlineProjection defaults)
          (e_CenterlineProjectionOverride entry) in
      let segmentColor :=
        if cp_Color projStyle =? "" then centerLineBaseColor config
        else cp_Color projStyle in
      let data :=
        positionsAndStylesFrom template config (currentPos + spacing) rest in
      {| entryPoints := (currentPos + spacing / 2) :: entryPoints data;
         junctionPoints := currentPos :: junctionPoints data;
         segmentColors := segmentColor :: segmentColors data;
         markerStyles :=
           getEffectiveJunctionMarkerStyle (ps_JunctionMarker defaults)
             (e_JunctionMarkerOverride entry) :: markerStyles data;
         connectorStyles :=
           getEffectiveConnectorStyle (ps_Connector defaults)
             (e_ConnectorOverride entry) :: connectorStyles data;
         yearStyles :=
           getEffectiveYearTextStyle (t_GlobalFont template)
             (ps_YearText defaults) (e_YearTextOverride entry)
             :: yearStyles data;
         commentStyles :=
           getEffectiveCommentTextStyle (t_GlobalFont template)
             (ps_CommentText defaults) (e_CommentTextOverride entry)
             :: commentStyles data |}
  end.

Definition calculateTimelinePositionsAndStyles (entries : list TimelineEntry)
    (template : Template) (config : LayoutConfig) : TimelinePositionData :=
  positionsAndStylesFrom template config 0 entries.

(** A point of the axis. *)
Record AxisPoint := { X : R; Y : R }.

(** Phase 1 of [GenerateSVG] from entry [i] on: the axis point of every
    entry and, for every entry but the last, the segment that follows it
    (whose angle override is that of the next entry). *)
Fixpoint axisWalk (junctions : list R) (baseOrientation : string)
    (globalAxisAngle : option R) (i : nat) (current : AxisPoint)
    (entries : list TimelineEntry)
    : list AxisPoint * list (AxisPoint * AxisPoint) :=
  match entries with
  | [] => ([], [])
  | _ :: rest =>
      match rest with
      | [] => ([current], [])
      | next :: _ =>
          let segmentLength := nth (i + 1) junctions 0 - nth i junctions 0 in
          let '(segStartX, segStartY, segEndX, segEndY, _) :=
            calculateAxisGeometry (X current) (Y current) segmentLength
              baseOrientation globalAxisAngle (e_AngleOverride next) in
          let '(points, segments) :=
            axisWalk junctions baseOrientation globalAxisAngle (S i)
              {| X := segEndX; Y := segEndY |} rest in
          (current :: points,
           ({| X := segStartX; Y := segStartY |},
            {| X := segEndX; Y := segEndY |}) :: segments)
      end
  end.

(** The pre-calculated axis geometry of [GenerateSVG]. *)
Record AxisGeometry := {
  entryAxisPoints : list AxisPoint;
  segmentStartPoints : list AxisPoint;
  segmentEndPoints : list AxisPoint
}.

Definition calculateAxis (template : Template) (entries : list TimelineEntry)
    (timelineData : TimelinePositionData) : AxisGeometry :=
  let startX := 0 in
  let startY := 0 in
  let globalAxisAngle := cl_Angle (t_CenterLine template) in
  let baseOrientation := cl_Orientation (t_CenterLine template) in
  let firstOverride :=
    match entries with
    | e0 :: _ => e_AngleOverride e0
    | [] => None
    end in
  let '(initialSegStartX, initialSegStartY, initialSegEndX, initialSegEndY, _) :=
    calculateAxisGeometry startX startY (nth 0 (junctionPoints timelineData) 0)
      baseOrientation globalAxisAngle firstOverride in
  let '(points, segments) :=
    axisWalk (junctionPoints timelineData) baseOrientation globalAxisAngle 0
      {| X := initialSegEndX; Y := initialSegEndY |} entries in
  {| entryAxisPoints := points;
     segmentStartPoints :=
       {| X := initialSegStartX; Y := initialSegStartY |} :: map fst segments;
     segmentEndPoints :=
       {| X := initialSegEndX; Y := initialSegEndY |} :: map snd segments |}.

(** ** Parameter structs of the drawing functions *)

Record ElementCenterParams := {
  ecp_AxisX : R;
  ecp_AxisY : R;
  ecp_MainOffset : R;
  ecp_CrossOffset : R;
  ecp_ConnectorLen : R;
  ecp_CrossDir : R;
  ecp_IsHorizontal : bool
}.

Record JunctionMarkerParams := {
  jmp_Style : JunctionMarkerStyle;
  jmp_CenterX : R;
  jmp_CenterY : R;
  jmp_MarkerColor : string;
  jmp_IsHorizontal : bool;
  jmp_CenterLineWidth : R
}.

Record CommentParams := {
  cmt_Style : CommentTextStyle;
  cmt_AnchorX : R;
  cmt_AnchorY : R;
  cmt_CrossAxisDir : R;
  cmt_IsHorizontal : bool;
  cmt_SegmentWidth : R;
  cmt_DefaultColor : string;
  cmt_TitleText : string;
  cmt_BodyText : string;
  cmt_ImageURL : string
}.

Record ConnectorParams := {
  conn_X1 : R;
  conn_Y1 : R;
  conn_X2 : R;
  conn_Y2 : R;
  conn_Style : ConnectorStyle;
  conn_SegmentColor : string;
  conn_IsHorizontal : bool;
  conn_CrossAxisDir : R;
  conn_LineIsVisible : bool;
  conn_ElementCrossOffset : R
}.

Record YearShapeParams := {
  ysp_ShapeType : string;
  ysp_ShapeParams : gmap string R;
  ysp_CenterX : R;
  ysp_CenterY : R;
  ysp_TextWidth : R;
  ysp_TextHeight : R;
  ysp_YearStyle : YearTextStyle
}.

Record ConnectorDotParams := {
  cdp_DotStyle : DotStyle;
  cdp_P1x : R;
  cdp_P1y : R;
  cdp_P2x : R;
  cdp_P2y : R;
  cdp_DefaultColor : string;
  cdp_IsHorizontal : bool;
  cdp_CrossAxisDir : R;
  cdp_LineIsVisible : bool
}.

Record DrawCenterLineSegmentParams := {
  clsp_X1 : R;
  clsp_Y1 : R;
  clsp_X2 : R;
  clsp_Y2 : R;
  clsp_Color : string;
  clsp_Width : R;
  clsp_LineType : string;
  clsp_RoundedCaps : bool
}.

Record ConnectorLineSegmentsParams := {
  seg_ConnParams : ConnectorParams;
  seg_DotX : R;
  seg_DotY : R;
  seg_Ux : R;
  seg_Uy : R;
  seg_Nx : R;
  seg_Ny : R;
  seg_DrawWidth : R;
  seg_DrawColor : string;
  seg_DashArray : DashArray
}.

Record TimelineEntryParams := {
  tep_Index : nat;
  tep_Entry : TimelineEntry;
  tep_Data : TimelinePositionData;
  tep_EntryAxisX : R;
  tep_EntryAxisY : R;
  tep_IsHorizontal : bool;
  tep_Config : LayoutConfig
}.

Record CommentBlockLayout := {
  blockX : R;
  blockY : R;
  visualBlockWidth : R;
  visualBlockHeight : R;
  contentCenterX : R;
  titleTextAbsY : R;
  titleLineAbsY : R;
  bodyAbsX : R;
  bodyAbsY : R;
  foHeight : R;
  padTop : R;
  padRight : R;
  padBottom : R;
  padLeft : R;
  contentWidth : R
}.

Record CommentTitleParams := {
  ctp_TitleText : string;
  ctp_TitleFont : FontStyle;
  ctp_TitleColor : string;
  ctp_Layout : CommentBlockLayout
}.

Record CommentBodyParams := {
  cbp_Params : CommentParams;
  cbp_BodyFont : FontStyle;
  cbp_TextColor : string;
  cbp_Layout : CommentBlockLayout
}.

Record CommentTitleLineParams := {
  ctlp_TitleLine : TitleLineStyle;
  ctlp_Layout : CommentBlockLayout
}.

(** ** Connector routing *)

(** The threshold below which an offset or a length counts as zero. *)
Definition epsilon : R := 1 / 1000.

(** The centre of the edge of the comment box that faces the axis. *)
Definition calculateCommentEdgePoint (layout : CommentBlockLayout)
    (crossAxisDir : R) (isHorizontal : bool) : R * R :=
  if isHorizontal then
    if Rltb crossAxisDir 0 then
      (blockX layout + visualBlockWidth layout / 2, blockY layout)
    else
      (blockX layout + visualBlockWidth layout / 2,
       blockY layout + visualBlockHeight layout)
  else
    if Rltb crossAxisDir 0 then
      (blockX layout, blockY layout + visualBlockHeight layout / 2)
    else
      (blockX layout + visualBlockWidth layout,
       blockY layout + visualBlockHeight layout / 2).

Definition determineMarkerColor (markerStyle : JunctionMarkerStyle)
    (segmentColor : string) (connStyle : ConnectorStyle) : string :=
  match jm_Color markerStyle with
  | Some c => c
  | None =>
      if negb (cs_Color connStyle =? "") then cs_Color connStyle
      else segmentColor
  end.

Definition calculateConnectorStyleAttributes (style : ConnectorStyle)
    (segmentColor : string) : string * R * DashArray :=
  let connDrawColor :=
    if cs_Color style =? "" then segmentColor else cs_Color style in
  let connDrawWidth := float64 (cs_Width style) in
  let connDrawWidth := if Rleb connDrawWidth 0 then 1 else connDrawWidth in
  let connDashArray :=
    getStrokeDashArray (cs_LineType style) (int connDrawWidth) in
  (connDrawColor, connDrawWidth, connDashArray).

(** Unit vector from the axis point (x2, y2) toward the element (x1, y1),
    its perpendicular, and the distance. *)
Definition calculateConnectorVectors (x1 y1 x2 y2 : R) : R * R * R * R * R :=
  let dx := x1 - x2 in
  let dy := y1 - y2 in
  let lineLen := sqrt (dx * dx + dy * dy) in
  if Rgtb lineLen epsilon then
    let ux := dx / lineLen in
    let uy := dy / lineLen in
    (ux, uy, - uy, ux, lineLen)
  else (1, 0, 0, 1, lineLen).

Definition calculateConnectorDotPosition (axisX axisY ux uy nx ny : R)
    (dotStyle : DotStyle) : R * R :=
  let offsetMain := float64 (dot_OffsetMain dotStyle) in
  let offsetCross := float64 (dot_OffsetCross dotStyle) in
  (axisX + ux * offsetMain + nx * offsetCross,
   axisY + uy * offsetMain + ny * offsetCross).

(** Whether a dogleg is needed: the dot or the element has a cross offset. *)
Definition isDogleg (dotStyle : DotStyle) (elementOffsetCross : R) : bool :=
  let dotOffsetCross := float64 (dot_OffsetCross dotStyle) in
  Rgeb (Rabs dotOffsetCross) epsilon || Rgeb (Rabs elementOffsetCross) epsilon.

(** The elbow of a dogleg. *)
Definition doglegMidPoint (params : ConnectorLineSegmentsParams) : R * R :=
  if conn_IsHorizontal (seg_ConnParams params) then
    (conn_X1 (seg_ConnParams params), seg_DotY params)
  else
    (seg_DotX params, conn_Y1 (seg_ConnParams params)).

(** Whether stopping at the dot would give a zero-length line. *)
Definition isZeroLengthStop (params : ConnectorLineSegmentsParams) : bool :=
  Rltb (Rabs (seg_DotX params - conn_X1 (seg_ConnParams params))) epsilon
  && Rltb (Rabs (seg_DotY params - conn_Y1 (seg_ConnParams params))) epsilon.

Definition drawConnectorLineSegments (params : ConnectorLineSegmentsParams)
    (c : Canvas) : Canvas :=
  let cp := seg_ConnParams params in
  let line x1 y1 x2 y2 :=
    ConnectorLine x1 y1 x2 y2 (seg_DrawColor params) (seg_DrawWidth params)
      (seg_DashArray params) in
  if negb (conn_LineIsVisible cp) then c
  else
    let dotStyle := cs_Dot (conn_Style cp) in
    if negb (dot_StopAtDot dotStyle) then
      (* Case 1: straight line from element (X1,Y1) to axis point (X2,Y2) *)
      let c := emit (line (conn_X1 cp) (conn_Y1 cp) (conn_X2 cp) (conn_Y2 cp)) c in
      let c := boundsPoint (conn_X1 cp) (conn_Y1 cp) c in
      boundsPoint (conn_X2 cp) (conn_Y2 cp) c
    else if isDogleg dotStyle (conn_ElementCrossOffset cp) then
      (* Subcase 2a: element -> elbow -> dot *)
      let '(midPointX, midPointY) := doglegMidPoint params in
      let c := emit (line (conn_X1 cp) (conn_Y1 cp) midPointX midPointY) c in
      let c := emit (line midPointX midPointY (seg_DotX params) (seg_DotY params)) c in
      let c := boundsPoint (conn_X1 cp) (conn_Y1 cp) c in
      let c := boundsPoint midPointX midPointY c in
      boundsPoint (seg_DotX params) (seg_DotY params) c
    else
      (* Subcase 2b: single line element -> dot, or -> axis point when the
         line to the dot would have zero length *)
      let '(finalEndX, finalEndY) :=
        if isZeroLengthStop params then (conn_X2 cp, conn_Y2 cp)
        else (seg_DotX params, seg_DotY params) in
      let c := emit (line (conn_X1 cp) (conn_Y1 cp) finalEndX finalEndY) c in
      let c := boundsPoint (conn_X1 cp) (conn_Y1 cp) c in
      boundsPoint finalEndX finalEndY c.

Definition drawConnectorDot (params : ConnectorDotParams) (dotX dotY : R)
    (c : Canvas) : Canvas :=
  let style := cdp_DotStyle params in
  if negb (dot_Visible style) || (dot_Shape style =? "none")
     || (dot_Size style <=? 0)%Z then c
  else
    let dotSize := float64 (dot_Size style) in
    let halfDotSize := dotSize / 2 in
    let dotColor :=
      if dot_Color style =? "" then cdp_DefaultColor params
      else dot_Color style in
    let c :=
      if dot_Shape style =? "circle" then
        emit (DotCircle dotX dotY halfDotSize dotColor) c
      else if dot_Shape style =? "square" then
        emit (DotSquare (dotX - halfDotSize) (dotY - halfDotSize) dotSize
                dotSize dotColor) c
      else if dot_Shape style =? "arrow" then
        if cdp_IsHorizontal params then
          emit (DotArrow (dotX - halfDotSize) dotY (dotX + halfDotSize) dotY
                  dotX (dotY - cdp_CrossAxisDir params * halfDotSize * (12 / 10))
                  dotColor) c
        else
          emit (DotArrow dotX (dotY - halfDotSize) dotX (dotY + halfDotSize)
                  (dotX - cdp_CrossAxisDir params * halfDotSize * (12 / 10)) dotY
                  dotColor) c
      else c in
    boundsRect (dotX - halfDotSize) (dotY - halfDotSize) dotSize dotSize c.

Definition drawConnector (params : ConnectorParams) (c : Canvas) : Canvas :=
  let '(connDrawColor, connDrawWidth, connDashArray) :=
    calculateConnectorStyleAttributes (conn_Style params)
      (conn_SegmentColor params) in
  let '(ux, uy, nx, ny, _) :=
    calculateConnectorVectors (conn_X1 params) (conn_Y1 params)
      (conn_X2 params) (conn_Y2 params) in
  let dotStyle := cs_Dot (conn_Style params) in
  let '(dotX, dotY) :=
    calculateConnectorDotPosition (conn_X2 params) (conn_Y2 params)
      ux uy nx ny dotStyle in
  let c :=
    drawConnectorLineSegments
      {| seg_ConnParams := params; seg_DotX := dotX; seg_DotY := dotY;
         seg_Ux := ux; seg_Uy := uy; seg_Nx := nx; seg_Ny := ny;
         seg_DrawWidth := connDrawWidth; seg_DrawColor := connDrawColor;
         seg_DashArray := connDashArray |} c in
  drawConnectorDot
    {| cdp_DotStyle := dotStyle;
       cdp_P1x := conn_X1 params; cdp_P1y := conn_Y1 params;
       cdp_P2x := conn_X2 params; cdp_P2y := conn_Y2 params;
       cdp_DefaultColor := connDrawColor;
       cdp_IsHorizontal := conn_IsHorizontal params;
       cdp_CrossAxisDir := conn_CrossAxisDir params;
       cdp_LineIsVisible := conn_LineIsVisible params |} dotX dotY c.

(** ** Element placement *)

Definition calculateElementCenter (params : ElementCenterParams) : R * R :=
  let centerX := ecp_AxisX params in
  let centerY := ecp_AxisY params in
  if ecp_IsHorizontal params then
    (centerX + ecp_MainOffset params,
     centerY + ecp_CrossDir params
               * (ecp_ConnectorLen params + ecp_CrossOffset params))
  else
    (centerX + ecp_CrossDir params
               * (ecp_ConnectorLen params + ecp_CrossOffset params),
     centerY + ecp_MainOffset params).

Definition drawJunctionMarker (params : JunctionMarkerParams) (c : Canvas)
    : Canvas :=
  let style := jmp_Style params in
  if (jm_Shape style =? "none") || Rleb (jm_Size style) 0 then c
  else
    let size := jm_Size style in
    let halfSize := size / 2 in
    let fillColor := jmp_MarkerColor params in
    let cx := jmp_CenterX params in
    let cy := jmp_CenterY params in
    if (jm_Shape style =? "arrow") || (jm_Shape style =? "diamond") then
      let '(p1x, p1y, p2x, p2y, p3x, p3y, p4x, p4y) :=
        if jmp_IsHorizontal params then
          (cx, cy + halfSize, cx - halfSize, cy, cx + halfSize, cy,
           cx, cy - halfSize)
        else
          (cx + halfSize, cy, cx, cy - halfSize, cx, cy + halfSize,
           cx - halfSize, cy) in
      let c := emit (MarkerPolygon p1x p1y p2x p2y p3x p3y fillColor) c in
      let c := emit (MarkerPolygon p4x p4y p2x p2y p3x p3y fillColor) c in
      let c := boundsPoint (cx - halfSize) (cy - halfSize) c in
      boundsPoint (cx + halfSize) (cy + halfSize) c
    else if jm_Shape style =? "circle" then
      let c := emit (MarkerCircle cx cy halfSize fillColor) c in
      boundsRect (cx - halfSize) (cy - halfSize) size size c
    else c.

Definition drawCenterLineSegment (params : DrawCenterLineSegmentParams)
    (c : Canvas) : Canvas :=
  let strokeDash :=
    getStrokeDashArray (clsp_LineType params) (int (clsp_Width params)) in
  let c :=
    emit (AxisLine (clsp_X1 params) (clsp_Y1 params) (clsp_X2 params)
            (clsp_Y2 params) (clsp_Color params) (clsp_Width params)
            strokeDash (clsp_RoundedCaps params)) c in
  let c := boundsPoint (clsp_X1 params) (clsp_Y1 params) c in
  boundsPoint (clsp_X2 params) (clsp_Y2 params) c.

(** ** Comment block layout *)

(** Height needed for the foreignObject content. *)
Definition calculateForeignObjectHeight (bodyText imageURL : string) : R :=
  if (bodyText =? "") && (imageURL =? "") then 0
  else if (bodyText =? "") && negb (imageURL =? "") then
    imagePlaceholderHeight + 10
  else foreignObjectHeightEstimate.

(** Top-left corner of a comment block from its anchor and direction. *)
Definition calculateBlockPosition (anchorX anchorY blockWidth totalHeight
    crossAxisDir : R) (isHorizontal : bool) : R * R :=
  if isHorizontal then
    (anchorX - blockWidth / 2,
     if Rltb crossAxisDir 0 then anchorY - totalHeight else anchorY)
  else
    (if Rltb crossAxisDir 0 then anchorX - blockWidth else anchorX,
     anchorY - totalHeight / 2).

Definition drawCommentBackground (style : CommentTextStyle)
    (layout : CommentBlockLayout) (c : Canvas) : Canvas :=
  if ct_Shape style =? "rectangle" then
    let rectX := blockX layout in
    let rectY := blockY layout in
    let rectW := visualBlockWidth layout in
    let rectH := visualBlockHeight layout in
    let rectFill := if ct_FillColor style =? "" then "none" else ct_FillColor style in
    let rectBorderColor :=
      if ct_BorderColor style =? "" then "none" else ct_BorderColor style in
    let rectBorderWidth := float64 (ct_BorderWidth style) in
    let rectBorderWidth := if Rltb rectBorderWidth 0 then 0 else rectBorderWidth in
    let rectBorderDashArray :=
      getStrokeDashArray (ct_BorderStyle style) (int rectBorderWidth) in
    let c :=
      emit (CommentBackground rectX rectY rectW rectH rectFill rectBorderColor
              rectBorderWidth rectBorderDashArray) c in
    boundsRect rectX rectY rectW rectH c
  else c.

Definition drawCommentTitle (params : CommentTitleParams) (c : Canvas)
    : Canvas :=
  let layout := ctp_Layout params in
  let c :=
    emit (CommentTitle (contentCenterX layout) (titleTextAbsY layout)
            (ctp_TitleFont params) (ctp_TitleColor params)
            (ctp_TitleText params)) c in
  boundsPoint (contentCenterX layout) (titleTextAbsY layout) c.

(** An image source that is a likely file path: neither a URL nor a data
    URI. *)
Definition isLocalImage (imgSrc : string) : bool :=
  negb (strings.HasPrefix imgSrc "http://")
  && negb (strings.HasPrefix imgSrc "https://")
  && negb (strings.HasPrefix imgSrc "data:").

(** The body region.  [ReadImage] stands for [os.ReadFile] of a local image
    followed by its encoding as a data URI ([getMimeType], base64): [None]
    when the file cannot be read.  The image source carried by the
    primitive is the one of the image tag; the empty string means that no
    image tag is written. *)
Definition drawCommentBody (ReadImage : string -> option string)
    (params : CommentBodyParams) (c : Canvas) : Canvas :=
  let layout := cbp_Layout params in
  let contentWidth := contentWidth layout in
  let c :=
    boundsRect (bodyAbsX layout) (bodyAbsY layout) contentWidth
      (foHeight layout) c in
  let style := cmt_Style (cbp_Params params) in
  let textAlign := if ct_TextAlign style =? "" then "center" else ct_TextAlign style in
  let imageURL := cmt_ImageURL (cbp_Params params) in
  let '(imgSrc, c) :=
    if negb (imageURL =? "") then
      if isLocalImage imageURL then
        let c := logPrintf (LogImageAttempt imageURL) c in
        match ReadImage imageURL with
        | None => ("", logPrintf (WarnImageRead imageURL) c)
        | Some dataURI =>
            (dataURI, logPrintf (LogImageEmbedded imageURL) c)
        end
      else (imageURL, c)
    else ("", c) in
  emit (CommentBody (bodyAbsX layout) (bodyAbsY layout) contentWidth
          (foHeight layout) (cbp_TextColor params) (cbp_BodyFont params)
          textAlign imgSrc (cmt_BodyText (cbp_Params params))) c.

Definition drawCommentTitleLine (params : CommentTitleLineParams) (c : Canvas)
    : Canvas :=
  let layout := ctlp_Layout params in
  let titleLine := ctlp_TitleLine params in
  let lineX1 := contentCenterX layout - tl_Length titleLine / 2 in
  let lineX2 := contentCenterX layout + tl_Length titleLine / 2 in
  let c :=
    emit (CommentTitleLine lineX1 (titleLineAbsY layout) lineX2
            (titleLineAbsY layout) (tl_Color titleLine) (tl_Width titleLine)) c in
  let c := boundsPoint lineX1 (titleLineAbsY layout) c in
  boundsPoint lineX2 (titleLineAbsY layout) c.

(** The final document: canvas size, origin offset and body. *)
Record SVGDocument := {
  doc_Width : R;
  doc_Height : R;
  doc_OffsetX : R;
  doc_OffsetY : R;
  doc_Body : list Primitive
}.

Definition assembleFinalSVG (c : Canvas) (layoutPadding : R)
    (globalFont : option FontStyle) : SVGDocument :=
  let b := timelineBounds c in
  let finalWidth := layoutPadding * 2 in
  let finalHeight := layoutPadding * 2 in
  let offsetX := layoutPadding - minX b in
  let offsetY := layoutPadding - minY b in
  let '(finalWidth, finalHeight) :=
    if isSet b then
      (finalWidth + (maxX b - minX b), finalHeight + (maxY b - minY b))
    else (finalWidth + 600, finalHeight + 100) in
  {| doc_Width := Rmax finalWidth 10;
     doc_Height := Rmax finalHeight 10;
     doc_OffsetX := offsetX;
     doc_OffsetY := offsetY;
     doc_Body := svg c |}.

(** Result of a function returning [(T, error)]. *)
Inductive Result (T : Type) :=
| Ok (value : T)
| Err (message : string).
Arguments Ok {T} value.
Arguments Err {T} message.

Section Layout.

Variable ParseFloat : string -> option R.
Variable ReadImage : string -> option string.

(** The background shape of the year element. *)
Definition drawYearShape (params : YearShapeParams) (c : Canvas) : Canvas :=
  let style := ysp_YearStyle params in
  if ysp_ShapeType params =? "circle" then
    let radius := default 0 (ysp_ShapeParams params !! "r") in
    if Rltb radius 0 then
      (* 'auto' radius from the text dimensions *)
      let defaultAutoPadding := 4 in
      let textHalfWidth := ysp_TextWidth params / 2 in
      let textHalfHeight := ysp_TextHeight params / 2 in
      let radius := Rmax textHalfWidth textHalfHeight + defaultAutoPadding in
      let radius :=
        if Rltb radius (defaultAutoPadding * (15 / 10))
        then defaultAutoPadding * (15 / 10) else radius in
      emit (YearCircle (ysp_CenterX params) (ysp_CenterY params) radius
              (yt_FillColor style) (yt_BorderColor style)
              (yt_BorderWidth style)) c
    else if Reqb radius 0 then c
    else
      emit (YearCircle (ysp_CenterX params) (ysp_CenterY params) radius
              (yt_FillColor style) (yt_BorderColor style)
              (yt_BorderWidth style)) c
  else if ysp_ShapeType params =? "rectangle" then
    let rectW := default 0 (ysp_ShapeParams params !! "w") in
    let rectH := default 0 (ysp_ShapeParams params !! "h") in
    if Rgtb rectW 0 && Rgtb rectH 0 then
      emit (YearRect (ysp_CenterX params - rectW / 2)
              (ysp_CenterY params - rectH / 2) rectW rectH
              (yt_FillColor style) (yt_BorderColor style)
              (yt_BorderWidth style)) c
    else c
  else c.

(** The year element with optional shape and link. *)
Definition drawYearElement (entry : TimelineEntry) (yearStyle : YearTextStyle)
    (centerX centerY : R) (c : Canvas) : Canvas :=
  let yearStr := e_Period entry in
  let yearWidth := estimateTextSVGWidth yearStr (yt_Font yearStyle) in
  let yearHeight := getEstimatedHeight (yt_Font yearStyle) in
  let c := if negb (e_Link entry =? "") then emit (LinkOpen (e_Link entry)) c
           else c in
  (* Draw background shape *)
  let '(shapeType, shapeParams, err) :=
    parseShapeString ParseFloat (yt_Shape yearStyle) in
  let '(shapeType, c) :=
    match err with
    | Some e => ("none", logPrintf (WarnShapeParse (yt_Shape yearStyle) yearStr e) c)
    | None => (shapeType, c)
    end in
  let c :=
    drawYearShape
      {| ysp_ShapeType := shapeType; ysp_ShapeParams := shapeParams;
         ysp_CenterX := centerX; ysp_CenterY := centerY;
         ysp_TextWidth := yearWidth; ysp_TextHeight := yearHeight;
         ysp_YearStyle := yearStyle |} c in
  (* Draw the year text *)
  let c :=
    emit (YearText centerX centerY (yt_Font yearStyle)
            (yt_TextColor yearStyle) yearStr) c in
  (* Update bounds for text *)
  let estWidth :=
    Rmin (INR (String.length yearStr)
          * float64 (f_FontSize (yt_Font yearStyle)) * (7 / 10)) 200 in
  let estHeight := float64 (f_FontSize (yt_Font yearStyle)) in
  let boundsX := centerX - estWidth / 2 in
  let boundsY := centerY - estHeight / 2 in
  let c := boundsRect boundsX boundsY estWidth estHeight c in
  if negb (e_Link entry =? "") then emit LinkClose c else c.

(** The layout of a comment block. *)
Definition calculateCommentBlockLayout (params : CommentParams)
    : CommentBlockLayout :=
  let style := cmt_Style params in
  let '(padTop, padRight, padBottom, padLeft) :=
    parsePadding ParseFloat (ct_Padding style) in
  let currentRelY := padTop in
  let titleFont := ct_TitleFont style in
  let titleLine := ct_TitleLine style in
  (* Title text position and height *)
  let '(titleTextRelY, estTitleWidth, currentRelY) :=
    if negb (cmt_TitleText params =? "") then
      (currentRelY, estimateTextSVGWidth (cmt_TitleText params) titleFont,
       currentRelY + getEstimatedHeight titleFont)
    else (0, 0, currentRelY) in
  (* Title line position and height *)
  let '(titleLineRelY, estTitleWidth, currentRelY) :=
    if tl_Visible titleLine && Rgtb (tl_Width titleLine) 0
       && Rgtb (tl_Length titleLine) 0 then
      (currentRelY + tl_Margin titleLine,
       Rmax estTitleWidth (tl_Length titleLine),
       currentRelY + tl_Margin titleLine + tl_Width titleLine
         + tl_Margin titleLine)
    else (0, estTitleWidth, currentRelY) in
  let bodyRelY := currentRelY in
  let foHeight :=
    calculateForeignObjectHeight (cmt_BodyText params) (cmt_ImageURL params) in
  let requiredContentWidth := estTitleWidth in
  let contentWidth :=
    match ct_BlockWidth style with
    | Some w => if Rgtb w 0 then w else requiredContentWidth
    | None => requiredContentWidth
    end in
  let contentWidth := if Rltb contentWidth 0 then 0 else contentWidth in
  let visualBlockWidth := contentWidth + padLeft + padRight in
  let visualBlockHeight := currentRelY + foHeight + padBottom in
  let '(blockX, blockY) :=
    calculateBlockPosition (cmt_AnchorX params) (cmt_AnchorY params)
      visualBlockWidth visualBlockHeight (cmt_CrossAxisDir params)
      (cmt_IsHorizontal params) in
  {| blockX := blockX; blockY := blockY;
     visualBlockWidth := visualBlockWidth;
     visualBlockHeight := visualBlockHeight;
     contentCenterX := blockX + padLeft + contentWidth / 2;
     titleTextAbsY := blockY + titleTextRelY;
     titleLineAbsY := blockY + titleLineRelY;
     bodyAbsX := blockX + padLeft;
     bodyAbsY := blockY + bodyRelY;
     foHeight := foHeight;
     padTop := padTop; padRight := padRight; padBottom := padBottom;
     padLeft := padLeft;
     contentWidth := contentWidth |}.

(** The comment block: background, title, title line, body. *)
Definition drawComment (params : CommentParams) (c : Canvas) : Canvas :=
  let style := cmt_Style params in
  let bodyFont := ct_Font style in
  let titleFont := ct_TitleFont style in
  let titleLine := ct_TitleLine style in
  let textColor :=
    if ct_TextColor style =? "" then cmt_DefaultColor params
    else ct_TextColor style in
  let titleColor :=
    if ct_TitleColor style =? "" then textColor else ct_TitleColor style in
  let blockLayout := calculateCommentBlockLayout params in
  let c := drawCommentBackground style blockLayout c in
  let c :=
    if negb (cmt_TitleText params =? "") then
      drawCommentTitle
        {| ctp_TitleText := cmt_TitleText params; ctp_TitleFont := titleFont;
           ctp_TitleColor := titleColor; ctp_Layout := blockLayout |} c
    else c in
  let c :=
    if negb (cmt_TitleText params =? "") && tl_Visible titleLine
       && Rgtb (tl_Length titleLine) 0 && Rgtb (tl_Width titleLine) 0 then
      drawCommentTitleLine
        {| ctlp_TitleLine := titleLine; ctlp_Layout := blockLayout |} c
    else c in
  if Rgtb (foHeight blockLayout) 0 then
    drawCommentBody ReadImage
      {| cbp_Params := params; cbp_BodyFont := bodyFont;
         cbp_TextColor := textColor; cbp_Layout := blockLayout |} c
  else c.

(** ** One timeline entry *)

(** The orientation used for one entry: the global one unless the entry
    overrides it with "horizontal" or "vertical". *)
Definition effectiveOrientation (params : TimelineEntryParams) : bool :=
  match e_OrientationOverride (tep_Entry params) with
  | Some o =>
      if o =? "horizontal" then true
      else if o =? "vertical" then false
      else tep_IsHorizontal params   (* ignore invalid override values *)
  | None => tep_IsHorizontal params
  end.

(** Cross-axis directions (comment, year) of entry [i]. *)
Definition crossAxisDirections (i : nat) (effectiveIsHorizontal : bool)
    (connStyle : ConnectorStyle) : R * R :=
  let '(commentCrossAxisDir, yearCrossAxisDir) :=
    if Nat.odd i then (-1, 1) else (1, -1) in
  if negb (cs_Side connStyle =? "") then
    if (effectiveIsHorizontal && (cs_Side connStyle =? "top"))
       || (negb effectiveIsHorizontal && (cs_Side connStyle =? "left")) then
      (-1, 1)
    else if (effectiveIsHorizontal && (cs_Side connStyle =? "bottom"))
       || (negb effectiveIsHorizontal && (cs_Side connStyle =? "right")) then
      (1, -1)
    else (commentCrossAxisDir, yearCrossAxisDir)
  else (commentCrossAxisDir, yearCrossAxisDir).

(** Whether a connector flag asks for the line: unset counts as true. *)
Definition drawLine (flag : option bool) : bool :=
  match flag with
  | None => true
  | Some b => b
  end.

(** Whether the entry has a comment block at all. *)
Definition hasComment (entry : TimelineEntry) : bool :=
  negb (e_CommentText entry =? "") || negb (e_TitleText entry =? "")
  || negb (e_CommentImage entry =? "").

(** Junction marker, year connector and year element of an entry. *)
Definition drawEntryYearPart (params : TimelineEntryParams) (c : Canvas)
    : Canvas :=
  let i := tep_Index params in
  let entry := tep_Entry params in
  let timelineData := tep_Data params in
  let entryAxisX := tep_EntryAxisX params in
  let entryAxisY := tep_EntryAxisY params in
  let effectiveIsHorizontal := effectiveOrientation params in
  let config := tep_Config params in
  let connStyle := nth i (connectorStyles timelineData) zeroConnectorStyle in
  let yearStyle := nth i (yearStyles timelineData) zeroYearTextStyle in
  let markerStyle := nth i (markerStyles timelineData) zeroJunctionMarkerStyle in
  let segmentColor := nth i (segmentColors timelineData) "" in
  let '(_, yearCrossAxisDir) :=
    crossAxisDirections i effectiveIsHorizontal connStyle in
  (* Junction marker *)
  let markerColor := determineMarkerColor markerStyle segmentColor connStyle in
  let c :=
    drawJunctionMarker
      {| jmp_Style := markerStyle; jmp_CenterX := entryAxisX;
         jmp_CenterY := entryAxisY; jmp_MarkerColor := markerColor;
         jmp_IsHorizontal := effectiveIsHorizontal;
         jmp_CenterLineWidth := centerLineWidth config |} c in
  (* Year element *)
  let '(yearCenterX, yearCenterY) :=
    calculateElementCenter
      {| ecp_AxisX := entryAxisX; ecp_AxisY := entryAxisY;
         ecp_MainOffset := yt_MainAxisOffset yearStyle;
         ecp_CrossOffset := yt_CrossAxisOffset yearStyle;
         ecp_ConnectorLen := defaultConnectorLength config;
         ecp_CrossDir := yearCrossAxisDir;
         ecp_IsHorizontal := effectiveIsHorizontal |} in
  (* Connector to the year element *)
  let drawPeriodLine := drawLine (cs_DrawToPeriod connStyle) in
  let c :=
    if drawPeriodLine then
      drawConnector
        {| conn_X1 := yearCenterX; conn_Y1 := yearCenterY;
           conn_X2 := entryAxisX; conn_Y2 := entryAxisY;
           conn_Style := connStyle; conn_SegmentColor := segmentColor;
           conn_IsHorizontal := effectiveIsHorizontal;
           conn_CrossAxisDir := yearCrossAxisDir;
           conn_LineIsVisible := drawPeriodLine;
           conn_ElementCrossOffset := yt_CrossAxisOffset yearStyle |} c
    else c in
  (* The year element itself *)
  drawYearElement entry yearStyle yearCenterX yearCenterY c.

(** Comment connector and comment block of an entry. *)
Definition drawEntryCommentPart (params : TimelineEntryParams) (c : Canvas)
    : Canvas :=
  let i := tep_Index params in
  let entry := tep_Entry params in
  let timelineData := tep_Data params in
  let entryAxisX := tep_EntryAxisX params in
  let entryAxisY := tep_EntryAxisY params in
  let effectiveIsHorizontal := effectiveOrientation params in
  let config := tep_Config params in
  let connStyle := nth i (connectorStyles timelineData) zeroConnectorStyle in
  let commentStyle := nth i (commentStyles timelineData) zeroCommentTextStyle in
  let segmentColor := nth i (segmentColors timelineData) "" in
  let '(commentCrossAxisDir, _) :=
    crossAxisDirections i effectiveIsHorizontal connStyle in
  let '(commentAnchorX, commentAnchorY) :=
    calculateElementCenter
      {| ecp_AxisX := entryAxisX; ecp_AxisY := entryAxisY;
         ecp_MainOffset := ct_MainAxisOffset commentStyle;
         ecp_CrossOffset := ct_CrossAxisOffset commentStyle;
         ecp_ConnectorLen := defaultConnectorLength config;
         ecp_CrossDir := commentCrossAxisDir;
         ecp_IsHorizontal := effectiveIsHorizontal |} in
  let commentParams :=
    {| cmt_Style := commentStyle; cmt_AnchorX := commentAnchorX;
       cmt_AnchorY := commentAnchorY; cmt_CrossAxisDir := commentCrossAxisDir;
       cmt_IsHorizontal := effectiveIsHorizontal;
       cmt_SegmentWidth := defaultEntrySpacing config;
       cmt_DefaultColor := cs_Color connStyle;
       cmt_TitleText := e_TitleText entry;
       cmt_BodyText := e_CommentText entry;
       cmt_ImageURL := e_CommentImage entry |} in
  let blockLayout := calculateCommentBlockLayout commentParams in
  let '(commentEdgeX, commentEdgeY) :=
    calculateCommentEdgePoint blockLayout commentCrossAxisDir
      effectiveIsHorizontal in
  (* Connector to the comment *)
  let drawCommentLine := drawLine (cs_DrawToComment connStyle) in
  let c :=
    drawConnector
      {| conn_X1 := commentEdgeX; conn_Y1 := commentEdgeY;
         conn_X2 := entryAxisX; conn_Y2 := entryAxisY;
         conn_Style := connStyle; conn_SegmentColor := segmentColor;
         conn_IsHorizontal := effectiveIsHorizontal;
         conn_CrossAxisDir := commentCrossAxisDir;
         conn_LineIsVisible := drawCommentLine;
         conn_ElementCrossOffset := ct_CrossAxisOffset commentStyle |} c in
  (* Comment block *)
  drawComment commentParams c.

Definition drawTimelineEntry (params : TimelineEntryParams) (c : Canvas)
    : Canvas :=
  let c := drawEntryYearPart params c in
  if hasComment (tep_Entry params) then drawEntryCommentPart params c
  else c.

(** ** The whole drawing *)

(** Phase 2 of [GenerateSVG]: all centre line segments. *)
Definition drawCenterLine (template : Template) (layoutConfig : LayoutConfig)
    (timelineData : TimelinePositionData) (axis : AxisGeometry)
    (entries : list TimelineEntry) (c : Canvas) : Canvas :=
  let zeroPoint := {| X := 0; Y := 0 |} in
  forRange
    (fun i (_ : TimelineEntry) c =>
       let drawColor := nth i (segmentColors timelineData) "" in
       let drawColor :=
         if drawColor =? "" then centerLineBaseColor layoutConfig
         else drawColor in
       drawCenterLineSegment
         {| clsp_X1 := X (nth i (segmentStartPoints axis) zeroPoint);
            clsp_Y1 := Y (nth i (segmentStartPoints axis) zeroPoint);
            clsp_X2 := X (nth i (segmentEndPoints axis) zeroPoint);
            clsp_Y2 := Y (nth i (segmentEndPoints axis) zeroPoint);
            clsp_Color := drawColor;
            clsp_Width := centerLineWidth layoutConfig;
            clsp_LineType := cl_Type (t_CenterLine template);
            clsp_RoundedCaps := centerLineIsRounded layoutConfig |} c)
    entries c.

(** Phase 3 of [GenerateSVG]: all entries, on top. *)
Definition drawEntries (isHorizontal : bool) (layoutConfig : LayoutConfig)
    (timelineData : TimelinePositionData) (axis : AxisGeometry)
    (entries : list TimelineEntry) (c : Canvas) : Canvas :=
  let zeroPoint := {| X := 0; Y := 0 |} in
  forRange
    (fun i entry c =>
       drawTimelineEntry
         {| tep_Index := i; tep_Entry := entry; tep_Data := timelineData;
            tep_EntryAxisX := X (nth i (entryAxisPoints axis) zeroPoint);
            tep_EntryAxisY := Y (nth i (entryAxisPoints axis) zeroPoint);
            tep_IsHorizontal := isHorizontal;
            tep_Config := layoutConfig |} c)
    entries c.

(** The canvas after all drawing phases, for a non-empty entry list. *)
Definition drawTimeline (template : Template) (entries : list TimelineEntry)
    : Canvas :=
  let isHorizontal := cl_Orientation (t_CenterLine template) =? "horizontal" in
  let layoutConfig := initializeLayoutConfig template in
  let timelineData :=
    calculateTimelinePositionsAndStyles entries template layoutConfig in
  let c := boundsPoint 0 0 emptyCanvas in
  let axis := calculateAxis template entries timelineData in
  let c := drawCenterLine template layoutConfig timelineData axis entries c in
  drawEntries isHorizontal layoutConfig timelineData axis entries c.

(** [GenerateSVG]: the document or an error, and what was logged. *)
Definition GenerateSVG (template : Template) (entries : list TimelineEntry)
    : Result SVGDocument * list LogEvent :=
  if (List.length entries =? 0)%nat then
    (Err "no timeline entries to generate", [])
  else
    let c := drawTimeline template entries in
    (Ok (assembleFinalSVG c (layoutPadding (initializeLayoutConfig template))
           (t_GlobalFont template)),
     logged c).

End Layout.

(** ** Program entry point *)

(** The fatal errors of [main] after the inputs are read and decoded, one
    constructor per [log.Fatalf] site. *)
Inductive FatalError :=
| UnsupportedFormat (exportFormat : string)
| InvalidOrientation
| NoEntries
| OutputFileError (outputFile message : string)
| GenerationFailed (exportFormat message : string).

(** What a successful run writes. *)
Inductive Output :=
| OutSVG (document : SVGDocument)
| OutHTML (text : string)
| OutImage.

Inductive RunResult :=
| Fatal (error : FatalError)
| Done (output : Output).

Definition supportedFormats (exportFormat : string) : bool :=
  (exportFormat =? "html") || (exportFormat =? "svg")
  || (exportFormat =? "png") || (exportFormat =? "jpg")
  || (exportFormat =? "jpeg").

(** The input validation block of [main]. *)
Definition validateInputs (template : Template) (timelineData : TimelineData)
    (exportFormat : string) : option FatalError :=
  if negb (supportedFormats exportFormat) then
    Some (UnsupportedFormat exportFormat)
  else if negb (cl_Orientation (t_CenterLine template) =? "horizontal")
          && negb (cl_Orientation (t_CenterLine template) =? "vertical") then
    Some InvalidOrientation
  else if (List.length (td_Entries timelineData) =? 0)%nat then
    Some NoEntries
  else None.

Section Main.

(** The generators [main] dispatches to.  [GenerateSVG] is the function
    above; the HTML renderer and the rasteriser are taken as given.  The
    rasteriser writes to the output itself; it is told the output file. *)
Variable generateSVG : Template -> list TimelineEntry -> Result SVGDocument.
Variable generateHTML : Template -> list TimelineEntry -> Result string.
Variable generateImage :
  Template -> list TimelineEntry -> string -> string -> option string.

(** The output: [os.Create] of the output file and [io.WriteString] to the
    output writer (the file, or standard output for the empty path), each
    with the error it returns, if any. *)
Variable createFile : string -> option string.
Variable writeString : string -> Output -> option string.

(** [main] from the decoded template and data on: validation, the output
    writer, then generation in the requested format to that writer.
    [outputFile] is the value of the flag [-o]. *)
Definition main (outputFile : string) (template : Template)
    (timelineData : TimelineData) (exportFormat : string) : RunResult :=
  match validateInputs template timelineData exportFormat with
  | Some err => Fatal err
  | None =>
      let created :=
        if negb (outputFile =? "") then createFile outputFile else None in
      match created with
      | Some err => Fatal (OutputFileError outputFile err)
      | None =>
          let entries := td_Entries timelineData in
          let written (output : Output) : RunResult :=
            match writeString outputFile output with
            | None => Done output
            | Some err => Fatal (GenerationFailed exportFormat err)
            end in
          if exportFormat =? "svg" then
            match generateSVG template entries with
            | Ok doc => written (OutSVG doc)
            | Err msg => Fatal (GenerationFailed exportFormat msg)
            end
          else if exportFormat =? "html" then
            match generateHTML template entries with
            | Ok text => written (OutHTML text)
            | Err msg => Fatal (GenerationFailed exportFormat msg)
            end
          else
            match generateImage template entries exportFormat outputFile with
            | None => Done OutImage
            | Some msg => Fatal (GenerationFailed exportFormat msg)
            end
      end
  end.

End Main.

(** ** A decimal instance of the number parser

    Plain decimal literals (optional sign, digits, optional fraction), the
    part of the grammar of [strconv.ParseFloat] that style strings use. *)

Definition digitValue (c : ascii) : option Z :=
  let n := nat_of_ascii c in
  if ((48 <=? n)%nat && (n <=? 57)%nat) then Some (Z.of_nat (n - 48)) else None.

(** Leading digits of [s]: their value on top of [acc], how many there are,
    and the rest of the string. *)
Fixpoint readDigits (s : string) (acc : Z) (count : nat) : Z * nat * string :=
  match s with
  | EmptyString => (acc, count, EmptyString)
  | String c r =>
      match digitValue c with
      | Some d => readDigits r (acc * 10 + d)%Z (S count)
      | None => (acc, count, s)
      end
  end.

Definition parseUnsignedDecimal (s : string) : option (Z * Z) :=
  let '(ip, n1, rest) := readDigits s 0%Z O in
  match rest with
  | EmptyString => if (n1 =? 0)%nat then None else Some (ip, 1%Z)
  | String c r =>
      if Ascii.eqb c "." then
        let '(num, n2, rest2) := readDigits r ip O in
        match rest2 with
        | EmptyString =>
            if (n1 + n2 =? 0)%nat then None else Some (num, (10 ^ Z.of_nat n2)%Z)
        | _ => None
        end
      else None
  end.

(** Numerator and denominator of a decimal literal. *)
Definition parseDecimalQ (s : string) : option (Z * Z) :=
  match s with
  | String c r =>
      if Ascii.eqb c "-" then
        match parseUnsignedDecimal r with
        | Some (n, d) => Some ((- n)%Z, d)
        | None => None
        end
      else if Ascii.eqb c "+" then parseUnsignedDecimal r
      else parseUnsignedDecimal s
  | EmptyString => None
  end.

Definition parseDecimal (s : string) : option R :=
  match parseDecimalQ s with
  | Some (n, 1%Z) => Some (IZR n)
  | Some (n, d) => Some (IZR n / IZR d)
  | None => None
  end.

(** ** Specification-side definitions

    The notions the properties are stated with, written from the
    specification's words. *)

(** [b'] covers [b]: no side has moved inward. *)
Definition covers (b b' : bounds) : Prop :=
  minX b' <= minX b /\ minY b' <= minY b
  /\ maxX b <= maxX b' /\ maxY b <= maxY b'.

(** The angle the specification gives a segment: the entry-level override,
    else the global fixed angle, else the angle implied by the orientation. *)
Definition effectiveAngle (orientation : string)
    (globalAngle overrideAngle : option R) : R :=
  match overrideAngle with
  | Some a => a
  | None =>
      match globalAngle with
      | Some g => g
      | None => if orientation =? "horizontal" then 0 else 90
      end
  end.

(** Length of the segment that leads to entry [i]. *)
Definition segmentLength (junctions : list R) (i : nat) : R :=
  match i with
  | O => nth 0 junctions 0
  | S k => nth (S k) junctions 0 - nth k junctions 0
  end.

(** Sum of a list of spacings. *)
Definition sumR (l : list R) : R := fold_right Rplus 0 l.

(** The effective spacings of the entries, in order. *)
Definition spacings (config : LayoutConfig) (entries : list TimelineEntry)
    : list R :=
  map (entrySpacing config) entries.

(** *** The style cascade

    [flag] is the cascade of a boolean field as the specification words
    it.  The records that follow say, field by field, which value the
    resolvers end up with; where that is not the plain cascade (the two
    flags of the dot, the flag of the title rule) the doc comment says
    so. *)

Module Resolved.

(** The field [f] of an override object that may be absent. *)
Definition field {O A : Type} (override : option O) (f : O -> option A)
    : option A :=
  match override with
  | Some o => f o
  | None => None
  end.

(** First present value wins: the override when it sets the field, else
    the fallback. *)
Definition firstPresent {A : Type} (override : option A) (fallback : A) : A :=
  match override with
  | Some v => v
  | None => fallback
  end.

Definition orIfEmpty (s fallback : string) : string :=
  if s =? "" then fallback else s.

Definition orIfZero (n fallback : Z) : Z :=
  if (n =? 0)%Z then fallback else n.

(** A boolean flag resolved by the cascade as the specification words
    it, with [fallback] as hard-coded value: the override when set, else
    the template default when non-zero (true), else the fallback. *)
Definition flag (fallback : bool) (override : option bool)
    (templateDefault : bool) : bool :=
  match override with
  | Some v => v
  | None => if templateDefault then templateDefault else fallback
  end.

(** Font: override, else template default when non-empty/non-zero, else
    global font, else hard-coded value; an empty family ends as
    "sans-serif". *)
Definition font (global : option FontStyle) (defaults : FontStyle)
    (override : option FontStyleOverride) : FontStyle :=
  let fromGlobal {A} (empty : A -> A -> A) (get : FontStyle -> A) : A :=
    match global with
    | Some g => empty (get defaults) (get g)
    | None => get defaults
    end in
  {| f_FontFamily :=
       orIfEmpty
         (firstPresent (field override fo_FontFamily)
            (orIfEmpty (fromGlobal orIfEmpty f_FontFamily) defaultFont))
         "sans-serif";
     f_FontSize :=
       firstPresent (field override fo_FontSize)
         (orIfZero (fromGlobal orIfZero f_FontSize) 12);
     f_FontWeight :=
       firstPresent (field override fo_FontWeight)
         (orIfEmpty (fromGlobal orIfEmpty f_FontWeight) "normal");
     f_FontStyle :=
       firstPresent (field override fo_FontStyle)
         (orIfEmpty (fromGlobal orIfEmpty f_FontStyle) "normal") |}.

(** Title rule: plain cascade, except that without an explicit override
    of the flag an override object makes the rule visible when both
    resolved dimensions are positive or the template default is visible;
    without an override object the template default is kept. *)
Definition titleLine (defaults : TitleLineStyle)
    (override : option TitleLineStyleOverride) : TitleLineStyle :=
  let width := firstPresent (field override tlo_Width) (tl_Width defaults) in
  let length := firstPresent (field override tlo_Length) (tl_Length defaults) in
  {| tl_Visible :=
       match override with
       | None => tl_Visible defaults
       | Some o =>
           match tlo_Visible o with
           | Some v => v
           | None => (Rgtb width 0 && Rgtb length 0) || tl_Visible defaults
           end
       end;
     tl_Color := firstPresent (field override tlo_Color) (tl_Color defaults);
     tl_Width := width;
     tl_Length := length;
     tl_Margin := firstPresent (field override tlo_Margin) (tl_Margin defaults) |}.

(** Dot, as resolved by the code: plain cascade, except that the two flags
    come out true when a dot override object is present and leaves them
    unset, whatever the template says. *)
Definition dot (defaults : DotStyle) (override : option DotStyleOverride)
    : DotStyle :=
  {| dot_Size := firstPresent (field override doto_Size) (dot_Size defaults);
     dot_Color := firstPresent (field override doto_Color) (dot_Color defaults);
     dot_Shape := firstPresent (field override doto_Shape) (dot_Shape defaults);
     dot_Visible :=
       match override with
       | Some o => firstPresent (doto_Visible o) true
       | None => dot_Visible defaults
       end;
     dot_OffsetMain :=
       firstPresent (field override doto_OffsetMain) (dot_OffsetMain defaults);
     dot_OffsetCross :=
       firstPresent (field override doto_OffsetCross) (dot_OffsetCross defaults);
     dot_StopAtDot :=
       match override with
       | Some o => firstPresent (doto_StopAtDot o) true
       | None => dot_StopAtDot defaults
       end |}.

(** A three-way flag of the connector: an override object fixes it to the
    override, else the template value, else true. *)
Definition threeWay (override : option ConnectorStyleOverride)
    (f : ConnectorStyleOverride -> option bool) (templateDefault : option bool)
    : option bool :=
  match override with
  | Some o => Some (firstPresent (f o) (firstPresent templateDefault true))
  | None => templateDefault
  end.

Definition connector (defaults : ConnectorStyle)
    (override : option ConnectorStyleOverride) : ConnectorStyle :=
  {| cs_DrawToPeriod :=
       threeWay override cso_DrawToPeriod (cs_DrawToPeriod defaults);
     cs_DrawToComment :=
       threeWay override cso_DrawToComment (cs_DrawToComment defaults);
     cs_Width := firstPresent (field override cso_Width) (cs_Width defaults);
     cs_Color := firstPresent (field override cso_Color) (cs_Color defaults);
     cs_LineType :=
       firstPresent (field override cso_LineType) (cs_LineType defaults);
     cs_Side := cs_Side defaults;
     cs_Dot := dot (cs_Dot defaults) (field override cso_Dot) |}.

Definition yearText (global : option FontStyle) (defaults : YearTextStyle)
    (override : option YearTextStyleOverride) : YearTextStyle :=
  {| yt_Position :=
       firstPresent (field override yto_Position) (yt_Position defaults);
     yt_MainAxisOffset :=
       firstPresent (field override yto_MainAxisOffset)
         (yt_MainAxisOffset defaults);
     yt_CrossAxisOffset :=
       firstPresent (field override yto_CrossAxisOffset)
         (yt_CrossAxisOffset defaults);
     yt_TextColor :=
       firstPresent (field override yto_TextColor) (yt_TextColor defaults);
     yt_Font := font global (yt_Font defaults) (field override yto_Font);
     yt_Shape := firstPresent (field override yto_Shape) (yt_Shape defaults);
     yt_FillColor :=
       firstPresent (field override yto_FillColor) (yt_FillColor defaults);
     yt_BorderColor :=
       firstPresent (field override yto_BorderColor) (yt_BorderColor defaults);
     yt_BorderWidth :=
       firstPresent (field override yto_BorderWidth) (yt_BorderWidth defaults) |}.

Definition commentText (global : option FontStyle)
    (defaults : CommentTextStyle) (override : option CommentTextStyleOverride)
    : CommentTextStyle :=
  {| ct_Position :=
       firstPresent (field override cto_Position) (ct_Position defaults);
     ct_MainAxisOffset :=
       firstPresent (field override cto_MainAxisOffset)
         (ct_MainAxisOffset defaults);
     ct_CrossAxisOffset :=
       firstPresent (field override cto_CrossAxisOffset)
         (ct_CrossAxisOffset defaults);
     ct_Font := font global (ct_Font defaults) (field override cto_Font);
     ct_TitleFont :=
       font global (ct_TitleFont defaults) (field override cto_TitleFont);
     ct_TitleLine :=
       titleLine (ct_TitleLine defaults) (field override cto_TitleLine);
     ct_TitleColor :=
       firstPresent (field override cto_TitleColor) (ct_TitleColor defaults);
     ct_Shape := firstPresent (field override cto_Shape) (ct_Shape defaults);
     ct_FillColor :=
       firstPresent (field override cto_FillColor) (ct_FillColor defaults);
     ct_TextColor :=
       firstPresent (field override cto_TextColor) (ct_TextColor defaults);
     ct_Padding :=
       firstPresent (field override cto_Padding) (ct_Padding defaults);
     ct_BlockWidth :=
       match field override cto_BlockWidth with
       | Some w => Some w
       | None => ct_BlockWidth defaults
       end;
     ct_BorderColor :=
       firstPresent (field override cto_BorderColor) (ct_BorderColor defaults);
     ct_BorderWidth :=
       firstPresent (field override cto_BorderWidth) (ct_BorderWidth defaults);
     ct_BorderStyle :=
       firstPresent (field override cto_BorderStyle) (ct_BorderStyle defaults);
     ct_TextAlign :=
       firstPresent (field override cto_TextAlign) (ct_TextAlign defaults) |}.

Definition junctionMarker (defaults : JunctionMarkerStyle)
    (override : option JunctionMarkerOverride) : JunctionMarkerStyle :=
  {| jm_Shape := firstPresent (field override jmo_Shape) (jm_Shape defaults);
     jm_Size := firstPresent (field override jmo_Size) (jm_Size defaults);
     jm_Color :=
       match field override jmo_Color with
       | Some c => Some c
       | None => jm_Color defaults
       end |}.

(** Segment colour: the projection override when non-empty, else the
    template's projection colour, else the colour of the centre line. *)
Definition segmentColor (config : LayoutConfig)
    (defaults : CenterlineProjectionStyle)
    (override : option CenterlineProjectionStyle) : string :=
  orIfEmpty
    (match override with
     | Some o => orIfEmpty (cp_Color o) (cp_Color defaults)
     | None => cp_Color defaults
     end)
    (centerLineBaseColor config).

End Resolved.

(** The claim that the two flags of the connector dot follow the cascade
    for some hard-coded fallback, whatever override an entry carries. *)
Definition dotFlagsFollowCascade (fallback : bool) : Prop :=
  forall (defaults : ConnectorStyle) (override : option ConnectorStyleOverride),
    let dotOverride := Resolved.field override cso_Dot in
    let effective := cs_Dot (getEffectiveConnectorStyle defaults override) in
    dot_Visible effective
    = Resolved.flag fallback (Resolved.field dotOverride doto_Visible)
        (dot_Visible (cs_Dot defaults))
    /\ dot_StopAtDot effective
       = Resolved.flag fallback (Resolved.field dotOverride doto_StopAtDot)
           (dot_StopAtDot (cs_Dot defaults)).

(** ** Sample inputs *)

(** Override objects that set nothing, as decoded from [{}]. *)
Definition emptyDotOverride : DotStyleOverride :=
  {| doto_Size := None; doto_Color := None; doto_Shape := None;
     doto_Visible := None; doto_OffsetMain := None; doto_OffsetCross := None;
     doto_StopAtDot := None |}.

Definition emptyConnectorOverride : ConnectorStyleOverride :=
  {| cso_Color := None; cso_LineType := None; cso_Width := None;
     cso_DrawToPeriod := None; cso_DrawToComment := None; cso_Dot := None |}.

Definition emptyTitleLineOverride : TitleLineStyleOverride :=
  {| tlo_Visible := None; tlo_Color := None; tlo_Width := None;
     tlo_Length := None; tlo_Margin := None |}.

(** A connector override that carries only an empty dot object:
    [{"dot": {}}]. *)
Definition emptyDotConnectorOverride : ConnectorStyleOverride :=
  {| cso_Color := None; cso_LineType := None; cso_Width := None;
     cso_DrawToPeriod := None; cso_DrawToComment := None;
     cso_Dot := Some emptyDotOverride |}.

(** A template connector whose dot is switched off:
    [{"dot": {"visible": false, "stop_at_dot": false}}]. *)
Definition hiddenDotConnector : ConnectorStyle :=
  {| cs_DrawToPeriod := None; cs_DrawToComment := None; cs_Width := 1;
     cs_Color := "#888888"; cs_LineType := "solid"; cs_Side := "";
     cs_Dot := {| dot_Size := 8; dot_Color := ""; dot_Shape := "circle";
                  dot_Visible := false; dot_OffsetMain := 0;
                  dot_OffsetCross := 0; dot_StopAtDot := false |} |}.

(** A template title rule that is visible but has no extent:
    [{"visible": true}]. *)
Definition flatTitleLine : TitleLineStyle :=
  {| tl_Visible := true; tl_Color := ""; tl_Width := 0; tl_Length := 0;
     tl_Margin := 0 |}.

(** A horizontal template with entry_spacing = 100 and otherwise zero
    values. *)
Definition sampleTemplate : Template :=
  {| t_CenterLine :=
       {| cl_Width := 2; cl_Type := "solid"; cl_Orientation := "horizontal";
          cl_Angle := None; cl_Color := "#000000"; cl_RoundedCaps := false |};
     t_Layout :=
       {| lo_Padding := 50; lo_EntrySpacing := 100; lo_ConnectorLength := 50 |};
     t_GlobalFont := None;
     t_PeriodDefaults :=
       {| ps_YearText := zeroYearTextStyle;
          ps_Connector := zeroConnectorStyle;
          ps_CommentText := zeroCommentTextStyle;
          ps_CenterlineProjection := {| cp_Color := "" |};
          ps_JunctionMarker := zeroJunctionMarkerStyle |} |}.

(** An entry with a period label and nothing else. *)
Definition plainEntry (period : string) : TimelineEntry :=
  {| e_Period := period; e_TitleText := ""; e_CommentText := "";
     e_CommentImage := ""; e_Link := ""; e_EntrySpacingOverride := None;
     e_OrientationOverride := None; e_AngleOverride := None;
     e_ConnectorOverride := None; e_CommentTextOverride := None;
     e_YearTextOverride := None; e_CenterlineProjectionOverride := None;
     e_JunctionMarkerOverride := None |}.

(** The sample template with the connector dot switched off. *)
Definition hiddenDotTemplate : Template :=
  {| t_CenterLine := t_CenterLine sampleTemplate;
     t_Layout := t_Layout sampleTemplate;
     t_GlobalFont := None;
     t_PeriodDefaults :=
       {| ps_YearText := zeroYearTextStyle;
          ps_Connector := hiddenDotConnector;
          ps_CommentText := zeroCommentTextStyle;
          ps_CenterlineProjection := {| cp_Color := "" |};
          ps_JunctionMarker := zeroJunctionMarkerStyle |} |}.

(** An entry with its connector override replaced. *)
Definition withConnectorOverride (override : ConnectorStyleOverride)
    (entry : TimelineEntry) : TimelineEntry :=
  {| e_Period := e_Period entry; e_TitleText := e_TitleText entry;
     e_CommentText := e_CommentText entry;
     e_CommentImage := e_CommentImage entry; e_Link := e_Link entry;
     e_EntrySpacingOverride := e_EntrySpacingOverride entry;
     e_OrientationOverride := e_OrientationOverride entry;
     e_AngleOverride := e_AngleOverride entry;
     e_ConnectorOverride := Some override;
     e_CommentTextOverride := e_CommentTextOverride entry;
     e_YearTextOverride := e_YearTextOverride entry;
     e_CenterlineProjectionOverride := e_CenterlineProjectionOverride entry;
     e_JunctionMarkerOverride := e_JunctionMarkerOverride entry |}.

Definition sampleEntries : list TimelineEntry :=
  [plainEntry "2001"; plainEntry "2002"; plainEntry "2003"].

(** A visible connector that stops at its dot, on a horizontal layout:
    element anchor (50, -50), axis anchor and dot at (50, 0), no offsets. *)
Definition sampleConnectorSegments : ConnectorLineSegmentsParams :=
  {| seg_ConnParams :=
       {| conn_X1 := 50; conn_Y1 := -50; conn_X2 := 50; conn_Y2 := 0;
          conn_Style :=
            {| cs_DrawToPeriod := None; cs_DrawToComment := None;
               cs_Width := 1; cs_Color := "#888888"; cs_LineType := "solid";
               cs_Side := "";
               cs_Dot := {| dot_Size := 8; dot_Color := "";
                            dot_Shape := "circle"; dot_Visible := true;
                            dot_OffsetMain := 0; dot_OffsetCross := 0;
                            dot_StopAtDot := true |} |};
          conn_SegmentColor := "#000000"; conn_IsHorizontal := true;
          conn_CrossAxisDir := -1; conn_LineIsVisible := true;
          conn_ElementCrossOffset := 0 |};
     seg_DotX := 50; seg_DotY := 0;
     seg_Ux := 0; seg_Uy := -1; seg_Nx := 1; seg_Ny := 0;
     seg_DrawWidth := 1; seg_DrawColor := "#888888"; seg_DashArray := None |}.

(** A year style with its shape string replaced. *)
Definition withShape (shape : string) (style : YearTextStyle) : YearTextStyle :=
  {| yt_Position := yt_Position style;
     yt_MainAxisOffset := yt_MainAxisOffset style;
     yt_CrossAxisOffset := yt_CrossAxisOffset style;
     yt_TextColor := yt_TextColor style;
     yt_Font := yt_Font style;
     yt_Shape := shape;
     yt_FillColor := yt_FillColor style;
     yt_BorderColor := yt_BorderColor style;
     yt_BorderWidth := yt_BorderWidth style |}.

(** An entry with its title, comment body and comment image replaced. *)
Definition withComment (title body image : string) (entry : TimelineEntry)
    : TimelineEntry :=
  {| e_Period := e_Period entry; e_TitleText := title; e_CommentText := body;
     e_CommentImage := image; e_Link := e_Link entry;
     e_EntrySpacingOverride := e_EntrySpacingOverride entry;
     e_OrientationOverride := e_OrientationOverride entry;
     e_AngleOverride := e_AngleOverride entry;
     e_ConnectorOverride := e_ConnectorOverride entry;
     e_CommentTextOverride := e_CommentTextOverride entry;
     e_YearTextOverride := e_YearTextOverride entry;
     e_CenterlineProjectionOverride := e_CenterlineProjectionOverride entry;
     e_JunctionMarkerOverride := e_JunctionMarkerOverride entry |}.

(** The parameters of [drawTimelineEntry] with another entry. *)
Definition withEntry (entry : TimelineEntry) (params : TimelineEntryParams)
    : TimelineEntryParams :=
  {| tep_Index := tep_Index params; tep_Entry := entry;
     tep_Data := tep_Data params; tep_EntryAxisX := tep_EntryAxisX params;
     tep_EntryAxisY := tep_EntryAxisY params;
     tep_IsHorizontal := tep_IsHorizontal params;
     tep_Config := tep_Config params |}.

(** Classification of the primitives by the element they belong to. *)
Definition isMarker (p : Primitive) : bool :=
  match p with
  | MarkerPolygon _ _ _ _ _ _ _ | MarkerCircle _ _ _ _ => true
  | _ => false
  end.

Definition isConnectorLine (p : Primitive) : bool :=
  match p with
  | ConnectorLine _ _ _ _ _ _ _ => true
  | _ => false
  end.

Definition isDot (p : Primitive) : bool :=
  match p with
  | DotCircle _ _ _ _ | DotSquare _ _ _ _ _ | DotArrow _ _ _ _ _ _ _ => true
  | _ => false
  end.

Definition isYearElement (p : Primitive) : bool :=
  match p with
  | LinkOpen _ | LinkClose | YearCircle _ _ _ _ _ _
  | YearRect _ _ _ _ _ _ _ | YearText _ _ _ _ _ => true
  | _ => false
  end.

Definition isCommentBlock (p : Primitive) : bool :=
  match p with
  | CommentBackground _ _ _ _ _ _ _ _ | CommentTitle _ _ _ _ _
  | CommentTitleLine _ _ _ _ _ _ | CommentBody _ _ _ _ _ _ _ _ _ => true
  | _ => false
  end.

(** The parameters with which [GenerateSVG] draws the first sample entry. *)
Definition sampleEntryParams : TimelineEntryParams :=
  {| tep_Index := 0;
     tep_Entry := plainEntry "2001";
     tep_Data :=
       calculateTimelinePositionsAndStyles sampleEntries sampleTemplate
         (initializeLayoutConfig sampleTemplate);
     tep_EntryAxisX := 0;
     tep_EntryAxisY := 0;
     tep_IsHorizontal := true;
     tep_Config := initializeLayoutConfig sampleTemplate |}.

(** [f] only appends the primitives [out] to the SVG buffer, whatever the
    canvas it starts from. *)
Definition appends (f : Canvas -> Canvas) (out : list Primitive) : Prop :=
  forall c, svg (f c) = (svg c ++ out)%list.

(** ** Further notions used by the properties *)

(** The point (x, y) lies within the bounds. *)
Definition inside (b : bounds) (x y : R) : Prop :=
  minX b <= x <= maxX b /\ minY b <= y <= maxY b.

(** The bounds [b'] are set and cover [b]. *)
Definition reaches (b b' : bounds) : Prop :=
  isSet b' = true /\ covers b b'.

(** The points a bounds update is meant to record: the point itself, or
    the two corners of a rectangle with positive width and height. *)
Definition recordedPoints (u : BoundsUpdate) : list (R * R) :=
  match u with
  | UpdPoint x y => [(x, y)]
  | UpdRect x y w h =>
      if Rgtb w 0 && Rgtb h 0 then [(x, y); (x + w, y + h)] else []
  end.

(** A drawing step that only ever widens bounds that are set. *)
Definition widens (f : Canvas -> Canvas) : Prop :=
  forall b c, reaches b (timelineBounds c) -> reaches b (timelineBounds (f c)).

(** The end points of the straight lines among the primitives. *)
Definition lineEnds (p : Primitive) : list (R * R) :=
  match p with
  | AxisLine x1 y1 x2 y2 _ _ _ _ => [(x1, y1); (x2, y2)]
  | ConnectorLine x1 y1 x2 y2 _ _ _ => [(x1, y1); (x2, y2)]
  | CommentTitleLine x1 y1 x2 y2 _ _ => [(x1, y1); (x2, y2)]
  | _ => []
  end.

(** The bounds of the canvas are set and hold both ends of every straight
    line drawn so far. *)
Definition linesInside (c : Canvas) : Prop :=
  isSet (timelineBounds c) = true
  /\ forall p x y, p ∈ svg c -> (x, y) ∈ lineEnds p ->
       inside (timelineBounds c) x y.

Definition isAxisLine (p : Primitive) : bool :=
  match p with
  | AxisLine _ _ _ _ _ _ _ _ => true
  | _ => false
  end.

(** A connector on a horizontal layout from the label at (50, -50) to the
    axis at (50, 0), with the given line visibility and dot offsets. *)
Definition sampleConnector (visible stop : bool) (offsetMain offsetCross : Z)
    : ConnectorParams :=
  {| conn_X1 := 50; conn_Y1 := -50; conn_X2 := 50; conn_Y2 := 0;
     conn_Style :=
       {| cs_DrawToPeriod := None; cs_DrawToComment := None;
          cs_Width := 1; cs_Color := "#888888"; cs_LineType := "solid";
          cs_Side := "";
          cs_Dot := {| dot_Size := 8; dot_Color := ""; dot_Shape := "circle";
                       dot_Visible := true; dot_OffsetMain := offsetMain;
                       dot_OffsetCross := offsetCross;
                       dot_StopAtDot := stop |} |};
     conn_SegmentColor := "#000000"; conn_IsHorizontal := true;
     conn_CrossAxisDir := -1; conn_LineIsVisible := visible;
     conn_ElementCrossOffset := 0 |}.

(** The background shapes of a year element. *)
Definition isYearShape (p : Primitive) : bool :=
  match p with
  | YearCircle _ _ _ _ _ _ | YearRect _ _ _ _ _ _ _ => true
  | _ => false
  end.

(** A string of white space only. *)
Fixpoint onlySpaces (s : string) : bool :=
  match s with
  | EmptyString => true
  | String c r => strings.isSpace c && onlySpaces r
  end.

(** The four parts of a comment block. *)
Definition isCommentBackground (p : Primitive) : bool :=
  match p with CommentBackground _ _ _ _ _ _ _ _ => true | _ => false end.

Definition isCommentTitle (p : Primitive) : bool :=
  match p with CommentTitle _ _ _ _ _ => true | _ => false end.

Definition isCommentTitleLine (p : Primitive) : bool :=
  match p with CommentTitleLine _ _ _ _ _ _ => true | _ => false end.

Definition isCommentBody (p : Primitive) : bool :=
  match p with CommentBody _ _ _ _ _ _ _ _ _ => true | _ => false end.

(** At most one primitive, of the given kind. *)
Definition optionalPart (kind : Primitive -> bool) (part : list Primitive)
    : Prop :=
  (length part <= 1)%nat /\ Forall (fun p => kind p = true) part.

(** A comment block above a horizontal axis, anchored at (50, -50): 120
    wide with a padding of 10, a visible title rule, and a body text. *)
Definition sampleComment (title : string) : CommentParams :=
  {| cmt_Style :=
       {| ct_Position := ""; ct_MainAxisOffset := 0; ct_CrossAxisOffset := 0;
          ct_Font := zeroFontStyle; ct_TitleFont := zeroFontStyle;
          ct_TitleLine :=
            {| tl_Visible := true; tl_Color := "#888888"; tl_Width := 2;
               tl_Length := 40; tl_Margin := 4 |};
          ct_TitleColor := ""; ct_Shape := "rectangle"; ct_FillColor := "";
          ct_TextColor := ""; ct_Padding := "10"; ct_BlockWidth := Some 120;
          ct_BorderColor := ""; ct_BorderWidth := 1; ct_BorderStyle := "";
          ct_TextAlign := "" |};
     cmt_AnchorX := 50; cmt_AnchorY := -50; cmt_CrossAxisDir := -1;
     cmt_IsHorizontal := true; cmt_SegmentWidth := 100;
     cmt_DefaultColor := "#888888"; cmt_TitleText := title;
     cmt_BodyText := "Body"; cmt_ImageURL := "" |}.

(** An arrow dot of size 8 at the axis of a horizontal layout, for an
    element above the axis. *)
Definition sampleArrowDot : ConnectorDotParams :=
  {| cdp_DotStyle :=
       {| dot_Size := 8; dot_Color := ""; dot_Shape := "arrow";
          dot_Visible := true; dot_OffsetMain := 0; dot_OffsetCross := 0;
          dot_StopAtDot := true |};
     cdp_P1x := 50; cdp_P1y := -50; cdp_P2x := 50; cdp_P2y := 0;
     cdp_DefaultColor := "#888888"; cdp_IsHorizontal := true;
     cdp_CrossAxisDir := -1; cdp_LineIsVisible := true |}.

(** The parameters of an entry with a comment whose connectors are both
    switched off, the dot being a visible circle of size 8. *)
Definition sampleHiddenConnectors : TimelineEntryParams :=
  {| tep_Index := 0;
     tep_Entry := withComment "Title" "Body" "" (plainEntry "2001");
     tep_Data :=
       {| entryPoints := [50]; junctionPoints := [0; 100];
          segmentColors := ["#000000"];
          markerStyles := [zeroJunctionMarkerStyle];
          connectorStyles :=
            [{| cs_DrawToPeriod := Some false; cs_DrawToComment := Some false;
                cs_Width := 1; cs_Color := "#888888"; cs_LineType := "solid";
                cs_Side := "";
                cs_Dot :=
                  {| dot_Size := 8; dot_Color := ""; dot_Shape := "circle";
                     dot_Visible := true; dot_OffsetMain := 0;
                     dot_OffsetCross := 0; dot_StopAtDot := true |} |}];
          yearStyles := [zeroYearTextStyle];
          commentStyles := [zeroCommentTextStyle] |};
     tep_EntryAxisX := 0; tep_EntryAxisY := 0; tep_IsHorizontal := true;
     tep_Config := initializeLayoutConfig sampleTemplate |}.

(** A file system without readable image files. *)
Definition noImages (path : string) : option string := None.

(** An output that can always be created and written. *)
Definition createsAnyFile (path : string) : option string := None.

Definition writesAnything (path : string) (output : Output) : option string :=
  None.

(** * Properties *)

(** ** Comparisons and conversions *)

Lemma Rltb_true x y : Rltb x y = true <-> x < y.
Proof. unfold Rltb. destruct (Rlt_dec x y); split; intros; try done. Qed.

Lemma Rltb_false x y : Rltb x y = false <-> y <= x.
Proof.
  unfold Rltb. destruct (Rlt_dec x y); split; intros; try done; lra.
Qed.

Lemma Rleb_true x y : Rleb x y = true <-> x <= y.
Proof. unfold Rleb. destruct (Rle_dec x y); split; intros; try done. Qed.

Lemma Rleb_false x y : Rleb x y = false <-> y < x.
Proof.
  unfold Rleb. destruct (Rle_dec x y); split; intros; try done; lra.
Qed.

Lemma Rgtb_true x y : Rgtb x y = true <-> y < x.
Proof. apply Rltb_true. Qed.

Lemma Rgtb_false x y : Rgtb x y = false <-> x <= y.
Proof. apply Rltb_false. Qed.

Lemma Rgeb_true x y : Rgeb x y = true <-> y <= x.
Proof. apply Rleb_true. Qed.

Lemma Rgeb_false x y : Rgeb x y = false <-> x < y.
Proof. apply Rleb_false. Qed.

Lemma Reqb_true x y : Reqb x y = true <-> x = y.
Proof. unfold Reqb. destruct (Req_dec_T x y); split; intros; try done. Qed.

(** Converting an [int] to [float64] and back gives the same [int]. *)
Lemma Int_part_IZR (n : Z) : Int_part (IZR n) = n.
Proof. symmetry. apply Int_part_spec. lra. Qed.

Lemma int_float64 (n : Z) : int (float64 n) = n.
Proof.
  unfold int, float64.
  destruct (Rle_dec 0 (IZR n)) as [_ | _].
  - apply Int_part_IZR.
  - rewrite <- opp_IZR, Int_part_IZR. lia.
Qed.

Lemma int_defaultFontSize : int defaultFontSize = 12%Z.
Proof. apply (int_float64 12). Qed.

(** Case analysis on every comparison between reals that the goal tests. *)
Ltac rdecide :=
  unfold Rgtb, Rgeb, Rltb, Rleb, Reqb in *;
  repeat match goal with
         | |- context [Rlt_dec ?x ?y] => destruct (Rlt_dec x y)
         | |- context [Rle_dec ?x ?y] => destruct (Rle_dec x y)
         | |- context [Req_dec_T ?x ?y] => destruct (Req_dec_T x y)
         end.

(** ** The body region of a comment *)

(** What [drawCommentBody] does to a canvas: one body primitive, one
    rectangle for the bounds, and the log events of the image, none of
    which depends on the canvas. *)
Lemma drawCommentBody_spec ReadImage params :
  let layout := cbp_Layout params in
  let style := cmt_Style (cbp_Params params) in
  exists imgSrc events,
    forall c,
      drawCommentBody ReadImage params c
      = {| svg :=
             svg c
               ++ [CommentBody (bodyAbsX layout) (bodyAbsY layout)
                     (contentWidth layout) (foHeight layout)
                     (cbp_TextColor params) (cbp_BodyFont params)
                     (if ct_TextAlign style =? "" then "center"
                      else ct_TextAlign style)
                     imgSrc (cmt_BodyText (cbp_Params params))];
           timelineBounds :=
             updateRect (timelineBounds c) (bodyAbsX layout) (bodyAbsY layout)
               (contentWidth layout) (foHeight layout);
           logged := (logged c ++ events)%list |}.
Proof.
  intros layout style. unfold drawCommentBody. fold layout style.
  destruct (negb (cmt_ImageURL (cbp_Params params) =? ""));
    [destruct (isLocalImage _);
     [destruct (ReadImage _) as [dataURI |] |] |].
  - exists dataURI, [LogImageAttempt (cmt_ImageURL (cbp_Params params));
                     LogImageEmbedded (cmt_ImageURL (cbp_Params params))].
    intros c. unfold emit, logPrintf, boundsRect.
    cbn [svg timelineBounds logged]. by rewrite <- app_assoc.
  - exists "", [LogImageAttempt (cmt_ImageURL (cbp_Params params));
                WarnImageRead (cmt_ImageURL (cbp_Params params))].
    intros c. unfold emit, logPrintf, boundsRect.
    cbn [svg timelineBounds logged]. by rewrite <- app_assoc.
  - exists (cmt_ImageURL (cbp_Params params)), [].
    intros c. unfold emit, boundsRect.
    cbn [svg timelineBounds logged]. by rewrite app_nil_r.
  - exists "", []. intros c. unfold emit, boundsRect.
    cbn [svg timelineBounds logged]. by rewrite app_nil_r.
Qed.

(** ** Bounds *)

Lemma covers_refl b : covers b b.
Proof. unfold covers. lra. Qed.

Lemma covers_trans b1 b2 b3 : covers b1 b2 -> covers b2 b3 -> covers b1 b3.
Proof. unfold covers. lra. Qed.

Lemma updatePoint_isSet b x y : isSet (updatePoint b x y) = true.
Proof. unfold updatePoint. destruct (isSet b) eqn:E; simpl; done. Qed.

Lemma updatePoint_covers b x y :
  isSet b = true -> covers b (updatePoint b x y).
Proof.
  intros Hset. unfold updatePoint, covers. rewrite Hset. simpl.
  pose proof (Rmin_l (minX b) x). pose proof (Rmin_l (minY b) y).
  pose proof (Rmax_l (maxX b) x). pose proof (Rmax_l (maxY b) y).
  lra.
Qed.

Lemma updateRect_isSet b x y w h :
  isSet b = true -> isSet (updateRect b x y w h) = true.
Proof.
  intros Hset. unfold updateRect.
  destruct (Rgtb w 0 && Rgtb h 0); [apply updatePoint_isSet | exact Hset].
Qed.

Lemma updateRect_covers b x y w h :
  isSet b = true -> covers b (updateRect b x y w h).
Proof.
  intros Hset. unfold updateRect.
  destruct (Rgtb w 0 && Rgtb h 0); [| apply covers_refl].
  eapply covers_trans; [apply updatePoint_covers, Hset |].
  apply updatePoint_covers, updatePoint_isSet.
Qed.

Lemma applyUpdate_isSet b u : isSet b = true -> isSet (applyUpdate b u) = true.
Proof.
  intros Hset. destruct u; simpl;
    [apply updatePoint_isSet | by apply updateRect_isSet].
Qed.

Lemma applyUpdate_covers b u : isSet b = true -> covers b (applyUpdate b u).
Proof.
  intros Hset. destruct u; simpl;
    [by apply updatePoint_covers | by apply updateRect_covers].
Qed.

Lemma updates_isSet us : forall b,
  isSet b = true -> isSet (fold_left applyUpdate us b) = true.
Proof.
  induction us as [| u us IH]; intros b Hset; simpl; [exact Hset |].
  apply IH, applyUpdate_isSet, Hset.
Qed.

Lemma updates_covers us : forall b,
  isSet b = true -> covers b (fold_left applyUpdate us b).
Proof.
  induction us as [| u us IH]; intros b Hset; simpl; [apply covers_refl |].
  eapply covers_trans; [apply applyUpdate_covers, Hset |].
  apply IH, applyUpdate_isSet, Hset.
Qed.

(** C7.  Along every sequence of point and rectangle updates applied to
    bounds that are set, the bounds stay set, and every further update
    leaves minX and minY no larger and maxX and maxY no smaller than they
    were before it; the same holds between the start and the end of the
    sequence. *)
Theorem bounds_never_shrink (b : bounds) (us : list BoundsUpdate)
    (u : BoundsUpdate) :
  isSet b = true ->
  let before := fold_left applyUpdate us b in
  let after := applyUpdate before u in
  isSet before = true /\ isSet after = true
  /\ minX after <= minX before /\ minY after <= minY before
  /\ maxX before <= maxX after /\ maxY before <= maxY after
  /\ covers b after.
Proof.
  intros Hset before after.
  assert (Hb : isSet before = true) by (apply updates_isSet, Hset).
  pose proof (applyUpdate_covers before u Hb) as (H1 & H2 & H3 & H4).
  split; [exact Hb |].
  split; [apply applyUpdate_isSet, Hb |].
  do 4 (split; [assumption |]).
  apply (covers_trans b before after).
  - apply updates_covers, Hset.
  - apply applyUpdate_covers, Hb.
Qed.

Lemma bounds_never_shrink_witness :
  let b := updatePoint emptyBounds 0 0 in
  let after := applyUpdate (fold_left applyUpdate [UpdPoint 3 (-2)] b)
                 (UpdRect (-1) 1 5 5) in
  isSet after = true /\ minX after <= minX b /\ maxX b <= maxX after.
Proof.
  intros b after.
  destruct (bounds_never_shrink b [UpdPoint 3 (-2)] (UpdRect (-1) 1 5 5))
    as (_ & H1 & _ & _ & _ & _ & H2 & _ & H3 & _).
  - reflexivity.
  - repeat split; assumption.
Defined.

(** ** Axis geometry *)

Lemma calculateAxisGeometry_eq x1 y1 length orientation ga oa :
  orientation = "horizontal" \/ orientation = "vertical" ->
  let theta := effectiveAngle orientation ga oa in
  calculateAxisGeometry x1 y1 length orientation ga oa
  = (x1, y1, x1 + length * cos (theta * PI / 180),
     y1 + length * sin (theta * PI / 180), theta).
Proof.
  intros [-> | ->]; unfold calculateAxisGeometry, effectiveAngle;
    destruct oa, ga; reflexivity.
Qed.

Lemma calculateAxisGeometry_start x1 y1 length o ga oa :
  exists ex ey theta,
    calculateAxisGeometry x1 y1 length o ga oa = (x1, y1, ex, ey, theta).
Proof. unfold calculateAxisGeometry. eauto. Qed.

#[local] Arguments calculateAxisGeometry : simpl never.

Lemma axisWalk_cons junctions o ga i cur e next rest :
  axisWalk junctions o ga i cur (e :: next :: rest)
  = let '(segStartX, segStartY, segEndX, segEndY, _) :=
      calculateAxisGeometry (X cur) (Y cur)
        (nth (i + 1) junctions 0 - nth i junctions 0) o ga
        (e_AngleOverride next) in
    let '(points, segments) :=
      axisWalk junctions o ga (S i) {| X := segEndX; Y := segEndY |}
        (next :: rest) in
    (cur :: points,
     ({| X := segStartX; Y := segStartY |},
      {| X := segEndX; Y := segEndY |}) :: segments).
Proof. reflexivity. Qed.

(** What the walk of phase 1 produces: one axis point per entry, one
    segment per entry after the first, each segment going from the axis
    point of an entry to the axis point of the next one. *)
Lemma axisWalk_spec junctions o ga (es : list TimelineEntry) :
  forall (i : nat) (cur : AxisPoint),
  let pts := fst (axisWalk junctions o ga i cur es) in
  let segs := snd (axisWalk junctions o ga i cur es) in
  length pts = length es
  /\ length segs = pred (length es)
  /\ (forall e, es !! 0%nat = Some e -> pts !! 0%nat = Some cur)
  /\ (forall (k : nat) (e' : TimelineEntry), es !! S k = Some e' ->
      exists (s t : AxisPoint) (theta : R),
        segs !! k = Some (s, t) /\ pts !! k = Some s /\ pts !! S k = Some t
        /\ calculateAxisGeometry (X s) (Y s)
             (nth (i + k + 1) junctions 0 - nth (i + k) junctions 0)
             o ga (e_AngleOverride e')
           = (X s, Y s, X t, Y t, theta)).
Proof.
  induction es as [| e rest IH]; intros i cur.
  - simpl. repeat split; intros; discriminate.
  - destruct rest as [| next rest'].
    + simpl. repeat split; intros; try discriminate; reflexivity.
    + rewrite axisWalk_cons. destruct cur as [cx cy]. cbn [X Y].
      remember (next :: rest') as rest eqn:Hrest.
      destruct (calculateAxisGeometry_start cx cy
                  (nth (i + 1) junctions 0 - nth i junctions 0) o ga
                  (e_AngleOverride next)) as (ex & ey & theta & Hgeo).
      rewrite Hgeo.
      specialize (IH (S i) {| X := ex; Y := ey |}).
      destruct (axisWalk junctions o ga (S i) {| X := ex; Y := ey |} rest)
        as [pts segs] eqn:Hwalk.
      cbn [fst snd] in IH |- *. destruct IH as (Hlp & Hls & Hp0 & Hsegs).
      split; [simpl; by rewrite Hlp |].
      split; [simpl; rewrite Hls, Hrest; reflexivity |].
      split; [reflexivity |].
      intros k e' Hk. destruct k as [| k]; simpl in Hk.
      * exists {| X := cx; Y := cy |}, {| X := ex; Y := ey |}, theta. simpl.
        split; [reflexivity |]. split; [reflexivity |].
        split; [apply (Hp0 e' Hk) |].
        replace (i + 0 + 1)%nat with (i + 1)%nat by lia.
        replace (i + 0)%nat with i by lia.
        rewrite Hrest in Hk. injection Hk as <-. exact Hgeo.
      * destruct (Hsegs k e' Hk) as (s & t & th & H1 & H2 & H3 & H4).
        exists s, t, th. simpl.
        replace (i + S k + 1)%nat with (S i + k + 1)%nat by lia.
        replace (i + S k)%nat with (S i + k)%nat by lia.
        repeat split; assumption.
Qed.

(** Every segment computed by phase 1 of [GenerateSVG]: segment [i] leads
    to entry [i], starts where the previous one ends, and is the result of
    [calculateAxisGeometry] for the angle override of entry [i]. *)
Lemma calculateAxis_segments template entries data (i : nat) entry :
  entries !! i = Some entry ->
  let axis := calculateAxis template entries data in
  exists (s t : AxisPoint) (theta : R),
    segmentStartPoints axis !! i = Some s
    /\ segmentEndPoints axis !! i = Some t
    /\ entryAxisPoints axis !! i = Some t
    /\ s = match i with
           | O => {| X := 0; Y := 0 |}
           | S k => default {| X := 0; Y := 0 |} (segmentEndPoints axis !! k)
           end
    /\ calculateAxisGeometry (X s) (Y s) (segmentLength (junctionPoints data) i)
         (cl_Orientation (t_CenterLine template))
         (cl_Angle (t_CenterLine template)) (e_AngleOverride entry)
       = (X s, Y s, X t, Y t, theta).
Proof.
  intros Hi axis. subst axis. unfold calculateAxis.
  destruct entries as [| e0 rest]; [discriminate |].
  set (J := junctionPoints data).
  set (o := cl_Orientation (t_CenterLine template)).
  set (ga := cl_Angle (t_CenterLine template)).
  destruct (calculateAxisGeometry_start 0 0 (nth 0 J 0) o ga (e_AngleOverride e0))
    as (ex & ey & theta0 & Hgeo).
  rewrite Hgeo.
  pose proof (axisWalk_spec J o ga (e0 :: rest) 0 {| X := ex; Y := ey |})
    as Hspec.
  destruct (axisWalk J o ga 0 {| X := ex; Y := ey |} (e0 :: rest))
    as [pts segs] eqn:Hwalk.
  cbn [fst snd] in Hspec. destruct Hspec as (_ & _ & Hp0 & Hsegs).
  cbn [segmentStartPoints segmentEndPoints entryAxisPoints].
  destruct i as [| k].
  - simpl in Hi. injection Hi as <-.
    exists {| X := 0; Y := 0 |}, {| X := ex; Y := ey |}, theta0.
    split; [reflexivity |]. split; [reflexivity |].
    split; [by apply (Hp0 e0) |]. split; [reflexivity |]. exact Hgeo.
  - destruct (Hsegs k entry Hi) as (s & t & theta & H1 & H2 & H3 & H4).
    exists s, t, theta.
    split; [simpl; rewrite list_lookup_fmap, H1; reflexivity |].
    split; [simpl; rewrite list_lookup_fmap, H1; reflexivity |].
    split; [exact H3 |].
    split.
    + destruct k as [| k'].
      * simpl. specialize (Hp0 e0 eq_refl). congruence.
      * assert (Hk' : exists e'', (e0 :: rest) !! S k' = Some e'').
        { apply lookup_lt_is_Some. apply lookup_lt_Some in Hi. lia. }
        destruct Hk' as (e'' & Hk').
        destruct (Hsegs k' e'' Hk') as (s' & t' & th' & G1 & G2 & G3 & G4).
        simpl. rewrite list_lookup_fmap, G1. simpl. congruence.
    + simpl in H4. replace (k + 1)%nat with (S k) in H4 by lia. exact H4.
Qed.

(** C4.  For every axis segment the angle used is the entry-level override
    when present, else the global fixed angle when present, else 0 degrees
    for horizontal and 90 degrees for vertical orientation, and the end
    point is the start point plus length times (cos, sin) of that angle in
    radians.  This holds of [calculateAxisGeometry] and of every segment of
    the axis that [GenerateSVG] computes, each starting where the previous
    one ends. *)
Theorem axis_segment_angle_and_endpoint (template : Template)
    (entries : list TimelineEntry) (data : TimelinePositionData) :
  let o := cl_Orientation (t_CenterLine template) in
  let ga := cl_Angle (t_CenterLine template) in
  o = "horizontal" \/ o = "vertical" ->
  (forall x1 y1 length oa,
     let theta := effectiveAngle o ga oa in
     calculateAxisGeometry x1 y1 length o ga oa
     = (x1, y1, x1 + length * cos (theta * PI / 180),
        y1 + length * sin (theta * PI / 180), theta))
  /\ (forall (i : nat) entry, entries !! i = Some entry ->
      let axis := calculateAxis template entries data in
      let theta := effectiveAngle o ga (e_AngleOverride entry) in
      let len := segmentLength (junctionPoints data) i in
      exists s t : AxisPoint,
        segmentStartPoints axis !! i = Some s
        /\ segmentEndPoints axis !! i = Some t
        /\ s = match i with
               | O => {| X := 0; Y := 0 |}
               | S k => default {| X := 0; Y := 0 |} (segmentEndPoints axis !! k)
               end
        /\ X t = X s + len * cos (theta * PI / 180)
        /\ Y t = Y s + len * sin (theta * PI / 180)).
Proof.
  intros o ga Ho. split.
  - intros x1 y1 length oa. by apply calculateAxisGeometry_eq.
  - intros i entry Hi axis theta len.
    destruct (calculateAxis_segments template entries data i entry Hi)
      as (s & t & th & H1 & H2 & _ & H4 & H5).
    exists s, t. split; [exact H1 |]. split; [exact H2 |].
    split; [exact H4 |].
    fold o ga in H5. rewrite (calculateAxisGeometry_eq _ _ _ o ga _ Ho) in H5.
    injection H5 as Hx Hy _. subst theta len. split; congruence.
Qed.

(** ** Positions along the axis *)

Lemma entrySpacing_pos config entry :
  0 < defaultEntrySpacing config -> 0 < entrySpacing config entry.
Proof.
  intros Hpos. unfold entrySpacing.
  destruct (e_EntrySpacingOverride entry) as [s |]; rdecide; lra.
Qed.

Lemma initializeLayoutConfig_spacing_pos template :
  0 < defaultEntrySpacing (initializeLayoutConfig template).
Proof. unfold initializeLayoutConfig. simpl. rdecide; lra. Qed.

Lemma sumR_spacings_nonneg config entries (n : nat) :
  0 < defaultEntrySpacing config -> 0 <= sumR (take n (spacings config entries)).
Proof.
  intros Hpos. revert n.
  induction entries as [| e es IH]; intros [| n]; simpl; try lra.
  pose proof (entrySpacing_pos config e Hpos). specialize (IH n). lra.
Qed.

Lemma positions_lengths template config entries : forall pos,
  let data := positionsAndStylesFrom template config pos entries in
  length (junctionPoints data) = S (length entries)
  /\ length (entryPoints data) = length entries.
Proof.
  induction entries as [| e es IH]; intros pos; simpl; [done |].
  destruct (IH (pos + entrySpacing config e)) as [H1 H2].
  by rewrite H1, H2.
Qed.

(** Junction [i] is the start position plus the first [i] spacings. *)
Lemma junctionPoints_nth template config entries : forall pos (i : nat),
  (i <= length entries)%nat ->
  nth i (junctionPoints (positionsAndStylesFrom template config pos entries)) 0
  = pos + sumR (take i (spacings config entries)).
Proof.
  induction entries as [| e es IH]; intros pos i Hi; simpl in *.
  - assert (i = 0%nat) as -> by lia. simpl. lra.
  - destruct i as [| i]; simpl; [lra |].
    rewrite IH by lia. unfold sumR, spacings. lra.
Qed.

(** The offset stored for entry [i] is junction [i] plus half the spacing
    of entry [i]. *)
Lemma entryPoints_nth template config entries : forall pos (i : nat) entry,
  entries !! i = Some entry ->
  nth i (entryPoints (positionsAndStylesFrom template config pos entries)) 0
  = nth i (junctionPoints (positionsAndStylesFrom template config pos entries)) 0
    + entrySpacing config entry / 2.
Proof.
  induction entries as [| e es IH]; intros pos i entry Hi; [discriminate |].
  destruct i as [| i]; simpl in *.
  - by injection Hi as ->.
  - by apply IH.
Qed.

(** Consecutive junctions are one spacing apart. *)
Lemma junctionPoints_step template config entries : forall pos (i : nat) entry,
  entries !! i = Some entry ->
  let J := junctionPoints (positionsAndStylesFrom template config pos entries) in
  nth (S i) J 0 = nth i J 0 + entrySpacing config entry.
Proof.
  induction entries as [| e es IH]; intros pos i entry Hi; [discriminate |].
  destruct i as [| i]; simpl in *.
  - injection Hi as ->. destruct es; reflexivity.
  - by apply IH.
Qed.

Lemma junctionPoints_increasing template config entries pos (i j : nat) :
  0 < defaultEntrySpacing config ->
  (i < j <= length entries)%nat ->
  let J := junctionPoints (positionsAndStylesFrom template config pos entries) in
  nth i J 0 < nth j J 0.
Proof.
  intros Hpos Hij J. subst J.
  rewrite !junctionPoints_nth by lia.
  assert (Hstep : forall (l : list R) (n : nat),
             (forall x, In x l -> 0 < x) -> (n < length l)%nat ->
             sumR (take n l) < sumR (take (S n) l)).
  { induction l as [| x l IHl]; intros n Hl Hn; simpl in Hn; [lia |].
    destruct n as [| n]; simpl.
    - pose proof (Hl x (or_introl eq_refl)). destruct l; simpl; lra.
    - assert (Hlt : sumR (take n l) < sumR (take (S n) l)).
      { apply IHl; [intros y Hy; apply Hl; by right | lia]. }
      simpl in Hlt. unfold sumR in *. lra. }
  assert (Hall : forall x, In x (spacings config entries) -> 0 < x).
  { intros x Hx. unfold spacings in Hx. apply in_map_iff in Hx.
    destruct Hx as (e & <- & _). by apply entrySpacing_pos. }
  assert (Hlen : length (spacings config entries) = length entries).
  { unfold spacings. apply length_map. }
  destruct Hij as [Hij Hj].
  induction j as [| j IHj]; [lia |].
  destruct (decide (i = j)) as [-> | Hne].
  - apply Rplus_lt_compat_l, Hstep; [exact Hall | lia].
  - eapply Rlt_trans; [apply IHj; lia |].
    apply Rplus_lt_compat_l, Hstep; [exact Hall | lia].
Qed.

Lemma calculateAxis_lengths template e0 rest data :
  let axis := calculateAxis template (e0 :: rest) data in
  length (entryAxisPoints axis) = S (length rest)
  /\ length (segmentStartPoints axis) = S (length rest)
  /\ length (segmentEndPoints axis) = S (length rest).
Proof.
  unfold calculateAxis.
  set (J := junctionPoints data).
  set (o := cl_Orientation (t_CenterLine template)).
  set (ga := cl_Angle (t_CenterLine template)).
  destruct (calculateAxisGeometry_start 0 0 (nth 0 J 0) o ga (e_AngleOverride e0))
    as (ex & ey & theta0 & ->).
  pose proof (axisWalk_spec J o ga (e0 :: rest) 0 {| X := ex; Y := ey |})
    as Hspec.
  destruct (axisWalk J o ga 0 {| X := ex; Y := ey |} (e0 :: rest))
    as [pts segs].
  cbn [fst snd] in Hspec. destruct Hspec as (Hlp & Hls & _).
  simpl in *. rewrite !length_map. lia.
Qed.

(** On a horizontal axis without angles, segment [i] runs along Y = 0 from
    junction [i - 1] (the origin for the first one) to junction [i], and
    the axis point of entry [i] is the end of segment [i]. *)
Lemma horizontal_axis_points template entries data :
  cl_Orientation (t_CenterLine template) = "horizontal" ->
  cl_Angle (t_CenterLine template) = None ->
  (forall e, e ∈ entries -> e_AngleOverride e = None) ->
  let axis := calculateAxis template entries data in
  let J := junctionPoints data in
  forall (i : nat) entry, entries !! i = Some entry ->
    entryAxisPoints axis !! i = Some {| X := nth i J 0; Y := 0 |}
    /\ segmentEndPoints axis !! i = Some {| X := nth i J 0; Y := 0 |}
    /\ segmentStartPoints axis !! i
       = Some {| X := match i with O => 0 | S k => nth k J 0 end; Y := 0 |}.
Proof.
  intros Ho Hga Hoa axis J.
  assert (Hcos : cos (0 * PI / 180) = 1)
    by (replace (0 * PI / 180) with 0 by lra; apply cos_0).
  assert (Hsin : sin (0 * PI / 180) = 0)
    by (replace (0 * PI / 180) with 0 by lra; apply sin_0).
  assert (Hend : forall (i : nat) entry, entries !! i = Some entry ->
            segmentEndPoints axis !! i = Some {| X := nth i J 0; Y := 0 |}
            /\ entryAxisPoints axis !! i = segmentEndPoints axis !! i
            /\ segmentStartPoints axis !! i
               = Some {| X := match i with O => 0 | S k => nth k J 0 end;
                         Y := 0 |}).
  { induction i as [| k IH]; intros entry Hi.
    - destruct (calculateAxis_segments template entries data 0 entry Hi)
        as (s & t & th & H1 & H2 & H3 & H4 & H5).
      fold axis in H1, H2, H3, H4. subst s.
      rewrite Ho, Hga, (Hoa entry) in H5
        by (apply list_elem_of_lookup; eauto).
      rewrite (calculateAxisGeometry_eq _ _ _ "horizontal" None None) in H5
        by (by left).
      simpl in H5. rewrite Hcos, Hsin in H5. injection H5 as Hx Hy _.
      fold J in Hx. destruct t as [tx ty]. simpl in *.
      assert (tx = nth 0 J 0) as -> by lra. assert (ty = 0) as -> by lra.
      rewrite H1, H2, H3. done.
    - assert (Hk : exists e', entries !! k = Some e').
      { apply lookup_lt_is_Some. apply lookup_lt_Some in Hi. lia. }
      destruct Hk as (e' & Hk). destruct (IH e' Hk) as (IHe & _ & _).
      destruct (calculateAxis_segments template entries data (S k) entry Hi)
        as (s & t & th & H1 & H2 & H3 & H4 & H5).
      fold axis in H1, H2, H3, H4. rewrite IHe in H4. simpl in H4. subst s.
      rewrite Ho, Hga, (Hoa entry) in H5
        by (apply list_elem_of_lookup; eauto).
      rewrite (calculateAxisGeometry_eq _ _ _ "horizontal" None None) in H5
        by (by left).
      simpl in H5. rewrite Hcos, Hsin in H5. injection H5 as Hx Hy _.
      fold J in Hx. destruct t as [tx ty]. simpl in *.
      assert (tx = nth (S k) J 0) as -> by lra. assert (ty = 0) as -> by lra.
      rewrite H1, H2, H3. done. }
  intros i entry Hi. destruct (Hend i entry Hi) as (H1 & H2 & H3).
  rewrite H2. done.
Qed.

Lemma axis_segment_angle_and_endpoint_witness :
  calculateAxisGeometry 0 0 100 "horizontal" None None
  = (0, 0, 0 + 100 * cos (0 * PI / 180), 0 + 100 * sin (0 * PI / 180), 0).
Proof.
  apply (proj1 (axis_segment_angle_and_endpoint sampleTemplate sampleEntries
                  (calculateTimelinePositionsAndStyles sampleEntries
                     sampleTemplate (initializeLayoutConfig sampleTemplate))
                  (or_introl eq_refl))).
Defined.


(** ** Style resolution *)

Lemma getEffectiveFontStyle_resolved global defaults override :
  getEffectiveFontStyle global defaults override
  = Resolved.font global defaults override.
Proof.
  unfold getEffectiveFontStyle, Resolved.font, Resolved.orIfEmpty,
    Resolved.orIfZero, Resolved.firstPresent, Resolved.field,
    getString, getInt.
  rewrite int_defaultFontSize.
  destruct global as [g |], override as [o |]; simpl; reflexivity.
Qed.

Lemma getEffectiveTitleLineStyle_resolved defaults override :
  getEffectiveTitleLineStyle defaults override
  = Resolved.titleLine defaults override.
Proof.
  destruct defaults as [v c w l m]. destruct override as [o |]; [| reflexivity].
  unfold getEffectiveTitleLineStyle, Resolved.titleLine, Resolved.firstPresent,
    Resolved.field, getBool, getString, getFloat64. simpl.
  destruct (tlo_Visible o); [reflexivity |].
  destruct (Rgtb _ 0 && Rgtb _ 0), v; reflexivity.
Qed.

Lemma getEffectiveDotStyle_resolved defaults override :
  getEffectiveDotStyle defaults override = Resolved.dot defaults override.
Proof.
  destruct defaults. destruct override as [o |]; reflexivity.
Qed.

Lemma getEffectiveConnectorStyle_resolved defaults override :
  getEffectiveConnectorStyle defaults override
  = Resolved.connector defaults override.
Proof.
  destruct override as [o |].
  - unfold getEffectiveConnectorStyle, Resolved.connector.
    rewrite getEffectiveDotStyle_resolved. reflexivity.
  - destruct defaults as [? ? ? ? ? ? d]. destruct d. reflexivity.
Qed.

Lemma getEffectiveYearTextStyle_resolved global defaults override :
  getEffectiveYearTextStyle global defaults override
  = Resolved.yearText global defaults override.
Proof.
  unfold getEffectiveYearTextStyle, Resolved.yearText.
  rewrite getEffectiveFontStyle_resolved. destruct override; reflexivity.
Qed.

Lemma getEffectiveCommentTextStyle_resolved global defaults override :
  getEffectiveCommentTextStyle global defaults override
  = Resolved.commentText global defaults override.
Proof.
  unfold getEffectiveCommentTextStyle, Resolved.commentText.
  rewrite !getEffectiveFontStyle_resolved, getEffectiveTitleLineStyle_resolved.
  destruct override as [o |]; simpl; [| by destruct (ct_BlockWidth defaults)].
  by destruct (cto_BlockWidth o).
Qed.

Lemma getEffectiveJunctionMarkerStyle_resolved defaults override :
  getEffectiveJunctionMarkerStyle defaults override
  = Resolved.junctionMarker defaults override.
Proof.
  destruct defaults. destruct override as [o |]; [| reflexivity].
  unfold getEffectiveJunctionMarkerStyle, Resolved.junctionMarker. simpl.
  by destruct (jmo_Color o).
Qed.

(** The styles stored for entry [i] are the effective styles of that
    entry. *)
Lemma styles_lookup template config entries : forall pos (i : nat) entry,
  entries !! i = Some entry ->
  let data := positionsAndStylesFrom template config pos entries in
  let defaults := t_PeriodDefaults template in
  connectorStyles data !! i
  = Some (getEffectiveConnectorStyle (ps_Connector defaults)
            (e_ConnectorOverride entry))
  /\ yearStyles data !! i
     = Some (getEffectiveYearTextStyle (t_GlobalFont template)
               (ps_YearText defaults) (e_YearTextOverride entry))
  /\ commentStyles data !! i
     = Some (getEffectiveCommentTextStyle (t_GlobalFont template)
               (ps_CommentText defaults) (e_CommentTextOverride entry))
  /\ markerStyles data !! i
     = Some (getEffectiveJunctionMarkerStyle (ps_JunctionMarker defaults)
               (e_JunctionMarkerOverride entry))
  /\ segmentColors data !! i
     = Some (Resolved.segmentColor config (ps_CenterlineProjection defaults)
               (e_CenterlineProjectionOverride entry)).
Proof.
  induction entries as [| e es IH]; intros pos i entry Hi; [discriminate |].
  destruct i as [| i]; simpl in Hi.
  - injection Hi as ->. simpl. repeat split; try reflexivity.
    f_equal. unfold Resolved.segmentColor, Resolved.orIfEmpty,
      getEffectiveCenterlineProjectionStyle.
    destruct (e_CenterlineProjectionOverride entry) as [o |]; [| reflexivity].
    destruct (cp_Color o =? ""); reflexivity.
  - apply (IH (pos + entrySpacing config e) i entry Hi).
Qed.

(** C2, as stated, fails.  The template title rule is visible with width
    and length 0 and the entry gives an empty title-rule override: the
    resolved width and length are 0, yet the resolved rule is visible. *)
Lemma title_rule_visibility_counterexample :
  let effective :=
    getEffectiveTitleLineStyle flatTitleLine (Some emptyTitleLineOverride) in
  tlo_Visible emptyTitleLineOverride = None
  /\ tl_Visible effective = true
  /\ tl_Width effective = 0 /\ tl_Length effective = 0
  /\ ~ (tl_Visible effective = true
        <-> 0 < tl_Width effective /\ 0 < tl_Length effective).
Proof.
  assert (Hv : tl_Visible (getEffectiveTitleLineStyle flatTitleLine
                             (Some emptyTitleLineOverride)) = true).
  { rewrite getEffectiveTitleLineStyle_resolved. simpl. apply orb_true_r. }
  simpl. repeat split; try reflexivity; try exact Hv.
  intros [H _]. specialize (H Hv). simpl in H. lra.
Qed.

(** C2, amended.  For every template default and every title-rule override
    object that is present and does not set 'visible', the resolved rule is
    visible if and only if both its resolved width and its resolved length
    are positive or the template default is visible. *)
Theorem title_rule_visibility (defaults : TitleLineStyle)
    (override : TitleLineStyleOverride) :
  tlo_Visible override = None ->
  let effective := getEffectiveTitleLineStyle defaults (Some override) in
  tl_Width effective = getFloat64 (tlo_Width override) (tl_Width defaults)
  /\ tl_Length effective = getFloat64 (tlo_Length override) (tl_Length defaults)
  /\ (tl_Visible effective = true
      <-> (0 < tl_Width effective /\ 0 < tl_Length effective)
          \/ tl_Visible defaults = true).
Proof.
  intros Hunset. cbv zeta. rewrite getEffectiveTitleLineStyle_resolved.
  split; [reflexivity |]. split; [reflexivity |].
  unfold Resolved.titleLine. simpl. rewrite Hunset.
  rewrite orb_true_iff, andb_true_iff, !Rgtb_true. reflexivity.
Qed.

Lemma title_rule_visibility_witness :
  tl_Visible (getEffectiveTitleLineStyle flatTitleLine
                (Some emptyTitleLineOverride)) = true.
Proof.
  apply (title_rule_visibility flatTitleLine emptyTitleLineOverride eq_refl).
  right. reflexivity.
Defined.

(** Field by field, the styles stored for an entry are what the resolvers
    compute from the template defaults and the overrides of the entry: the
    override value when the override sets the field (also to false, 0 or
    the empty string), else the template default; font fields take the
    template default when it is non-empty/non-zero, else the global font
    value, else the hard-coded value, and an empty resolved family becomes
    "sans-serif"; the segment colour takes a non-empty projection
    override, else the template's, else the centre line colour.  The two
    flags of the connector dot and the flag of the title rule are resolved
    as [Resolved.dot] and [Resolved.titleLine] say. *)
Lemma effective_styles_resolved (template : Template) (config : LayoutConfig)
    (entries : list TimelineEntry) (i : nat) (entry : TimelineEntry) :
  entries !! i = Some entry ->
  let data := calculateTimelinePositionsAndStyles entries template config in
  let defaults := t_PeriodDefaults template in
  let global := t_GlobalFont template in
  connectorStyles data !! i
  = Some (Resolved.connector (ps_Connector defaults)
            (e_ConnectorOverride entry))
  /\ yearStyles data !! i
     = Some (Resolved.yearText global (ps_YearText defaults)
               (e_YearTextOverride entry))
  /\ commentStyles data !! i
     = Some (Resolved.commentText global (ps_CommentText defaults)
               (e_CommentTextOverride entry))
  /\ markerStyles data !! i
     = Some (Resolved.junctionMarker (ps_JunctionMarker defaults)
               (e_JunctionMarkerOverride entry))
  /\ segmentColors data !! i
     = Some (Resolved.segmentColor config (ps_CenterlineProjection defaults)
               (e_CenterlineProjectionOverride entry)).
Proof.
  intros Hi data defaults global.
  destruct (styles_lookup template config entries 0 i entry Hi)
    as (H1 & H2 & H3 & H4 & H5).
  subst data. unfold calculateTimelinePositionsAndStyles.
  rewrite H1, H2, H3, H4, H5.
  rewrite getEffectiveConnectorStyle_resolved, getEffectiveYearTextStyle_resolved,
    getEffectiveCommentTextStyle_resolved,
    getEffectiveJunctionMarkerStyle_resolved.
  done.
Qed.

(** C1.  The cascade fails in [getEffectiveDotStyle] for the flags
    'visible' and 'stop_at_dot' of the connector dot.  The template
    switches the dot off (visible = false, stop_at_dot = false) and the
    entry carries a connector override with an empty dot object, which
    sets neither flag.  The style stored for the entry has both flags
    true, while size, colour, shape and offsets of the same dot are taken
    from the template, and an entry without any connector override keeps
    both flags false.  The override sets nothing and the template default
    is the same for both entries, so no hard-coded fallback makes the
    cascade give both results. *)
Theorem dot_override_resets_template_flags :
  let template := hiddenDotTemplate in
  let defaults := cs_Dot (ps_Connector (t_PeriodDefaults template)) in
  let stored entry :=
    connectorStyles
      (calculateTimelinePositionsAndStyles [entry] template
         (initializeLayoutConfig template)) !! 0%nat in
  doto_Visible emptyDotOverride = None
  /\ doto_StopAtDot emptyDotOverride = None
  /\ dot_Visible defaults = false /\ dot_StopAtDot defaults = false
  /\ (exists style,
        stored (withConnectorOverride emptyDotConnectorOverride
                  (plainEntry "2001")) = Some style
        /\ dot_Visible (cs_Dot style) = true
        /\ dot_StopAtDot (cs_Dot style) = true
        /\ dot_Size (cs_Dot style) = dot_Size defaults
        /\ dot_Color (cs_Dot style) = dot_Color defaults
        /\ dot_Shape (cs_Dot style) = dot_Shape defaults
        /\ dot_OffsetMain (cs_Dot style) = dot_OffsetMain defaults
        /\ dot_OffsetCross (cs_Dot style) = dot_OffsetCross defaults)
  /\ (exists style,
        stored (plainEntry "2001") = Some style
        /\ dot_Visible (cs_Dot style) = false
        /\ dot_StopAtDot (cs_Dot style) = false)
  /\ ~ exists fallback, dotFlagsFollowCascade fallback.
Proof.
  intros template defaults stored.
  split; [reflexivity |]. split; [reflexivity |].
  split; [reflexivity |]. split; [reflexivity |].
  split; [eexists; split; [reflexivity |]; repeat split |].
  split; [eexists; split; [reflexivity |]; repeat split |].
  intros [fallback H].
  destruct (H hiddenDotConnector (Some emptyDotConnectorOverride)) as [H1 _].
  destruct (H hiddenDotConnector None) as [H2 _].
  simpl in H1, H2. congruence.
Qed.

(** ** Connector routing *)

Lemma isDogleg_false dotStyle elementOffsetCross :
  isDogleg dotStyle elementOffsetCross = false
  <-> Rabs (float64 (dot_OffsetCross dotStyle)) < epsilon
      /\ Rabs elementOffsetCross < epsilon.
Proof.
  unfold isDogleg. rewrite orb_false_iff, !Rgeb_false. reflexivity.
Qed.

Lemma isZeroLengthStop_true params :
  isZeroLengthStop params = true
  <-> Rabs (seg_DotX params - conn_X1 (seg_ConnParams params)) < epsilon
      /\ Rabs (seg_DotY params - conn_Y1 (seg_ConnParams params)) < epsilon.
Proof.
  unfold isZeroLengthStop. rewrite andb_true_iff, !Rltb_true. reflexivity.
Qed.

(** C5.  For a visible connector whose 'stop at dot' flag is true: when the
    magnitudes of the dot's cross offset and of the element's cross offset
    are both below epsilon, exactly one segment is drawn, from the element
    anchor to the dot position, or to the axis anchor when the segment to
    the dot would have zero length (both coordinate differences below
    epsilon, in particular when the dot is the element anchor); otherwise
    exactly two segments are drawn, element anchor to elbow and elbow to
    dot, the elbow having the element's X and the dot's Y on a horizontal
    layout and the dot's X and the element's Y on a vertical one. *)
Theorem connector_routing (params : ConnectorLineSegmentsParams) (c : Canvas) :
  let cp := seg_ConnParams params in
  let dotStyle := cs_Dot (conn_Style cp) in
  let line x1 y1 x2 y2 :=
    ConnectorLine x1 y1 x2 y2 (seg_DrawColor params) (seg_DrawWidth params)
      (seg_DashArray params) in
  let drawn := svg (drawConnectorLineSegments params c) in
  let noCrossOffset :=
    Rabs (float64 (dot_OffsetCross dotStyle)) < epsilon
    /\ Rabs (conn_ElementCrossOffset cp) < epsilon in
  let zeroLength :=
    Rabs (seg_DotX params - conn_X1 cp) < epsilon
    /\ Rabs (seg_DotY params - conn_Y1 cp) < epsilon in
  conn_LineIsVisible cp = true ->
  dot_StopAtDot dotStyle = true ->
  (noCrossOffset -> ~ zeroLength ->
     drawn = (svg c ++ [line (conn_X1 cp) (conn_Y1 cp) (seg_DotX params)
                          (seg_DotY params)])%list)
  /\ (noCrossOffset -> zeroLength ->
      drawn = (svg c ++ [line (conn_X1 cp) (conn_Y1 cp) (conn_X2 cp)
                           (conn_Y2 cp)])%list)
  /\ (seg_DotX params = conn_X1 cp /\ seg_DotY params = conn_Y1 cp -> zeroLength)
  /\ (~ noCrossOffset ->
      let elbowX := if conn_IsHorizontal cp then conn_X1 cp else seg_DotX params in
      let elbowY := if conn_IsHorizontal cp then seg_DotY params else conn_Y1 cp in
      drawn = (svg c ++ [line (conn_X1 cp) (conn_Y1 cp) elbowX elbowY;
                         line elbowX elbowY (seg_DotX params) (seg_DotY params)])%list).
Proof.
  intros cp dotStyle line drawn noCrossOffset zeroLength Hvis Hstop.
  subst drawn. unfold drawConnectorLineSegments. fold cp. rewrite Hvis.
  fold dotStyle. rewrite Hstop. cbn [negb].
  split; [| split; [| split]].
  - intros Hno Hnz. apply isDogleg_false in Hno. rewrite Hno.
    destruct (isZeroLengthStop params) eqn:Hz.
    + apply isZeroLengthStop_true in Hz. contradiction.
    + simpl. reflexivity.
  - intros Hno Hz. apply isDogleg_false in Hno. rewrite Hno.
    apply isZeroLengthStop_true in Hz. rewrite Hz. simpl. reflexivity.
  - intros [Hx Hy]. subst zeroLength. rewrite Hx, Hy. unfold epsilon.
    rewrite !Rminus_diag, Rabs_R0. lra.
  - intros Hoff. destruct (isDogleg dotStyle (conn_ElementCrossOffset cp)) eqn:Hd.
    + unfold doglegMidPoint. fold cp.
      destruct (conn_IsHorizontal cp); simpl; rewrite <- app_assoc; reflexivity.
    + apply isDogleg_false in Hd. contradiction.
Qed.

Lemma connector_routing_witness :
  svg (drawConnectorLineSegments sampleConnectorSegments emptyCanvas)
  = [ConnectorLine 50 (-50) 50 0 "#888888" 1 None].
Proof.
  pose proof (connector_routing sampleConnectorSegments emptyCanvas) as H.
  cbv zeta in H. destruct (H eq_refl eq_refl) as (H1 & _). apply H1.
  - simpl. unfold float64, epsilon. rewrite Rabs_R0. lra.
  - simpl. unfold epsilon. intros [_ Hy].
    rewrite Rabs_right in Hy; lra.
Defined.

(** ** Structural input errors *)

(** [GenerateSVG] itself never fails on a non-empty entry list. *)
Lemma GenerateSVG_nonempty ParseFloat ReadImage template entries :
  entries <> [] ->
  exists doc, fst (GenerateSVG ParseFloat ReadImage template entries) = Ok doc.
Proof.
  intros Hne. unfold GenerateSVG.
  destruct entries as [| e es]; [done |]. simpl. eauto.
Qed.

(** C6.  An empty entry list or a template orientation that is neither
    "horizontal" nor "vertical" makes the run fail in the input validation
    of [main] with a fatal error, whatever the generators would do: none of
    them is called, so no geometry is computed and no primitive produced.
    [GenerateSVG] on its own also rejects an empty entry list before any
    layout work. *)
Theorem structural_errors_are_fatal
    (generateSVG : Template -> list TimelineEntry -> Result SVGDocument)
    (generateHTML : Template -> list TimelineEntry -> Result string)
    (generateImage :
       Template -> list TimelineEntry -> string -> string -> option string)
    (createFile : string -> option string)
    (writeString : string -> Output -> option string)
    (ParseFloat : string -> option R)
    (ReadImage : string -> option string)
    (outputFile : string)
    (template : Template) (timelineData : TimelineData) (exportFormat : string) :
  let orientation := cl_Orientation (t_CenterLine template) in
  td_Entries timelineData = []
  \/ (orientation <> "horizontal" /\ orientation <> "vertical") ->
  (exists err,
      main generateSVG generateHTML generateImage createFile writeString
        outputFile template timelineData exportFormat = Fatal err
      /\ validateInputs template timelineData exportFormat = Some err
      /\ (supportedFormats exportFormat = true ->
          err = InvalidOrientation \/ err = NoEntries))
  /\ (td_Entries timelineData = [] ->
      GenerateSVG ParseFloat ReadImage template (td_Entries timelineData)
      = (Err "no timeline entries to generate", [])).
Proof.
  intros orientation Hbad. split.
  - assert (Hv : exists err,
               validateInputs template timelineData exportFormat = Some err
               /\ (supportedFormats exportFormat = true ->
                   err = InvalidOrientation \/ err = NoEntries)).
    { unfold validateInputs. fold orientation.
      destruct (supportedFormats exportFormat); simpl; [| eexists; split; done].
      destruct (orientation =? "horizontal") eqn:Hh;
        destruct (orientation =? "vertical") eqn:Hvert; simpl;
        try (eexists; split; [reflexivity | tauto]).
      all: destruct Hbad as [-> | [Hnh Hnv]];
        try (simpl; eexists; split; [reflexivity | tauto]).
      all: apply String.eqb_eq in Hh || apply String.eqb_eq in Hvert;
        contradiction. }
    destruct Hv as (err & Hv & Herr). exists err.
    split; [unfold main; by rewrite Hv | done].
  - intros ->. reflexivity.
Qed.

Lemma structural_errors_are_fatal_witness :
  main (fun t es => fst (GenerateSVG parseDecimal noImages t es))
    (fun _ _ => Err "unused") (fun _ _ _ _ => None)
    createsAnyFile writesAnything ""
    sampleTemplate {| td_Entries := [] |} "svg"
  = Fatal NoEntries.
Proof.
  destruct (structural_errors_are_fatal
              (fun t es => fst (GenerateSVG parseDecimal noImages t es))
              (fun _ _ => Err "unused") (fun _ _ _ _ => None)
              createsAnyFile writesAnything parseDecimal noImages ""
              sampleTemplate {| td_Entries := [] |} "svg"
              (or_introl eq_refl)) as [(err & Hmain & Hval & _) _].
  rewrite Hmain. f_equal. vm_compute in Hval. congruence.
Defined.

(** ** Padding strings *)

Lemma Fields_nonempty s t ts : strings.Fields s = t :: ts -> (s =? "") = false.
Proof. destruct s; [discriminate | reflexivity]. Qed.

(** C9.  Padding strings follow the CSS shorthand: one token v gives
    (v, v, v, v) for top, right, bottom, left; two tokens (a, b) give
    (a, b, a, b); three tokens (a, b, c) give (a, b, c, b); four tokens
    give (top, right, bottom, left); a token that is not a number counts
    as 0.  In particular "10" gives (10, 10, 10, 10), "10 20" gives
    (10, 20, 10, 20), "5 10 15 20" gives (5, 10, 15, 20) and "abc" gives
    (0, 0, 0, 0). *)
Theorem padding_shorthand (ParseFloat : string -> option R) :
  ParseFloat "5" = Some 5 -> ParseFloat "10" = Some 10 ->
  ParseFloat "15" = Some 15 -> ParseFloat "20" = Some 20 ->
  ParseFloat "abc" = None ->
  let value := paddingValue ParseFloat in
  (forall t, ParseFloat t = None -> value t = 0)
  /\ (forall t v, ParseFloat t = Some v -> value t = v)
  /\ (forall s t, strings.Fields s = [t] ->
        parsePadding ParseFloat s = (value t, value t, value t, value t))
  /\ (forall s a b, strings.Fields s = [a; b] ->
        parsePadding ParseFloat s = (value a, value b, value a, value b))
  /\ (forall s a b c, strings.Fields s = [a; b; c] ->
        parsePadding ParseFloat s = (value a, value b, value c, value b))
  /\ (forall s a b c d, strings.Fields s = [a; b; c; d] ->
        parsePadding ParseFloat s = (value a, value b, value c, value d))
  /\ parsePadding ParseFloat "10" = (10, 10, 10, 10)
  /\ parsePadding ParseFloat "10 20" = (10, 20, 10, 20)
  /\ parsePadding ParseFloat "5 10 15 20" = (5, 10, 15, 20)
  /\ parsePadding ParseFloat "abc" = (0, 0, 0, 0).
Proof.
  intros H5 H10 H15 H20 Habc value.
  assert (Hgen : forall s ts, strings.Fields s = ts -> ts <> [] ->
            parsePadding ParseFloat s
            = match map value ts with
              | [v0] => (v0, v0, v0, v0)
              | [v0; v1] => (v0, v1, v0, v1)
              | [v0; v1; v2] => (v0, v1, v2, v1)
              | v0 :: v1 :: v2 :: v3 :: _ => (v0, v1, v2, v3)
              | _ => (0, 0, 0, 0)
              end).
  { intros s ts Hs Hne. unfold parsePadding.
    destruct ts as [| t ts]; [done |].
    rewrite (Fields_nonempty s t ts Hs), Hs. fold value.
    destruct ts as [| ? [| ? [| ? [| ? ?]]]]; reflexivity. }
  split; [intros t Ht; subst value; unfold paddingValue; by rewrite Ht |].
  split; [intros t v Ht; subst value; unfold paddingValue; by rewrite Ht |].
  split; [intros s t Hs; by rewrite (Hgen s [t]) |].
  split; [intros s a b Hs; by rewrite (Hgen s [a; b]) |].
  split; [intros s a b c Hs; by rewrite (Hgen s [a; b; c]) |].
  split; [intros s a b c d Hs; by rewrite (Hgen s [a; b; c; d]) |].
  split; [rewrite (Hgen "10" ["10"]) by done; subst value; simpl;
          unfold paddingValue; by rewrite H10 |].
  split; [rewrite (Hgen "10 20" ["10"; "20"]) by done; subst value; simpl;
          unfold paddingValue; by rewrite H10, H20 |].
  split; [rewrite (Hgen "5 10 15 20" ["5"; "10"; "15"; "20"]) by done;
          subst value; simpl; unfold paddingValue;
          by rewrite H5, H10, H15, H20 |].
  rewrite (Hgen "abc" ["abc"]) by done. subst value. simpl.
  unfold paddingValue. by rewrite Habc.
Qed.

Lemma padding_shorthand_witness :
  parsePadding parseDecimal "5 10 15 20" = (5, 10, 15, 20)
  /\ parsePadding parseDecimal "abc" = (0, 0, 0, 0).
Proof.
  destruct (padding_shorthand parseDecimal eq_refl eq_refl eq_refl eq_refl
              eq_refl) as (_ & _ & _ & _ & _ & _ & _ & _ & H4 & H0).
  split; [exact H4 | exact H0].
Defined.

(** ** Shape strings *)

(** A circle without 'r' and a rectangle without 'w' or 'h' never parse
    without error. *)
Lemma parseShapeString_missing ParseFloat s shapeType params err :
  parseShapeString ParseFloat s = (shapeType, params, err) ->
  (shapeType = "circle" /\ params !! "r" = None)
  \/ (shapeType = "rectangle" /\ (params !! "w" = None \/ params !! "h" = None)) ->
  err <> None.
Proof.
  unfold parseShapeString. intros Hparse Hmissing.
  destruct ((s =? "") || (s =? "none")).
  { injection Hparse as <- <- <-. destruct Hmissing as [[? _] | [? _]]; done. }
  destruct (strings.ToLower (strings.TrimSpace (hd "" (strings.Split s ";"))) =? "")
    eqn:Hempty.
  { injection Hparse as <- <- <-. done. }
  destruct (parseShapeParams ParseFloat (tl (strings.Split s ";")) ∅)
    as [params' [e |]].
  { injection Hparse as <- <- <-. done. }
  injection Hparse as Ht Hp He. subst params' err. rewrite Ht.
  clear Ht Hempty. unfold validateShapeParams.
  destruct Hmissing as [[-> Hr] | [-> Hwh]]; simpl.
  - by rewrite Hr.
  - destruct Hwh as [Hw | Hh]; [by rewrite Hw |].
    rewrite Hh. by destruct (params !! "w").
Qed.

(** An erroneous shape string makes [drawYearElement] log one warning and
    draw exactly what it draws for the shape "none". *)
Lemma drawYearElement_shape_error ParseFloat entry yearStyle cx cy c
    shapeType params e :
  parseShapeString ParseFloat (yt_Shape yearStyle) = (shapeType, params, Some e) ->
  let warned := drawYearElement ParseFloat entry yearStyle cx cy c in
  let plain :=
    drawYearElement ParseFloat entry (withShape "none" yearStyle) cx cy c in
  logged warned
  = (logged c ++ [WarnShapeParse (yt_Shape yearStyle) (e_Period entry) e])%list
  /\ logged plain = logged c
  /\ svg warned = svg plain
  /\ timelineBounds warned = timelineBounds plain
  /\ YearText cx cy (yt_Font yearStyle) (yt_TextColor yearStyle)
       (e_Period entry) ∈ svg warned.
Proof.
  intros Hparse warned plain. subst warned plain.
  unfold drawYearElement. rewrite Hparse.
  change (parseShapeString ParseFloat (yt_Shape (withShape "none" yearStyle)))
    with (("none", (∅ : gmap string R), None) : string * gmap string R * option ShapeError).
  cbv iota beta. unfold drawYearShape. cbn [ysp_ShapeType].
  change ("none" =? "circle") with false.
  change ("none" =? "rectangle") with false. cbv iota.
  destruct (negb (e_Link entry =? "")); simpl; repeat split;
    rewrite ?elem_of_app; [left; right | right]; constructor.
Qed.

(** C8.  "circle;r=10" parses to type "circle" with r = 10 and no error;
    "circle;r=auto" gives r = -1, the sentinel for auto; a circle without
    'r' and a rectangle without 'w' or 'h' (such as "rectangle;w=5") give
    an error; and on a parsing error the caller logs a warning, treats the
    shape as "none" (still drawing the label and updating the bounds) and
    the generation does not fail. *)
Theorem shape_string_parsing (ParseFloat : string -> option R)
    (ReadImage : string -> option string) :
  ParseFloat "10" = Some 10 ->
  ParseFloat "5" = Some 5 ->
  parseShapeString ParseFloat "circle;r=10" = ("circle", {[ "r" := 10 ]}, None)
  /\ parseShapeString ParseFloat "circle;r=auto"
     = ("circle", {[ "r" := -1 ]}, None)
  /\ (forall s shapeType params err,
        parseShapeString ParseFloat s = (shapeType, params, err) ->
        (shapeType = "circle" /\ params !! "r" = None)
        \/ (shapeType = "rectangle"
            /\ (params !! "w" = None \/ params !! "h" = None)) ->
        err <> None)
  /\ parseShapeString ParseFloat "circle"
     = ("circle", ∅, Some (ErrMissingParameter "r" "circle"))
  /\ parseShapeString ParseFloat "rectangle;w=5"
     = ("rectangle", {[ "w" := 5 ]}, Some (ErrMissingParameter "h" "rectangle"))
  /\ parseShapeString ParseFloat "rectangle;h=5"
     = ("rectangle", {[ "h" := 5 ]}, Some (ErrMissingParameter "w" "rectangle"))
  /\ (forall entry yearStyle cx cy c shapeType params e,
        parseShapeString ParseFloat (yt_Shape yearStyle)
        = (shapeType, params, Some e) ->
        let warned := drawYearElement ParseFloat entry yearStyle cx cy c in
        let plain :=
          drawYearElement ParseFloat entry (withShape "none" yearStyle) cx cy c in
        logged warned
        = (logged c ++ [WarnShapeParse (yt_Shape yearStyle) (e_Period entry) e])%list
        /\ logged plain = logged c
        /\ svg warned = svg plain
        /\ timelineBounds warned = timelineBounds plain
        /\ YearText cx cy (yt_Font yearStyle) (yt_TextColor yearStyle)
             (e_Period entry) ∈ svg warned)
  /\ (forall template entries, entries <> [] ->
        exists doc, fst (GenerateSVG ParseFloat ReadImage template entries) = Ok doc).
Proof.
  intros H10 H5.
  split; [vm_compute; rewrite H10; reflexivity |].
  split; [reflexivity |].
  split; [apply parseShapeString_missing |].
  split; [reflexivity |].
  split; [vm_compute; rewrite H5; reflexivity |].
  split; [vm_compute; rewrite H5; reflexivity |].
  split; [apply drawYearElement_shape_error |].
  apply GenerateSVG_nonempty.
Qed.

Lemma shape_string_parsing_witness :
  parseShapeString parseDecimal "circle;r=10" = ("circle", {[ "r" := 10 ]}, None)
  /\ parseShapeString parseDecimal "rectangle;w=5"
     = ("rectangle", {[ "w" := 5 ]}, Some (ErrMissingParameter "h" "rectangle")).
Proof.
  destruct (shape_string_parsing parseDecimal noImages eq_refl eq_refl)
    as (H1 & _ & _ & _ & H2 & _).
  split; [exact H1 | exact H2].
Defined.

(** ** What one entry draws *)

(** Close a goal [exists out, appends f out /\ _] once the tests of [f] are
    decided: the primitives appended are read off the goal. *)
Ltac read_appended :=
  eexists; split;
  [ intros ?c; cbn [svg emit boundsPoint boundsRect logPrintf];
    rewrite <- ?app_assoc;
    first [ reflexivity | symmetry; apply app_nil_r ]
  | ].

(** Every primitive of an explicit list is of the wanted kind. *)
Ltac all_of_kind :=
  repeat first
    [ assumption
    | apply Forall_app; split
    | constructor; [reflexivity |]
    | constructor ].

(** The wanted primitive heads one of the lists of a disjunction of
    memberships. *)
Ltac member_here :=
  first
    [ apply list_elem_of_here
    | left; member_here
    | right; member_here ].

Lemma appends_compose f g out1 out2 :
  appends f out1 -> appends g out2 ->
  appends (fun c => g (f c)) (out1 ++ out2)%list.
Proof.
  intros Hf Hg c. rewrite Hg, Hf. by rewrite app_assoc.
Qed.

Lemma drawJunctionMarker_appends params :
  exists marker,
    appends (drawJunctionMarker params) marker
    /\ Forall (fun p => isMarker p = true) marker.
Proof.
  unfold drawJunctionMarker.
  destruct ((jm_Shape (jmp_Style params) =? "none")
            || Rleb (jm_Size (jmp_Style params)) 0).
  { read_appended. constructor. }
  destruct ((jm_Shape (jmp_Style params) =? "arrow")
            || (jm_Shape (jmp_Style params) =? "diamond")).
  { destruct (jmp_IsHorizontal params); read_appended; repeat constructor. }
  destruct (jm_Shape (jmp_Style params) =? "circle");
    read_appended; repeat constructor.
Qed.

Lemma drawConnectorLineSegments_appends params :
  exists lines,
    appends (drawConnectorLineSegments params) lines
    /\ Forall (fun p => isConnectorLine p = true) lines
    /\ (length lines <= 2)%nat.
Proof.
  unfold drawConnectorLineSegments.
  destruct (negb (conn_LineIsVisible (seg_ConnParams params))).
  { read_appended. split; [constructor | simpl; lia]. }
  destruct (negb (dot_StopAtDot (cs_Dot (conn_Style (seg_ConnParams params))))).
  { read_appended. split; [repeat constructor | simpl; lia]. }
  destruct (isDogleg _ _).
  { destruct (doglegMidPoint params) as [mx my].
    read_appended. split; [repeat constructor | simpl; lia]. }
  destruct (isZeroLengthStop params);
    read_appended; (split; [repeat constructor | simpl; lia]).
Qed.

Lemma drawConnectorDot_appends params dotX dotY :
  exists dots,
    appends (drawConnectorDot params dotX dotY) dots
    /\ Forall (fun p => isDot p = true) dots
    /\ (length dots <= 1)%nat.
Proof.
  unfold drawConnectorDot.
  destruct (negb (dot_Visible (cdp_DotStyle params))
            || (dot_Shape (cdp_DotStyle params) =? "none")
            || (dot_Size (cdp_DotStyle params) <=? 0)%Z).
  { read_appended. split; [constructor | simpl; lia]. }
  destruct (dot_Shape (cdp_DotStyle params) =? "circle").
  { read_appended. split; [repeat constructor | simpl; lia]. }
  destruct (dot_Shape (cdp_DotStyle params) =? "square").
  { read_appended. split; [repeat constructor | simpl; lia]. }
  destruct (dot_Shape (cdp_DotStyle params) =? "arrow").
  { destruct (cdp_IsHorizontal params);
      read_appended; (split; [repeat constructor | simpl; lia]). }
  read_appended. split; [constructor | simpl; lia].
Qed.

Lemma drawConnector_appends params :
  exists lines dots,
    appends (drawConnector params) (lines ++ dots)%list
    /\ Forall (fun p => isConnectorLine p = true) lines
    /\ (length lines <= 2)%nat
    /\ Forall (fun p => isDot p = true) dots
    /\ (length dots <= 1)%nat.
Proof.
  unfold drawConnector.
  destruct (calculateConnectorStyleAttributes _ _) as [[color width] dash].
  destruct (calculateConnectorVectors _ _ _ _) as [[[[ux uy] nx] ny] len].
  destruct (calculateConnectorDotPosition _ _ _ _ _ _ _) as [dotX dotY].
  match goal with
  | |- context [drawConnectorLineSegments ?p] =>
      destruct (drawConnectorLineSegments_appends p) as (lines & Hl & Hlf & Hll)
  end.
  match goal with
  | |- context [drawConnectorDot ?p ?x ?y] =>
      destruct (drawConnectorDot_appends p x y) as (dots & Hd & Hdf & Hdl)
  end.
  exists lines, dots. split; [| done].
  intros c. rewrite Hd, Hl. by rewrite app_assoc.
Qed.

Lemma drawYearShape_appends params :
  exists shape,
    appends (drawYearShape params) shape
    /\ Forall (fun p => isYearElement p = true) shape.
Proof.
  unfold drawYearShape.
  destruct (ysp_ShapeType params =? "circle").
  { destruct (Rltb _ 0); [read_appended; repeat constructor |].
    destruct (Reqb _ 0); read_appended; repeat constructor. }
  destruct (ysp_ShapeType params =? "rectangle"); [| read_appended; constructor].
  destruct (Rgtb _ 0 && Rgtb _ 0); read_appended; repeat constructor.
Qed.

Lemma drawYearElement_appends ParseFloat entry yearStyle cx cy :
  exists year,
    appends (drawYearElement ParseFloat entry yearStyle cx cy) year
    /\ Forall (fun p => isYearElement p = true) year
    /\ YearText cx cy (yt_Font yearStyle) (yt_TextColor yearStyle)
         (e_Period entry) ∈ year.
Proof.
  unfold drawYearElement.
  destruct (parseShapeString ParseFloat (yt_Shape yearStyle))
    as [[shapeType shapeParams] err].
  destruct err as [e |]; cbv beta iota zeta;
    match goal with
    | |- context [drawYearShape ?p] =>
        destruct (drawYearShape_appends p) as (out & Hout & Hf)
    end;
    destruct (negb (e_Link entry =? "")).
  all: eexists; split;
    [ intros c; cbn [svg emit boundsRect logPrintf]; rewrite Hout;
      cbn [svg emit boundsRect logPrintf]; rewrite <- ?app_assoc; reflexivity
    | split; [all_of_kind | rewrite ?elem_of_app; member_here ] ].
Qed.

Lemma drawComment_appends ParseFloat ReadImage params :
  exists block, appends (drawComment ParseFloat ReadImage params) block.
Proof.
  unfold drawComment.
  set (layout := calculateCommentBlockLayout ParseFloat params).
  match goal with
  | |- context [drawCommentBody ReadImage ?p] =>
      destruct (drawCommentBody_spec ReadImage p) as (imgSrc & events & Hbody)
  end.
  unfold drawCommentBackground, drawCommentTitle, drawCommentTitleLine.
  destruct (ct_Shape (cmt_Style params) =? "rectangle");
    destruct (negb (cmt_TitleText params =? ""));
    destruct (tl_Visible (ct_TitleLine (cmt_Style params)));
    destruct (Rgtb (tl_Length (ct_TitleLine (cmt_Style params))) 0);
    destruct (Rgtb (tl_Width (ct_TitleLine (cmt_Style params))) 0);
    destruct (Rgtb (foHeight layout) 0);
    eexists; intros c; rewrite ?Hbody;
    cbn [svg emit boundsPoint boundsRect andb];
    rewrite <- ?app_assoc;
    first [ reflexivity | symmetry; apply app_nil_r ].
Qed.

(** The junction marker, the connector to the label and the label are what
    the first part of [drawTimelineEntry] draws, in this order. *)
Lemma drawEntryYearPart_appends ParseFloat params :
  exists marker lines dots year,
    appends (drawEntryYearPart ParseFloat params)
      (marker ++ lines ++ dots ++ year)%list
    /\ Forall (fun p => isMarker p = true) marker
    /\ Forall (fun p => isConnectorLine p = true) lines
    /\ (length lines <= 2)%nat
    /\ Forall (fun p => isDot p = true) dots
    /\ (length dots <= 1)%nat
    /\ Forall (fun p => isYearElement p = true) year
    /\ (exists x y font fill,
          YearText x y font fill (e_Period (tep_Entry params)) ∈ year).
Proof.
  unfold drawEntryYearPart.
  destruct (crossAxisDirections _ _ _) as [commentDir yearDir].
  destruct (calculateElementCenter _) as [yearCenterX yearCenterY].
  match goal with
  | |- context [drawJunctionMarker ?p] =>
      destruct (drawJunctionMarker_appends p) as (marker & Hm & Hmf)
  end.
  match goal with
  | |- context [drawYearElement ParseFloat ?e ?s ?x ?y] =>
      destruct (drawYearElement_appends ParseFloat e s x y)
        as (year & Hy & Hyf & Hyt)
  end.
  destruct (drawLine _).
  - match goal with
    | |- context [drawConnector ?p] =>
        destruct (drawConnector_appends p)
          as (lines & dots & Hc & Hlf & Hll & Hdf & Hdl)
    end.
    exists marker, lines, dots, year.
    split; [| repeat split; eauto 6].
    intros c. rewrite Hy, Hc, Hm. by rewrite <- !app_assoc.
  - exists marker, [], [], year.
    split; [| repeat split; eauto 6; simpl; lia].
    intros c. rewrite Hy, Hm. by rewrite <- !app_assoc.
Qed.

Lemma drawEntryCommentPart_appends ParseFloat ReadImage params :
  exists rest, appends (drawEntryCommentPart ParseFloat ReadImage params) rest.
Proof.
  unfold drawEntryCommentPart.
  destruct (crossAxisDirections _ _ _) as [commentDir yearDir].
  destruct (calculateElementCenter _) as [anchorX anchorY].
  destruct (calculateCommentEdgePoint _ _ _) as [edgeX edgeY].
  match goal with
  | |- context [drawComment ParseFloat ReadImage ?p] =>
      destruct (drawComment_appends ParseFloat ReadImage p) as (block & Hb)
  end.
  match goal with
  | |- context [drawConnector ?p] =>
      destruct (drawConnector_appends p) as (lines & dots & Hc & _)
  end.
  exists ((lines ++ dots) ++ block)%list.
  intros c. rewrite Hb, Hc. by rewrite <- !app_assoc.
Qed.

Lemma hasComment_false entry :
  e_TitleText entry = "" -> e_CommentText entry = "" ->
  e_CommentImage entry = "" -> hasComment entry = false.
Proof. intros Ht Hc Hi. unfold hasComment. by rewrite Ht, Hc, Hi. Qed.

Lemma kinds_exclude_comment (l : list Primitive) (kind : Primitive -> bool) :
  (forall p, kind p = true -> isCommentBlock p = false) ->
  Forall (fun p => kind p = true) l ->
  Forall (fun p => isCommentBlock p = false) l.
Proof.
  intros Hk Hl. induction Hl as [| p l Hp _ IH]; constructor; auto.
Qed.



(** ** Bounds: what they contain *)

Lemma inside_updatePoint b x y : inside (updatePoint b x y) x y.
Proof.
  unfold updatePoint, inside. destruct (isSet b); simpl; [| lra].
  pose proof (Rmin_r (minX b) x). pose proof (Rmin_r (minY b) y).
  pose proof (Rmax_r (maxX b) x). pose proof (Rmax_r (maxY b) y).
  lra.
Qed.

Lemma inside_covers b b' x y : covers b b' -> inside b x y -> inside b' x y.
Proof. unfold covers, inside. lra. Qed.

Lemma reaches_refl b : isSet b = true -> reaches b b.
Proof. intros H. split; [exact H | apply covers_refl]. Qed.

Lemma reaches_point b b' x y : reaches b b' -> reaches b (updatePoint b' x y).
Proof.
  intros [Hset Hcov]. split; [apply updatePoint_isSet |].
  eapply covers_trans; [exact Hcov | by apply updatePoint_covers].
Qed.

Lemma reaches_rect b b' x y w h :
  reaches b b' -> reaches b (updateRect b' x y w h).
Proof.
  intros [Hset Hcov]. split; [by apply updateRect_isSet |].
  eapply covers_trans; [exact Hcov | by apply updateRect_covers].
Qed.

Lemma reaches_update b b' u : reaches b b' -> reaches b (applyUpdate b' u).
Proof. destruct u; [apply reaches_point | apply reaches_rect]. Qed.

Lemma reaches_updates us : forall b b',
  reaches b b' -> reaches b (fold_left applyUpdate us b').
Proof.
  induction us as [| u us IH]; intros b b' H; simpl; [exact H |].
  by apply IH, reaches_update.
Qed.

Lemma recorded_inside b u x y :
  (x, y) ∈ recordedPoints u ->
  isSet (applyUpdate b u) = true /\ inside (applyUpdate b u) x y.
Proof.
  intros Hin. destruct u as [px py | rx ry w h]; simpl in *.
  - apply elem_of_cons in Hin as [Hin | Hin]; [| by apply elem_of_nil in Hin].
    injection Hin as -> ->.
    split; [apply updatePoint_isSet | apply inside_updatePoint].
  - unfold updateRect.
    destruct (Rgtb w 0 && Rgtb h 0); [| by apply elem_of_nil in Hin].
    split; [apply updatePoint_isSet |].
    apply elem_of_cons in Hin as [Hin | Hin].
    + injection Hin as -> ->.
      eapply inside_covers; [| apply inside_updatePoint].
      apply updatePoint_covers, updatePoint_isSet.
    + apply elem_of_cons in Hin as [Hin | Hin]; [| by apply elem_of_nil in Hin].
      injection Hin as -> ->. apply inside_updatePoint.
Qed.

(** X1.  Starting from unset bounds, after any sequence of point and
    rectangle updates: every recorded point (each point, and both corners
    of each rectangle of positive width and height) lies within the
    resulting bounds, which are then set with minX <= maxX and
    minY <= maxY; and if nothing was recorded the bounds are still the
    unset zero value. *)
Theorem bounds_contain_recorded_points (us : list BoundsUpdate) :
  let b := fold_left applyUpdate us emptyBounds in
  (forall u x y, u ∈ us -> (x, y) ∈ recordedPoints u ->
     isSet b = true /\ inside b x y)
  /\ (isSet b = true -> minX b <= maxX b /\ minY b <= maxY b)
  /\ ((forall u, u ∈ us -> recordedPoints u = []) -> b = emptyBounds).
Proof.
  intros b.
  assert (Hrec : forall u x y, u ∈ us -> (x, y) ∈ recordedPoints u ->
            isSet b = true /\ inside b x y).
  { intros u x y Hu Hin. subst b.
    apply list_elem_of_split in Hu as (pre & post & ->).
    rewrite fold_left_app. simpl.
    destruct (recorded_inside (fold_left applyUpdate pre emptyBounds) u x y Hin)
      as [Hs Hi].
    pose proof (reaches_updates post _ _ (reaches_refl _ Hs)) as [H1 H2].
    split; [exact H1 | by eapply inside_covers]. }
  split; [exact Hrec |]. split.
  - intros Hset.
    assert (Hex : exists u x y, u ∈ us /\ (x, y) ∈ recordedPoints u).
    { subst b. clear Hrec. revert Hset.
      assert (Hgen : forall b0, isSet b0 = false ->
                isSet (fold_left applyUpdate us b0) = true ->
                exists u x y, u ∈ us /\ (x, y) ∈ recordedPoints u).
      { induction us as [| u us IH]; intros b0 H0 H1; simpl in H1;
          [congruence |].
        destruct (recordedPoints u) as [| [x y] l] eqn:Hr.
        - assert (applyUpdate b0 u = b0) as Hsame.
          { destruct u; simpl in *; [discriminate |].
            unfold updateRect. by destruct (Rgtb width 0 && Rgtb height 0). }
          rewrite Hsame in H1. destruct (IH b0 H0 H1) as (u' & x' & y' & Hu & Hp).
          exists u', x', y'. split; [by apply list_elem_of_further | exact Hp].
        - exists u, x, y. split; [apply list_elem_of_here |].
          rewrite Hr. apply list_elem_of_here. }
      apply Hgen. reflexivity. }
    destruct Hex as (u & x & y & Hu & Hp).
    destruct (Hrec u x y Hu Hp) as [_ [Hx Hy]]. lra.
  - intros Hnone. subst b. clear Hrec.
    induction us as [| u us IH]; [reflexivity |]. simpl.
    assert (applyUpdate emptyBounds u = emptyBounds) as ->.
    { pose proof (Hnone u (list_elem_of_here _ _)) as Hr.
      destruct u; simpl in *; [discriminate |].
      unfold updateRect. by destruct (Rgtb width 0 && Rgtb height 0). }
    apply IH. intros u' Hu'. apply Hnone. by apply list_elem_of_further.
Qed.

(** ** The final canvas *)

(** Points inside bounds that are set land inside the padded canvas. *)
Lemma canvas_fits_bounds_aux (c : Canvas) (padding : R)
    (globalFont : option FontStyle) :
  isSet (timelineBounds c) = true -> 0 <= padding ->
  let doc := assembleFinalSVG c padding globalFont in
  doc_Body doc = svg c
  /\ forall x y, inside (timelineBounds c) x y ->
       padding <= x + doc_OffsetX doc <= doc_Width doc - padding
       /\ padding <= y + doc_OffsetY doc <= doc_Height doc - padding.
Proof.
  intros Hset Hp doc. subst doc. unfold assembleFinalSVG. rewrite Hset.
  cbn [doc_Body doc_Width doc_Height doc_OffsetX doc_OffsetY].
  split; [reflexivity |].
  set (b := timelineBounds c).
  pose proof (Rmax_l (padding * 2 + (maxX b - minX b)) 10) as Hw.
  pose proof (Rmax_l (padding * 2 + (maxY b - minY b)) 10) as Hh.
  intros x y [[Hx1 Hx2] [Hy1 Hy2]]. lra.
Qed.


(** ** Drawing steps only widen the bounds *)

Create HintDb bounds.

Lemma reaches_emit b p c :
  reaches b (timelineBounds c) -> reaches b (timelineBounds (emit p c)).
Proof. intros H. exact H. Qed.

Lemma reaches_logPrintf b ev c :
  reaches b (timelineBounds c) -> reaches b (timelineBounds (logPrintf ev c)).
Proof. intros H. exact H. Qed.

Lemma reaches_boundsPoint b x y c :
  reaches b (timelineBounds c) -> reaches b (timelineBounds (boundsPoint x y c)).
Proof. apply reaches_point. Qed.

Lemma reaches_boundsRect b x y w h c :
  reaches b (timelineBounds c) ->
  reaches b (timelineBounds (boundsRect x y w h c)).
Proof. apply reaches_rect. Qed.

#[local] Hint Resolve reaches_emit reaches_logPrintf reaches_boundsPoint
  reaches_boundsRect : bounds.

Lemma drawJunctionMarker_widens params : widens (drawJunctionMarker params).
Proof.
  intros b c H. unfold drawJunctionMarker.
  repeat match goal with
         | |- context [if ?t then _ else _] => destruct t
         end; auto 10 with bounds.
Qed.

Lemma drawCenterLineSegment_widens params :
  widens (drawCenterLineSegment params).
Proof. intros b c H. unfold drawCenterLineSegment. auto 10 with bounds. Qed.

Lemma drawConnectorLineSegments_widens params :
  widens (drawConnectorLineSegments params).
Proof.
  intros b c H. unfold drawConnectorLineSegments.
  destruct (doglegMidPoint params) as [mx my].
  repeat match goal with
         | |- context [if ?t then _ else _] => destruct t
         end; auto 10 with bounds.
Qed.

Lemma drawConnectorDot_widens params dotX dotY :
  widens (drawConnectorDot params dotX dotY).
Proof.
  intros b c H. unfold drawConnectorDot.
  repeat match goal with
         | |- context [if ?t then _ else _] => destruct t
         end; auto 10 with bounds.
Qed.

Lemma drawConnector_widens params : widens (drawConnector params).
Proof.
  intros b c H. unfold drawConnector.
  destruct (calculateConnectorStyleAttributes _ _) as [[color width] dash].
  destruct (calculateConnectorVectors _ _ _ _) as [[[[ux uy] nx] ny] len].
  destruct (calculateConnectorDotPosition _ _ _ _ _ _ _) as [dotX dotY].
  by apply drawConnectorDot_widens, drawConnectorLineSegments_widens.
Qed.

Lemma drawYearShape_widens params : widens (drawYearShape params).
Proof.
  intros b c H. unfold drawYearShape.
  repeat match goal with
         | |- context [if ?t then _ else _] => destruct t
         end; auto 10 with bounds.
Qed.

Lemma drawYearElement_widens ParseFloat entry yearStyle cx cy :
  widens (drawYearElement ParseFloat entry yearStyle cx cy).
Proof.
  intros b c H. unfold drawYearElement.
  destruct (parseShapeString ParseFloat (yt_Shape yearStyle))
    as [[shapeType shapeParams] err].
  destruct err; cbv beta iota zeta;
    destruct (negb (e_Link entry =? ""));
    repeat first [ apply reaches_emit | apply reaches_boundsRect
                 | apply drawYearShape_widens | apply reaches_logPrintf ];
    exact H.
Qed.

Lemma drawCommentBackground_widens style layout :
  widens (drawCommentBackground style layout).
Proof.
  intros b c H. unfold drawCommentBackground.
  destruct (ct_Shape style =? "rectangle"); auto 10 with bounds.
Qed.

Lemma drawCommentTitle_widens params : widens (drawCommentTitle params).
Proof. intros b c H. unfold drawCommentTitle. auto 10 with bounds. Qed.

Lemma drawCommentTitleLine_widens params : widens (drawCommentTitleLine params).
Proof. intros b c H. unfold drawCommentTitleLine. auto 10 with bounds. Qed.

Lemma drawCommentBody_widens ReadImage params :
  widens (drawCommentBody ReadImage params).
Proof.
  intros b c H.
  destruct (drawCommentBody_spec ReadImage params) as (imgSrc & events & ->).
  cbn [timelineBounds]. by apply reaches_rect.
Qed.

Lemma drawComment_widens ParseFloat ReadImage params :
  widens (drawComment ParseFloat ReadImage params).
Proof.
  intros b c H. unfold drawComment.
  repeat match goal with
         | |- context [if ?t then _ else _] => destruct t
         end;
    repeat first [ apply drawCommentBody_widens
                 | apply drawCommentTitleLine_widens
                 | apply drawCommentTitle_widens
                 | apply drawCommentBackground_widens ];
    exact H.
Qed.

Lemma drawEntryYearPart_widens ParseFloat params :
  widens (drawEntryYearPart ParseFloat params).
Proof.
  intros b c H. unfold drawEntryYearPart.
  destruct (crossAxisDirections _ _ _) as [commentDir yearDir].
  destruct (calculateElementCenter _) as [yearCenterX yearCenterY].
  apply drawYearElement_widens.
  destruct (drawLine _); [apply drawConnector_widens |];
    by apply drawJunctionMarker_widens.
Qed.

Lemma drawEntryCommentPart_widens ParseFloat ReadImage params :
  widens (drawEntryCommentPart ParseFloat ReadImage params).
Proof.
  intros b c H. unfold drawEntryCommentPart.
  destruct (crossAxisDirections _ _ _) as [commentDir yearDir].
  destruct (calculateElementCenter _) as [anchorX anchorY].
  destruct (calculateCommentEdgePoint _ _ _) as [edgeX edgeY].
  by apply drawComment_widens, drawConnector_widens.
Qed.

Lemma drawTimelineEntry_widens ParseFloat ReadImage params :
  widens (drawTimelineEntry ParseFloat ReadImage params).
Proof.
  intros b c H. unfold drawTimelineEntry.
  destruct (hasComment _); [apply drawEntryCommentPart_widens |];
    by apply drawEntryYearPart_widens.
Qed.

(** A loop whose body only widens the bounds only widens the bounds. *)
Lemma forRangeFrom_widens {A : Type} (f : nat -> A -> Canvas -> Canvas)
    (l : list A) :
  (forall i a, widens (f i a)) -> forall i, widens (forRangeFrom f i l).
Proof.
  intros Hf. induction l as [| a l IH]; intros i b c H; simpl; [exact H |].
  by apply IH, Hf.
Qed.

Lemma drawCenterLine_widens template config data axis entries :
  widens (drawCenterLine template config data axis entries).
Proof.
  unfold drawCenterLine, forRange. apply forRangeFrom_widens.
  intros i a. apply drawCenterLineSegment_widens.
Qed.

Lemma drawEntries_widens ParseFloat ReadImage isHorizontal config data axis entries :
  widens (drawEntries ParseFloat ReadImage isHorizontal config data axis entries).
Proof.
  unfold drawEntries, forRange. apply forRangeFrom_widens.
  intros i a. apply drawTimelineEntry_widens.
Qed.

(** ** Straight lines stay within the bounds *)

Lemma linesInside_widen c c' :
  svg c' = svg c ->
  reaches (timelineBounds c) (timelineBounds c') ->
  linesInside c -> linesInside c'.
Proof.
  intros Hsvg [Hset Hcov] [_ Hin]. split; [exact Hset |].
  intros p x y Hp Hxy. rewrite Hsvg in Hp.
  eapply inside_covers; [exact Hcov | by eapply Hin].
Qed.

Lemma linesInside_boundsPoint x y c :
  linesInside c -> linesInside (boundsPoint x y c).
Proof.
  intros H. apply (linesInside_widen c); [reflexivity | | exact H].
  apply reaches_point, reaches_refl, H.
Qed.

Lemma linesInside_boundsRect x y w h c :
  linesInside c -> linesInside (boundsRect x y w h c).
Proof.
  intros H. apply (linesInside_widen c); [reflexivity | | exact H].
  apply reaches_rect, reaches_refl, H.
Qed.

Lemma linesInside_logPrintf ev c : linesInside c -> linesInside (logPrintf ev c).
Proof. intros H. exact H. Qed.

Lemma linesInside_emit p c :
  lineEnds p = [] -> linesInside c -> linesInside (emit p c).
Proof.
  intros Hp [Hset Hin]. split; [exact Hset |].
  intros q x y Hq Hxy. cbn [svg emit] in Hq.
  apply elem_of_app in Hq as [Hq | Hq]; [by eapply Hin |].
  apply elem_of_cons in Hq as [-> | Hq]; [| by apply elem_of_nil in Hq].
  rewrite Hp in Hxy. by apply elem_of_nil in Hxy.
Qed.

(** A line is emitted, then both its ends are recorded. *)
Lemma linesInside_line (line : Primitive) x1 y1 x2 y2 c :
  lineEnds line = [(x1, y1); (x2, y2)] ->
  linesInside c ->
  linesInside (boundsPoint x2 y2 (boundsPoint x1 y1 (emit line c))).
Proof.
  intros Hl [Hset Hin]. split; [apply updatePoint_isSet |].
  intros q x y Hq Hxy. cbn [svg emit boundsPoint timelineBounds] in *.
  apply elem_of_app in Hq as [Hq | Hq].
  - eapply inside_covers; [| by eapply Hin].
    eapply covers_trans; [by apply updatePoint_covers |].
    apply updatePoint_covers, updatePoint_isSet.
  - apply elem_of_cons in Hq as [-> | Hq]; [| by apply elem_of_nil in Hq].
    rewrite Hl in Hxy.
    apply elem_of_cons in Hxy as [Hxy | Hxy].
    + injection Hxy as -> ->.
      eapply inside_covers; [| apply inside_updatePoint].
      apply updatePoint_covers, updatePoint_isSet.
    + apply elem_of_cons in Hxy as [Hxy | Hxy]; [| by apply elem_of_nil in Hxy].
      injection Hxy as -> ->. apply inside_updatePoint.
Qed.

Create HintDb lines.
#[local] Hint Resolve linesInside_boundsPoint linesInside_boundsRect
  linesInside_logPrintf : lines.
#[local] Hint Extern 1 (linesInside (emit _ _)) =>
  apply linesInside_emit; [reflexivity |] : lines.

Lemma drawCenterLineSegment_lines params c :
  linesInside c -> linesInside (drawCenterLineSegment params c).
Proof.
  intros H. unfold drawCenterLineSegment. by apply linesInside_line.
Qed.

Lemma drawCommentTitleLine_lines params c :
  linesInside c -> linesInside (drawCommentTitleLine params c).
Proof.
  intros H. unfold drawCommentTitleLine. by apply linesInside_line.
Qed.

Lemma drawConnectorLineSegments_lines params c :
  linesInside c -> linesInside (drawConnectorLineSegments params c).
Proof.
  intros H. unfold drawConnectorLineSegments.
  destruct (negb (conn_LineIsVisible _)); [exact H |].
  destruct (negb (dot_StopAtDot _)); [by apply linesInside_line |].
  destruct (isDogleg _ _).
  - destruct (doglegMidPoint params) as [mx my].
    set (cp := seg_ConnParams params).
    (* two lines, three recorded points *)
    destruct H as [Hset Hin]. split; [apply updatePoint_isSet |].
    cbn [svg emit boundsPoint timelineBounds].
    set (b := timelineBounds c) in *.
    set (b1 := updatePoint b (conn_X1 cp) (conn_Y1 cp)).
    set (b2 := updatePoint b1 mx my).
    set (b3 := updatePoint b2 (seg_DotX params) (seg_DotY params)).
    assert (H1 : covers b b1) by by apply updatePoint_covers.
    assert (H2 : covers b1 b2) by apply updatePoint_covers, updatePoint_isSet.
    assert (H3 : covers b2 b3) by apply updatePoint_covers, updatePoint_isSet.
    assert (I1 : inside b3 (conn_X1 cp) (conn_Y1 cp)).
    { eapply inside_covers; [exact H3 |].
      eapply inside_covers; [exact H2 | apply inside_updatePoint]. }
    assert (I2 : inside b3 mx my).
    { eapply inside_covers; [exact H3 | apply inside_updatePoint]. }
    assert (I3 : inside b3 (seg_DotX params) (seg_DotY params))
      by apply inside_updatePoint.
    intros q x y Hq Hxy.
    apply elem_of_app in Hq as [Hq | Hq].
    + apply elem_of_app in Hq as [Hq | Hq].
      * eapply inside_covers; [exact H3 |]. eapply inside_covers; [exact H2 |].
        eapply inside_covers; [exact H1 | by eapply Hin].
      * apply elem_of_cons in Hq as [-> | Hq]; [| by apply elem_of_nil in Hq].
        apply elem_of_cons in Hxy as [Hxy | Hxy]; [by injection Hxy as -> -> |].
        apply elem_of_cons in Hxy as [Hxy | Hxy]; [by injection Hxy as -> -> |].
        by apply elem_of_nil in Hxy.
    + apply elem_of_cons in Hq as [-> | Hq]; [| by apply elem_of_nil in Hq].
      apply elem_of_cons in Hxy as [Hxy | Hxy]; [by injection Hxy as -> -> |].
      apply elem_of_cons in Hxy as [Hxy | Hxy]; [by injection Hxy as -> -> |].
      by apply elem_of_nil in Hxy.
  - destruct (isZeroLengthStop params); by apply linesInside_line.
Qed.

Lemma drawJunctionMarker_lines params c :
  linesInside c -> linesInside (drawJunctionMarker params c).
Proof.
  intros H. unfold drawJunctionMarker.
  repeat match goal with
         | |- context [if ?t then _ else _] => destruct t
         end; auto 10 with lines.
Qed.

Lemma drawConnectorDot_lines params dotX dotY c :
  linesInside c -> linesInside (drawConnectorDot params dotX dotY c).
Proof.
  intros H. unfold drawConnectorDot.
  repeat match goal with
         | |- context [if ?t then _ else _] => destruct t
         end; auto 10 with lines.
Qed.

Lemma drawConnector_lines params c :
  linesInside c -> linesInside (drawConnector params c).
Proof.
  intros H. unfold drawConnector.
  destruct (calculateConnectorStyleAttributes _ _) as [[color width] dash].
  destruct (calculateConnectorVectors _ _ _ _) as [[[[ux uy] nx] ny] len].
  destruct (calculateConnectorDotPosition _ _ _ _ _ _ _) as [dotX dotY].
  by apply drawConnectorDot_lines, drawConnectorLineSegments_lines.
Qed.

Lemma drawYearShape_lines params c :
  linesInside c -> linesInside (drawYearShape params c).
Proof.
  intros H. unfold drawYearShape.
  repeat match goal with
         | |- context [if ?t then _ else _] => destruct t
         end; auto 10 with lines.
Qed.

Lemma drawYearElement_lines ParseFloat entry yearStyle cx cy c :
  linesInside c ->
  linesInside (drawYearElement ParseFloat entry yearStyle cx cy c).
Proof.
  intros H. unfold drawYearElement.
  destruct (parseShapeString ParseFloat (yt_Shape yearStyle))
    as [[shapeType shapeParams] err].
  destruct err; cbv beta iota zeta;
    destruct (negb (e_Link entry =? ""));
    repeat first [ apply linesInside_emit; [reflexivity |]
                 | apply linesInside_boundsRect
                 | apply drawYearShape_lines
                 | apply linesInside_logPrintf ];
    exact H.
Qed.

Lemma drawCommentBody_lines ReadImage params c :
  linesInside c -> linesInside (drawCommentBody ReadImage params c).
Proof.
  intros H. unfold drawCommentBody.
  destruct (negb (cmt_ImageURL (cbp_Params params) =? ""));
    [destruct (isLocalImage _); [destruct (ReadImage _) |] |];
    repeat first [ apply linesInside_emit; [reflexivity |]
                 | apply linesInside_logPrintf
                 | apply linesInside_boundsRect ];
    exact H.
Qed.

Lemma drawComment_lines ParseFloat ReadImage params c :
  linesInside c -> linesInside (drawComment ParseFloat ReadImage params c).
Proof.
  intros H. unfold drawComment, drawCommentBackground, drawCommentTitle.
  repeat match goal with
         | |- context [if ?t then _ else _] => destruct t
         end;
    repeat first [ apply drawCommentTitleLine_lines
                 | apply drawCommentBody_lines
                 | apply linesInside_emit; [reflexivity |]
                 | apply linesInside_boundsRect
                 | apply linesInside_boundsPoint ];
    exact H.
Qed.

Lemma drawTimelineEntry_lines ParseFloat ReadImage params c :
  linesInside c -> linesInside (drawTimelineEntry ParseFloat ReadImage params c).
Proof.
  intros H. unfold drawTimelineEntry.
  assert (Hy : linesInside (drawEntryYearPart ParseFloat params c)).
  { unfold drawEntryYearPart.
    destruct (crossAxisDirections _ _ _) as [commentDir yearDir].
    destruct (calculateElementCenter _) as [yearCenterX yearCenterY].
    apply drawYearElement_lines.
    destruct (drawLine _); [apply drawConnector_lines |];
      by apply drawJunctionMarker_lines. }
  destruct (hasComment _); [| exact Hy].
  unfold drawEntryCommentPart.
  destruct (crossAxisDirections _ _ _) as [commentDir yearDir].
  destruct (calculateElementCenter _) as [anchorX anchorY].
  destruct (calculateCommentEdgePoint _ _ _) as [edgeX edgeY].
  by apply drawComment_lines, drawConnector_lines.
Qed.

Lemma forRangeFrom_lines {A : Type} (f : nat -> A -> Canvas -> Canvas)
    (l : list A) :
  (forall i a c, linesInside c -> linesInside (f i a c)) ->
  forall i c, linesInside c -> linesInside (forRangeFrom f i l c).
Proof.
  intros Hf. induction l as [| a l IH]; intros i c H; simpl; [exact H |].
  by apply IH, Hf.
Qed.

Lemma drawTimeline_lines ParseFloat ReadImage template entries :
  linesInside (drawTimeline ParseFloat ReadImage template entries)
  /\ inside (timelineBounds (drawTimeline ParseFloat ReadImage template entries)) 0 0.
Proof.
  unfold drawTimeline.
  set (c0 := boundsPoint 0 0 emptyCanvas).
  assert (H0 : linesInside c0).
  { split; [reflexivity |]. intros p x y Hp. by apply elem_of_nil in Hp. }
  split.
  - unfold drawEntries, drawCenterLine, forRange.
    apply forRangeFrom_lines; [intros; by apply drawTimelineEntry_lines |].
    apply forRangeFrom_lines; [intros; by apply drawCenterLineSegment_lines |].
    exact H0.
  - assert (Hr : reaches (timelineBounds c0) (timelineBounds c0))
      by (by apply reaches_refl).
    apply drawCenterLine_widens with (template := template)
      (config := initializeLayoutConfig template)
      (data := calculateTimelinePositionsAndStyles entries template
                 (initializeLayoutConfig template))
      (axis := calculateAxis template entries
                 (calculateTimelinePositionsAndStyles entries template
                    (initializeLayoutConfig template)))
      (entries := entries) in Hr.
    apply drawEntries_widens with (ParseFloat := ParseFloat)
      (ReadImage := ReadImage)
      (isHorizontal := cl_Orientation (t_CenterLine template) =? "horizontal")
      (config := initializeLayoutConfig template)
      (data := calculateTimelinePositionsAndStyles entries template
                 (initializeLayoutConfig template))
      (axis := calculateAxis template entries
                 (calculateTimelinePositionsAndStyles entries template
                    (initializeLayoutConfig template)))
      (entries := entries) in Hr.
    destruct Hr as [_ Hcov].
    eapply inside_covers; [exact Hcov |]. apply inside_updatePoint.
Qed.

Lemma initializeLayoutConfig_padding_pos template :
  0 < layoutPadding (initializeLayoutConfig template).
Proof. unfold initializeLayoutConfig. simpl. rdecide; lra. Qed.



(** ** Connector vectors and routing through [drawConnector] *)

(** X4.  The vectors [calculateConnectorVectors] returns are always a unit
    vector and a unit vector perpendicular to it, also when the two points
    (nearly) coincide; the length returned is the distance of the points;
    and when that distance exceeds epsilon the element anchor is the axis
    anchor plus the distance along the unit vector. *)
Theorem connector_vectors_unit (x1 y1 x2 y2 : R) :
  let '(ux, uy, nx, ny, lineLen) := calculateConnectorVectors x1 y1 x2 y2 in
  ux * ux + uy * uy = 1
  /\ nx * nx + ny * ny = 1
  /\ ux * nx + uy * ny = 0
  /\ 0 <= lineLen
  /\ lineLen * lineLen = (x1 - x2) * (x1 - x2) + (y1 - y2) * (y1 - y2)
  /\ (epsilon < lineLen -> x1 = x2 + lineLen * ux /\ y1 = y2 + lineLen * uy).
Proof.
  unfold calculateConnectorVectors.
  set (dx := x1 - x2). set (dy := y1 - y2).
  assert (Hnn : 0 <= dx * dx + dy * dy) by nra.
  set (len := sqrt (dx * dx + dy * dy)).
  assert (Hsq : len * len = dx * dx + dy * dy) by (by apply sqrt_sqrt).
  assert (Hlen : 0 <= len) by apply sqrt_pos.
  destruct (Rgtb len epsilon) eqn:Hgt.
  - apply Rgtb_true in Hgt. unfold epsilon in Hgt.
    assert (Hz : len <> 0) by lra.
    assert (H1 : dx / len * (dx / len) + dy / len * (dy / len) = 1).
    { replace (dx / len * (dx / len) + dy / len * (dy / len))
        with ((dx * dx + dy * dy) / (len * len)) by (field; exact Hz).
      rewrite <- Hsq. field. exact Hz. }
    split; [exact H1 |].
    split; [rewrite <- H1; field; exact Hz |].
    split; [field; exact Hz |].
    split; [exact Hlen |]. split; [exact Hsq |].
    intros _. subst dx dy. split; field; exact Hz.
  - apply Rgtb_false in Hgt.
    split; [lra |]. split; [lra |]. split; [lra |].
    split; [exact Hlen |]. split; [exact Hsq |]. intros Hc. lra.
Qed.

Lemma Rabs_float64_nonzero (n : Z) : n <> 0%Z -> epsilon <= Rabs (float64 n).
Proof.
  intros Hn. unfold float64, epsilon. rewrite <- abs_IZR.
  assert (H1 : (1 <= Z.abs n)%Z) by lia.
  apply IZR_le in H1. lra.
Qed.

(** The shape of [drawConnector]: the line segments, then the dot, both
    for the dot position computed from the axis anchor. *)
Lemma drawConnector_unfold params c :
  let '(color, width, dash) :=
    calculateConnectorStyleAttributes (conn_Style params)
      (conn_SegmentColor params) in
  let '(ux, uy, nx, ny, _) :=
    calculateConnectorVectors (conn_X1 params) (conn_Y1 params)
      (conn_X2 params) (conn_Y2 params) in
  let dotStyle := cs_Dot (conn_Style params) in
  let dotX := conn_X2 params + ux * float64 (dot_OffsetMain dotStyle)
              + nx * float64 (dot_OffsetCross dotStyle) in
  let dotY := conn_Y2 params + uy * float64 (dot_OffsetMain dotStyle)
              + ny * float64 (dot_OffsetCross dotStyle) in
  drawConnector params c
  = drawConnectorDot
      {| cdp_DotStyle := dotStyle;
         cdp_P1x := conn_X1 params; cdp_P1y := conn_Y1 params;
         cdp_P2x := conn_X2 params; cdp_P2y := conn_Y2 params;
         cdp_DefaultColor := color;
         cdp_IsHorizontal := conn_IsHorizontal params;
         cdp_CrossAxisDir := conn_CrossAxisDir params;
         cdp_LineIsVisible := conn_LineIsVisible params |} dotX dotY
      (drawConnectorLineSegments
         {| seg_ConnParams := params; seg_DotX := dotX; seg_DotY := dotY;
            seg_Ux := ux; seg_Uy := uy; seg_Nx := nx; seg_Ny := ny;
            seg_DrawWidth := width; seg_DrawColor := color;
            seg_DashArray := dash |} c).
Proof.
  unfold drawConnector, calculateConnectorDotPosition.
  destruct (calculateConnectorStyleAttributes _ _) as [[color width] dash].
  destruct (calculateConnectorVectors _ _ _ _) as [[[[ux uy] nx] ny] len].
  reflexivity.
Qed.

(** X5.  A visible connector whose dot has no main and no cross offset and
    whose element has a cross offset below epsilon is drawn as exactly one
    segment from the element anchor to the axis anchor, whether or not it
    stops at the dot, followed by at most one dot primitive. *)
Theorem connector_without_offsets (params : ConnectorParams) :
  let dotStyle := cs_Dot (conn_Style params) in
  conn_LineIsVisible params = true ->
  dot_OffsetMain dotStyle = 0%Z ->
  dot_OffsetCross dotStyle = 0%Z ->
  Rabs (conn_ElementCrossOffset params) < epsilon ->
  let '(color, width, dash) :=
    calculateConnectorStyleAttributes (conn_Style params)
      (conn_SegmentColor params) in
  exists dots,
    appends (drawConnector params)
      (ConnectorLine (conn_X1 params) (conn_Y1 params) (conn_X2 params)
         (conn_Y2 params) color width dash :: dots)
    /\ Forall (fun p => isDot p = true) dots
    /\ (length dots <= 1)%nat.
Proof.
  intros dotStyle Hvis Hmain Hcross Helem.
  pose proof (drawConnector_unfold params) as Hunf.
  destruct (calculateConnectorStyleAttributes _ _) as [[color width] dash].
  destruct (calculateConnectorVectors _ _ _ _) as [[[[ux uy] nx] ny] len].
  cbv zeta in Hunf. fold dotStyle in Hunf. rewrite Hmain, Hcross in Hunf.
  set (dotX := conn_X2 params + ux * float64 0 + nx * float64 0) in Hunf.
  set (dotY := conn_Y2 params + uy * float64 0 + ny * float64 0) in Hunf.
  assert (HdX : dotX = conn_X2 params) by (subst dotX; unfold float64; lra).
  assert (HdY : dotY = conn_Y2 params) by (subst dotY; unfold float64; lra).
  match type of Hunf with
  | forall c, _ = drawConnectorDot ?dp _ _ _ =>
      destruct (drawConnectorDot_appends dp dotX dotY) as (dots & Hd & Hdf & Hdl)
  end.
  exists dots. split; [| done].
  intros c. rewrite Hunf, Hd.
  match goal with
  | |- (svg ?d ++ _ = _)%list =>
      assert (Hline : svg d
                = (svg c ++ [ConnectorLine (conn_X1 params) (conn_Y1 params)
                               (conn_X2 params) (conn_Y2 params) color width
                               dash])%list);
        [| by rewrite Hline, <- app_assoc]
  end.
  unfold drawConnectorLineSegments.
  cbn [seg_ConnParams seg_DotX seg_DotY seg_DrawColor seg_DrawWidth
         seg_DashArray].
  rewrite Hvis. cbn [negb]. fold dotStyle.
  destruct (dot_StopAtDot dotStyle); cbn [negb]; [| reflexivity].
  assert (Hnd : isDogleg dotStyle (conn_ElementCrossOffset params) = false).
  { apply isDogleg_false. rewrite Hcross. split; [| exact Helem].
    unfold float64, epsilon. rewrite Rabs_R0. lra. }
  rewrite Hnd.
  destruct (isZeroLengthStop _); cbn [svg emit boundsPoint];
    [reflexivity | by rewrite HdX, HdY].
Qed.

Lemma connector_without_offsets_witness :
  exists dots,
    appends (drawConnector (sampleConnector true true 0 0))
      (ConnectorLine 50 (-50) 50 0 "#888888" 1 None :: dots)
    /\ (length dots <= 1)%nat.
Proof.
  assert (He : Rabs 0 < epsilon) by (rewrite Rabs_R0; unfold epsilon; lra).
  pose proof (connector_without_offsets (sampleConnector true true 0 0)
                eq_refl eq_refl eq_refl He) as H.
  unfold calculateConnectorStyleAttributes in H. cbn in H.
  replace (int (if Rleb (float64 1) 0 then 1 else float64 1)) with 1%Z in H.
  2: { unfold Rleb, float64. destruct (Rle_dec 1 0); [lra |].
       symmetry. apply (int_float64 1). }
  replace (if Rleb (float64 1) 0 then 1 else float64 1) with 1 in H.
  2: { unfold Rleb, float64. destruct (Rle_dec 1 0); [lra | reflexivity]. }
  destruct H as (dots & Happ & _ & Hlen).
  exists dots. split; [exact Happ | exact Hlen].
Defined.

(** X6.  A visible connector that stops at its dot and whose dot has a
    non-zero cross offset is always drawn as a dogleg of exactly two
    segments: from the element anchor to the elbow and from the elbow to
    the dot, the dot lying at the axis anchor plus the main offset along
    the unit vector toward the element plus the cross offset along its
    perpendicular. *)
Theorem connector_with_dot_cross_offset (params : ConnectorParams) :
  let dotStyle := cs_Dot (conn_Style params) in
  conn_LineIsVisible params = true ->
  dot_StopAtDot dotStyle = true ->
  dot_OffsetCross dotStyle <> 0%Z ->
  let '(color, width, dash) :=
    calculateConnectorStyleAttributes (conn_Style params)
      (conn_SegmentColor params) in
  let '(ux, uy, nx, ny, _) :=
    calculateConnectorVectors (conn_X1 params) (conn_Y1 params)
      (conn_X2 params) (conn_Y2 params) in
  let dotX := conn_X2 params + ux * float64 (dot_OffsetMain dotStyle)
              + nx * float64 (dot_OffsetCross dotStyle) in
  let dotY := conn_Y2 params + uy * float64 (dot_OffsetMain dotStyle)
              + ny * float64 (dot_OffsetCross dotStyle) in
  let elbowX := if conn_IsHorizontal params then conn_X1 params else dotX in
  let elbowY := if conn_IsHorizontal params then dotY else conn_Y1 params in
  exists dots,
    appends (drawConnector params)
      (ConnectorLine (conn_X1 params) (conn_Y1 params) elbowX elbowY
         color width dash
       :: ConnectorLine elbowX elbowY dotX dotY color width dash :: dots)
    /\ Forall (fun p => isDot p = true) dots
    /\ (length dots <= 1)%nat.
Proof.
  intros dotStyle Hvis Hstop Hcross.
  pose proof (drawConnector_unfold params) as Hunf.
  destruct (calculateConnectorStyleAttributes _ _) as [[color width] dash].
  destruct (calculateConnectorVectors _ _ _ _) as [[[[ux uy] nx] ny] len].
  cbv zeta in Hunf |- *. fold dotStyle in Hunf |- *.
  set (dotX := conn_X2 params + ux * float64 (dot_OffsetMain dotStyle)
               + nx * float64 (dot_OffsetCross dotStyle)) in *.
  set (dotY := conn_Y2 params + uy * float64 (dot_OffsetMain dotStyle)
               + ny * float64 (dot_OffsetCross dotStyle)) in *.
  match type of Hunf with
  | forall c, _ = drawConnectorDot ?dp _ _ _ =>
      destruct (drawConnectorDot_appends dp dotX dotY) as (dots & Hd & Hdf & Hdl)
  end.
  exists dots. split; [| done].
  intros c. rewrite Hunf, Hd.
  assert (Hdog : isDogleg dotStyle (conn_ElementCrossOffset params) = true).
  { unfold isDogleg. apply orb_true_iff. left. apply Rgeb_true.
    by apply Rabs_float64_nonzero. }
  unfold drawConnectorLineSegments, doglegMidPoint.
  cbn [seg_ConnParams seg_DotX seg_DotY seg_DrawColor seg_DrawWidth
         seg_DashArray].
  rewrite Hvis. fold dotStyle. rewrite Hstop, Hdog. cbn [negb].
  destruct (conn_IsHorizontal params); cbn [svg emit boundsPoint];
    by rewrite <- !app_assoc.
Qed.

Lemma connector_with_dot_cross_offset_witness :
  exists p1 p2 dots,
    appends (drawConnector (sampleConnector true true 0 5)) (p1 :: p2 :: dots)
    /\ isConnectorLine p1 = true /\ isConnectorLine p2 = true
    /\ Forall (fun p => isDot p = true) dots.
Proof.
  assert (Hne : 5%Z <> 0%Z) by discriminate.
  pose proof (connector_with_dot_cross_offset (sampleConnector true true 0 5)
                eq_refl eq_refl Hne) as H.
  destruct (calculateConnectorStyleAttributes _ _) as [[color width] dash].
  destruct (calculateConnectorVectors _ _ _ _) as [[[[ux uy] nx] ny] len].
  destruct H as (dots & Happ & Hdots & _).
  eexists _, _, dots. split; [exact Happ |]. split; [reflexivity |].
  split; [reflexivity | exact Hdots].
Defined.

(** X7.  When the line of a connector is not to be drawn, [drawConnector]
    draws no line segment but still draws the dot: for a visible dot of
    shape "circle" and positive size, exactly the dot circle, centred on
    the dot position, and the bounds are updated for it. *)
Theorem connector_hidden_line_keeps_dot (params : ConnectorParams) (c : Canvas) :
  let dotStyle := cs_Dot (conn_Style params) in
  conn_LineIsVisible params = false ->
  dot_Visible dotStyle = true ->
  dot_Shape dotStyle = "circle" ->
  (0 < dot_Size dotStyle)%Z ->
  let '(color, _, _) :=
    calculateConnectorStyleAttributes (conn_Style params)
      (conn_SegmentColor params) in
  let '(ux, uy, nx, ny, _) :=
    calculateConnectorVectors (conn_X1 params) (conn_Y1 params)
      (conn_X2 params) (conn_Y2 params) in
  let dotX := conn_X2 params + ux * float64 (dot_OffsetMain dotStyle)
              + nx * float64 (dot_OffsetCross dotStyle) in
  let dotY := conn_Y2 params + uy * float64 (dot_OffsetMain dotStyle)
              + ny * float64 (dot_OffsetCross dotStyle) in
  let size := float64 (dot_Size dotStyle) in
  let fill := if dot_Color dotStyle =? "" then color else dot_Color dotStyle in
  svg (drawConnector params c)
  = (svg c ++ [DotCircle dotX dotY (size / 2) fill])%list
  /\ timelineBounds (drawConnector params c)
     = updateRect (timelineBounds c) (dotX - size / 2) (dotY - size / 2)
         size size.
Proof.
  intros dotStyle Hvis Hdot Hshape Hsize.
  pose proof (drawConnector_unfold params c) as Hunf.
  destruct (calculateConnectorStyleAttributes _ _) as [[color width] dash].
  destruct (calculateConnectorVectors _ _ _ _) as [[[[ux uy] nx] ny] len].
  cbv zeta in Hunf |- *. fold dotStyle in Hunf |- *. rewrite Hunf.
  unfold drawConnectorLineSegments, drawConnectorDot.
  cbn [seg_ConnParams cdp_DotStyle cdp_DefaultColor]. rewrite Hvis.
  cbn [negb]. rewrite Hdot, Hshape.
  assert (Hs : (dot_Size dotStyle <=? 0)%Z = false) by lia.
  rewrite Hs. cbn. done.
Qed.

Lemma connector_hidden_line_keeps_dot_witness :
  exists dot,
    svg (drawConnector (sampleConnector false true 0 0) emptyCanvas) = [dot]
    /\ isDot dot = true.
Proof.
  assert (Hsize : (0 < 8)%Z) by lia.
  pose proof (connector_hidden_line_keeps_dot (sampleConnector false true 0 0)
                emptyCanvas eq_refl eq_refl eq_refl Hsize) as H.
  destruct (calculateConnectorStyleAttributes _ _) as [[color width] dash].
  destruct (calculateConnectorVectors _ _ _ _) as [[[[ux uy] nx] ny] len].
  destruct H as [Hsvg _]. eexists. split; [exact Hsvg | reflexivity].
Defined.

(** ** Placement of label and comment *)

Lemma crossAxisDirections_cases (i : nat) (isHorizontal : bool)
    (connStyle : ConnectorStyle) :
  let dirs := crossAxisDirections i isHorizontal connStyle in
  dirs = (1, -1) \/ dirs = (-1, 1).
Proof.
  unfold crossAxisDirections.
  destruct (Nat.odd i);
    repeat match goal with
           | |- context [if ?t then _ else _] => destruct t
           end; auto.
Qed.

(** X8.  The cross-axis directions of comment and label are always +1 and
    -1 or -1 and +1, so the two are on opposite sides.  Without a side in
    the connector style the comment direction is +1 for even and -1 for
    odd entry indices, so consecutive entries swap sides.  "top" (on a
    horizontal entry) and "left" (on a vertical one) put the comment at
    -1, "bottom" and "right" at +1, and a side that does not fit the
    orientation leaves the alternation in place. *)
Theorem cross_axis_directions (i : nat) (isHorizontal : bool)
    (connStyle : ConnectorStyle) :
  let dirs := crossAxisDirections i isHorizontal connStyle in
  let alternating : R * R := if Nat.odd i then (-1, 1) else (1, -1) in
  let side := cs_Side connStyle in
  (dirs = (1, -1) \/ dirs = (-1, 1))
  /\ (side = "" -> dirs = alternating
      /\ crossAxisDirections (S i) isHorizontal connStyle = (snd dirs, fst dirs))
  /\ (side = (if isHorizontal then "top" else "left") -> dirs = (-1, 1))
  /\ (side = (if isHorizontal then "bottom" else "right") -> dirs = (1, -1))
  /\ (side = (if isHorizontal then "left" else "top") -> dirs = alternating)
  /\ (side = (if isHorizontal then "right" else "bottom") -> dirs = alternating).
Proof.
  intros dirs alternating side. subst dirs alternating side.
  split; [apply crossAxisDirections_cases |].
  unfold crossAxisDirections.
  split.
  { intros ->. cbn. rewrite Nat.odd_succ, <- Nat.negb_odd.
    destruct (Nat.odd i); cbn; done. }
  repeat split; intros ->; destruct isHorizontal, (Nat.odd i); reflexivity.
Qed.

Lemma cross_axis_directions_witness :
  crossAxisDirections 3 true zeroConnectorStyle = (-1, 1)
  /\ crossAxisDirections 4 true zeroConnectorStyle = (1, -1).
Proof.
  destruct (cross_axis_directions 3 true zeroConnectorStyle)
    as (_ & H & _). destruct (H eq_refl) as [H3 H4].
  split; [exact H3 |]. rewrite H4, H3. reflexivity.
Defined.

(** X9.  Label and comment anchor of an entry are placed from the same
    axis point: shifted by their main-axis offsets along the axis and, on
    opposite sides of it, by the connector length plus their cross-axis
    offsets.  When both of these distances are positive the two lie
    strictly on opposite sides of the axis. *)
Theorem label_and_comment_on_opposite_sides (i : nat) (isHorizontal : bool)
    (connStyle : ConnectorStyle) (axisX axisY connectorLen : R)
    (yearMain yearCross commentMain commentCross : R) :
  let '(commentDir, yearDir) :=
    crossAxisDirections i isHorizontal connStyle in
  let center main cross dir :=
    calculateElementCenter
      {| ecp_AxisX := axisX; ecp_AxisY := axisY; ecp_MainOffset := main;
         ecp_CrossOffset := cross; ecp_ConnectorLen := connectorLen;
         ecp_CrossDir := dir; ecp_IsHorizontal := isHorizontal |} in
  let '(yearX, yearY) := center yearMain yearCross yearDir in
  let '(commentX, commentY) := center commentMain commentCross commentDir in
  let along (x y : R) := if isHorizontal then x - axisX else y - axisY in
  let across (x y : R) := if isHorizontal then y - axisY else x - axisX in
  along yearX yearY = yearMain
  /\ along commentX commentY = commentMain
  /\ Rabs (across yearX yearY) = Rabs (connectorLen + yearCross)
  /\ Rabs (across commentX commentY) = Rabs (connectorLen + commentCross)
  /\ (0 < connectorLen + yearCross -> 0 < connectorLen + commentCross ->
      across yearX yearY * across commentX commentY < 0).
Proof.
  destruct (crossAxisDirections_cases i isHorizontal connStyle) as [-> | ->]; unfold calculateElementCenter;
    destruct isHorizontal; cbn;
    repeat split; try lra;
    try (intros; nra);
    try (f_equal; lra);
    try (rewrite <- Rabs_Ropp; f_equal; lra).
Qed.

Lemma label_and_comment_on_opposite_sides_witness :
  let '(commentDir, yearDir) := crossAxisDirections 0 true zeroConnectorStyle in
  let '(_, yearY) :=
    calculateElementCenter
      {| ecp_AxisX := 0; ecp_AxisY := 0; ecp_MainOffset := 0;
         ecp_CrossOffset := 0; ecp_ConnectorLen := 50;
         ecp_CrossDir := yearDir; ecp_IsHorizontal := true |} in
  let '(_, commentY) :=
    calculateElementCenter
      {| ecp_AxisX := 0; ecp_AxisY := 0; ecp_MainOffset := 0;
         ecp_CrossOffset := 0; ecp_ConnectorLen := 50;
         ecp_CrossDir := commentDir; ecp_IsHorizontal := true |} in
  (yearY - 0) * (commentY - 0) < 0.
Proof.
  pose proof (label_and_comment_on_opposite_sides 0 true zeroConnectorStyle
                0 0 50 0 0 0 0) as H.
  cbn in H |- *. destruct H as (_ & _ & _ & _ & H). apply H; lra.
Defined.

(** ** Comment block layout *)

(** X10.  The comment block is centred on its anchor along the axis and
    one of its edges passes through the anchor, the block extending away
    from the axis: on a horizontal entry its bottom edge (direction < 0)
    or its top edge (otherwise) is at the anchor's Y, on a vertical entry
    its right or left edge at the anchor's X.  The point the connector is
    drawn to is the centre of the opposite edge: the anchor moved by the
    whole block height (horizontal) or width (vertical) away from the
    axis. *)
Theorem comment_block_placement (ParseFloat : string -> option R)
    (params : CommentParams) :
  let layout := calculateCommentBlockLayout ParseFloat params in
  let dir := cmt_CrossAxisDir params in
  let w := visualBlockWidth layout in
  let h := visualBlockHeight layout in
  let edge := calculateCommentEdgePoint layout dir (cmt_IsHorizontal params) in
  if cmt_IsHorizontal params then
    blockX layout + w / 2 = cmt_AnchorX params
    /\ (dir < 0 -> blockY layout + h = cmt_AnchorY params
                   /\ edge = (blockX layout + w / 2, cmt_AnchorY params - h))
    /\ (0 <= dir -> blockY layout = cmt_AnchorY params
                    /\ edge = (blockX layout + w / 2, cmt_AnchorY params + h))
  else
    blockY layout + h / 2 = cmt_AnchorY params
    /\ (dir < 0 -> blockX layout + w = cmt_AnchorX params
                   /\ edge = (cmt_AnchorX params - w, blockY layout + h / 2))
    /\ (0 <= dir -> blockX layout = cmt_AnchorX params
                    /\ edge = (cmt_AnchorX params + w, blockY layout + h / 2)).
Proof.
  intros layout dir w h edge. subst layout dir w h edge.
  unfold calculateCommentBlockLayout, calculateCommentEdgePoint,
    calculateBlockPosition.
  destruct (parsePadding ParseFloat _) as [[[pt pr] pb] pl].
  destruct (cmt_IsHorizontal params);
    destruct (negb (cmt_TitleText params =? ""));
    destruct (tl_Visible _ && Rgtb _ 0 && Rgtb _ 0);
    destruct (ct_BlockWidth _) as [bw |];
    rdecide;
    cbn [blockX blockY visualBlockWidth visualBlockHeight];
    repeat split; intros; try lra; try (f_equal; lra).
Qed.

(** X11.  In every comment block layout: the content width is never
    negative and is the configured block width whenever that is positive;
    the block is the content plus the left and right padding wide; the body
    region starts after the left padding and ends before the right and the
    bottom padding; the content centre is the middle of the body region;
    the body region is 0 high without body text and image, 60 with an
    image only and 100 otherwise; and a title, when present, starts right
    below the top padding. *)
Theorem comment_block_dimensions (ParseFloat : string -> option R)
    (params : CommentParams) :
  let layout := calculateCommentBlockLayout ParseFloat params in
  let style := cmt_Style params in
  (padTop layout, padRight layout, padBottom layout, padLeft layout)
  = parsePadding ParseFloat (ct_Padding style)
  /\ 0 <= contentWidth layout
  /\ (forall w, ct_BlockWidth style = Some w -> 0 < w -> contentWidth layout = w)
  /\ visualBlockWidth layout
     = contentWidth layout + padLeft layout + padRight layout
  /\ bodyAbsX layout = blockX layout + padLeft layout
  /\ bodyAbsX layout + contentWidth layout
     = blockX layout + visualBlockWidth layout - padRight layout
  /\ bodyAbsY layout + foHeight layout
     = blockY layout + visualBlockHeight layout - padBottom layout
  /\ contentCenterX layout = bodyAbsX layout + contentWidth layout / 2
  /\ foHeight layout
     = (if cmt_BodyText params =? "" then
          if cmt_ImageURL params =? "" then 0 else 60
        else 100)
  /\ (cmt_TitleText params <> "" ->
      titleTextAbsY layout = blockY layout + padTop layout).
Proof.
  intros layout style. subst layout style.
  unfold calculateCommentBlockLayout.
  destruct (parsePadding ParseFloat _) as [[[pt pr] pb] pl].
  assert (Hfo : calculateForeignObjectHeight (cmt_BodyText params)
                  (cmt_ImageURL params)
                = (if cmt_BodyText params =? "" then
                     if cmt_ImageURL params =? "" then 0 else 60
                   else 100)).
  { unfold calculateForeignObjectHeight, imagePlaceholderHeight,
      foreignObjectHeightEstimate.
    destruct (cmt_BodyText params =? ""), (cmt_ImageURL params =? "");
      cbn; lra. }
  assert (Hne : cmt_TitleText params <> "" ->
                negb (cmt_TitleText params =? "") = true).
  { intros Hn. apply negb_true_iff. by apply String.eqb_neq. }
  destruct (negb (cmt_TitleText params =? "")) eqn:Htitle;
    destruct (tl_Visible _ && Rgtb _ 0 && Rgtb _ 0);
    destruct (calculateBlockPosition _ _ _ _ _ _) as [bx by_];
    cbn [blockX blockY visualBlockWidth visualBlockHeight contentCenterX
           titleTextAbsY titleLineAbsY bodyAbsX bodyAbsY foHeight padTop
           padRight padBottom padLeft contentWidth];
    (split; [reflexivity |]);
    (split; [destruct (ct_BlockWidth _) as [w |]; rdecide; lra |]);
    (split; [intros w Hw Hwpos; rewrite Hw; unfold Rgtb, Rltb;
             destruct (Rlt_dec 0 w); [destruct (Rlt_dec w 0); lra | lra] |]);
    (split; [reflexivity |]); (split; [reflexivity |]);
    (split; [lra |]); (split; [lra |]); (split; [lra |]);
    (split; [exact Hfo |]);
    intros Hn; specialize (Hne Hn); try discriminate; reflexivity.
Qed.

(** ** The axis through the entries *)

(** X12.  Whatever the orientation and the angles: the segment that leads
    to entry i ends in the axis point at which entry i is drawn; the first
    segment is degenerate, it starts and ends in the origin, so the first
    entry is drawn at the origin; every later segment starts in the axis
    point of the previous entry, and the distance between the axis points
    of two consecutive entries is the (positive) spacing of the first of
    the two. *)
Theorem entries_one_spacing_apart (template : Template)
    (entries : list TimelineEntry) (i : nat) (entry : TimelineEntry) :
  entries !! i = Some entry ->
  let config := initializeLayoutConfig template in
  let data := calculateTimelinePositionsAndStyles entries template config in
  let axis := calculateAxis template entries data in
  exists s t : AxisPoint,
    segmentStartPoints axis !! i = Some s
    /\ segmentEndPoints axis !! i = Some t
    /\ entryAxisPoints axis !! i = Some t
    /\ match i with
       | O => s = {| X := 0; Y := 0 |} /\ t = {| X := 0; Y := 0 |}
       | S k =>
           entryAxisPoints axis !! k = Some s
           /\ exists prev, entries !! k = Some prev
              /\ 0 < entrySpacing config prev
              /\ sqrt ((X t - X s) * (X t - X s) + (Y t - Y s) * (Y t - Y s))
                 = entrySpacing config prev
       end.
Proof.
  intros Hi config data axis.
  destruct (calculateAxis_segments template entries data i entry Hi)
    as (s & t & th & H1 & H2 & H3 & H4 & H5).
  fold axis in H1, H2, H3, H4.
  exists s, t. split; [exact H1 |]. split; [exact H2 |]. split; [exact H3 |].
  unfold calculateAxisGeometry in H5. injection H5 as Hx Hy _.
  destruct i as [| k].
  - split; [exact H4 |]. subst s. cbn [X Y segmentLength] in Hx, Hy.
    assert (H0 : nth 0 (junctionPoints data) 0 = 0).
    { subst data. unfold calculateTimelinePositionsAndStyles.
      rewrite junctionPoints_nth by lia. simpl. lra. }
    rewrite H0 in Hx, Hy. destruct t as [tx ty]. cbn [X Y] in Hx, Hy.
    f_equal; lra.
  - assert (Hk : exists prev, entries !! k = Some prev).
    { apply lookup_lt_is_Some. apply lookup_lt_Some in Hi. lia. }
    destruct Hk as (prev & Hk).
    destruct (calculateAxis_segments template entries data k prev Hk)
      as (s' & t' & th' & _ & G2 & G3 & _).
    fold axis in G2, G3. rewrite G2 in H4. cbn in H4. subst s.
    split; [exact G3 |]. exists prev. split; [exact Hk |].
    pose proof (entrySpacing_pos config prev
                  (initializeLayoutConfig_spacing_pos template)) as Hpos.
    split; [exact Hpos |].
    assert (Hlen : segmentLength (junctionPoints data) (S k)
                   = entrySpacing config prev).
    { unfold segmentLength. subst data.
      unfold calculateTimelinePositionsAndStyles.
      rewrite (junctionPoints_step template config entries 0 k prev Hk). lra. }
    rewrite Hlen in Hx, Hy.
    match type of Hx with
    | context [cos ?a] =>
        pose proof (sin2_cos2 a) as Hsc; unfold Rsqr in Hsc;
        set (co := cos a) in *; set (si := sin a) in *
    end.
    set (len := entrySpacing config prev) in *.
    replace ((X t - X t') * (X t - X t') + (Y t - Y t') * (Y t - Y t'))
      with (len * len).
    + apply sqrt_square. lra.
    + rewrite <- Hx, <- Hy. 
      replace (X t' + len * co - X t') with (len * co) by lra.
      replace (Y t' + len * si - Y t') with (len * si) by lra.
      nra.
Qed.

Lemma entries_one_spacing_apart_witness :
  let config := initializeLayoutConfig sampleTemplate in
  let data :=
    calculateTimelinePositionsAndStyles sampleEntries sampleTemplate config in
  let axis := calculateAxis sampleTemplate sampleEntries data in
  exists s t : AxisPoint,
    segmentStartPoints axis !! 1%nat = Some s
    /\ segmentEndPoints axis !! 1%nat = Some t
    /\ entryAxisPoints axis !! 1%nat = Some t
    /\ entryAxisPoints axis !! 0%nat = Some s
    /\ exists prev, sampleEntries !! 0%nat = Some prev
         /\ 0 < entrySpacing config prev
         /\ sqrt ((X t - X s) * (X t - X s) + (Y t - Y s) * (Y t - Y s))
            = entrySpacing config prev.
Proof.
  exact (entries_one_spacing_apart sampleTemplate sampleEntries 1
           (plainEntry "2002") eq_refl).
Defined.

(** X13.  The layout configuration never holds a value the drawing code
    cannot use: padding, default spacing, connector length and centre line
    width are positive (the template's value when that is positive, else
    50, 150, 50 and 2) and the base colour is not empty (the template's
    colour, else black).  Hence every entry has a positive spacing and
    every segment colour computed for an entry is a non-empty string. *)
Theorem layout_config_is_usable (template : Template)
    (entries : list TimelineEntry) :
  let config := initializeLayoutConfig template in
  let data := calculateTimelinePositionsAndStyles entries template config in
  let layout := t_Layout template in
  let line := t_CenterLine template in
  let orDefault (given fallback value : R) :=
    0 < value /\ (value = given \/ given <= 0 /\ value = fallback) in
  orDefault (lo_Padding layout) 50 (layoutPadding config)
  /\ orDefault (lo_EntrySpacing layout) 150 (defaultEntrySpacing config)
  /\ orDefault (lo_ConnectorLength layout) 50 (defaultConnectorLength config)
  /\ orDefault (float64 (cl_Width line)) 2 (centerLineWidth config)
  /\ centerLineBaseColor config <> ""
  /\ (centerLineBaseColor config = cl_Color line
      \/ cl_Color line = "" /\ centerLineBaseColor config = "#000000")
  /\ length (segmentColors data) = length entries
  /\ (forall colour, colour ∈ segmentColors data -> colour <> "")
  /\ (forall entry, entry ∈ entries -> 0 < entrySpacing config entry).
Proof.
  intros config data layout line orDefault.
  assert (Hcol : centerLineBaseColor config <> "").
  { subst config. unfold initializeLayoutConfig. cbn.
    destruct (cl_Color (t_CenterLine template) =? "") eqn:E; [done |].
    by apply String.eqb_neq. }
  subst orDefault. cbv beta.
  split; [subst config layout; unfold initializeLayoutConfig; cbn;
          rdecide; lra |].
  split; [subst config layout; unfold initializeLayoutConfig; cbn;
          rdecide; lra |].
  split; [subst config layout; unfold initializeLayoutConfig; cbn;
          rdecide; lra |].
  split; [subst config line; unfold initializeLayoutConfig; cbn;
          rdecide; lra |].
  split; [exact Hcol |].
  split.
  { subst config line. unfold initializeLayoutConfig. cbn.
    destruct (cl_Color (t_CenterLine template) =? "") eqn:E; [| by left].
    right. apply String.eqb_eq in E. done. }
  subst data. unfold calculateTimelinePositionsAndStyles.
  split; [| split].
  - generalize 0 as pos.
    induction entries as [| e es IH]; intros pos; simpl;
      [done | by rewrite IH].
  - generalize 0 as pos.
    induction entries as [| e es IH]; intros pos colour Hin;
      simpl in Hin; [by apply elem_of_nil in Hin |].
    apply elem_of_cons in Hin as [-> | Hin]; [| by eapply IH].
    destruct (cp_Color _ =? "") eqn:E; [exact Hcol |].
    by apply String.eqb_neq.
  - intros entry _. apply entrySpacing_pos.
    apply initializeLayoutConfig_spacing_pos.
Qed.

(** ** The year element *)

Lemma year_shape_cases (params : YearShapeParams) (c : Canvas) :
  timelineBounds (drawYearShape params c) = timelineBounds c
  /\ exists shape,
       svg (drawYearShape params c) = (svg c ++ shape)%list
       /\ (length shape <= 1)%nat
       /\ Forall (fun p => isYearShape p = true) shape.
Proof.
  unfold drawYearShape.
  repeat match goal with
         | |- context [if ?t then _ else _] => destruct t
         end;
    (split; [reflexivity |]);
    first [ exists []; split; [symmetry; apply app_nil_r |];
            split; [simpl; lia | constructor]
          | eexists; split; [reflexivity |];
            split; [simpl; lia | repeat constructor] ].
Qed.

(** X14.  [drawYearShape] draws at most one shape, centred on the given
    centre, and never a degenerate one: a circle has either the positive
    radius of the parameters or, for a negative ('auto') radius, a radius
    of at least 6 that leaves 4 around the text in both directions; a
    rectangle has the positive width and height of the parameters.  The
    bounds and the log are left as they are: the shape is not counted in
    the extent of the drawing. *)
Theorem year_shape_has_size (params : YearShapeParams) (c : Canvas) :
  let c' := drawYearShape params c in
  let style := ysp_YearStyle params in
  let given key := default 0 (ysp_ShapeParams params !! key) in
  timelineBounds c' = timelineBounds c
  /\ logged c' = logged c
  /\ exists shape,
       svg c' = (svg c ++ shape)%list
       /\ (shape = []
           \/ (exists r,
                 shape = [YearCircle (ysp_CenterX params) (ysp_CenterY params)
                            r (yt_FillColor style) (yt_BorderColor style)
                            (yt_BorderWidth style)]
                 /\ ysp_ShapeType params = "circle"
                 /\ (0 < given "r" /\ r = given "r"
                     \/ given "r" < 0 /\ 6 <= r
                        /\ ysp_TextWidth params / 2 + 4 <= r
                        /\ ysp_TextHeight params / 2 + 4 <= r))
           \/ (exists w h,
                 shape = [YearRect (ysp_CenterX params - w / 2)
                            (ysp_CenterY params - h / 2) w h
                            (yt_FillColor style) (yt_BorderColor style)
                            (yt_BorderWidth style)]
                 /\ ysp_ShapeType params = "rectangle"
                 /\ w = given "w" /\ h = given "h" /\ 0 < w /\ 0 < h)).
Proof.
  intros c' style given. subst c' style given. unfold drawYearShape.
  destruct (ysp_ShapeType params =? "circle") eqn:Hc.
  - apply String.eqb_eq in Hc.
    set (r := default 0 (ysp_ShapeParams params !! "r")).
    set (tw := ysp_TextWidth params / 2).
    set (th := ysp_TextHeight params / 2).
    pose proof (Rmax_l tw th). pose proof (Rmax_r tw th).
    unfold Rltb, Reqb.
    destruct (Rlt_dec r 0) as [Hneg | Hnn].
    + split; [reflexivity |]. split; [reflexivity |].
      eexists. split; [reflexivity |]. right. left.
      eexists. split; [reflexivity |]. split; [exact Hc |]. right.
      split; [exact Hneg |].
      destruct (Rlt_dec (Rmax tw th + 4) (4 * (15 / 10))); lra.
    + destruct (Req_dec_T r 0) as [Hz | Hnz].
      * split; [reflexivity |]. split; [reflexivity |].
        exists []. split; [symmetry; apply app_nil_r | by left].
      * split; [reflexivity |]. split; [reflexivity |].
        eexists. split; [reflexivity |]. right. left.
        eexists. split; [reflexivity |]. split; [exact Hc |]. left.
        split; [lra | reflexivity].
  - destruct (ysp_ShapeType params =? "rectangle") eqn:Hr.
    + apply String.eqb_eq in Hr.
      set (w := default 0 (ysp_ShapeParams params !! "w")).
      set (h := default 0 (ysp_ShapeParams params !! "h")).
      unfold Rgtb, Rltb.
      destruct (Rlt_dec 0 w) as [Hw |]; destruct (Rlt_dec 0 h) as [Hh |];
        cbn [andb];
        (split; [reflexivity |]); (split; [reflexivity |]);
        try (exists []; split; [symmetry; apply app_nil_r | by left]).
      eexists. split; [reflexivity |]. right. right.
      exists w, h. repeat split; assumption.
    + split; [reflexivity |]. split; [reflexivity |].
      exists []. split; [symmetry; apply app_nil_r | by left].
Qed.

(** X15.  [drawYearElement] writes, in this order: the opening link tag
    when the entry has a link, at most one background shape, the label
    text with the period of the entry at the given centre, and the closing
    link tag exactly when there was an opening one.  The bounds grow by
    the estimated text box only, which is centred on the label, as high as
    the font size and at most 200 wide. *)
Theorem year_element_structure (ParseFloat : string -> option R)
    (entry : TimelineEntry) (yearStyle : YearTextStyle) (cx cy : R)
    (c : Canvas) :
  let c' := drawYearElement ParseFloat entry yearStyle cx cy c in
  let linked := negb (e_Link entry =? "") in
  let text :=
    YearText cx cy (yt_Font yearStyle) (yt_TextColor yearStyle)
      (e_Period entry) in
  exists shape width,
    svg c'
    = (svg c ++ (if linked then [LinkOpen (e_Link entry)] else [])
         ++ shape ++ [text] ++ (if linked then [LinkClose] else []))%list
    /\ (length shape <= 1)%nat
    /\ Forall (fun p => isYearShape p = true) shape
    /\ width <= 200
    /\ timelineBounds c'
       = updateRect (timelineBounds c) (cx - width / 2)
           (cy - float64 (f_FontSize (yt_Font yearStyle)) / 2) width
           (float64 (f_FontSize (yt_Font yearStyle))).
Proof.
  intros c' linked text. subst c' linked text. unfold drawYearElement.
  destruct (parseShapeString ParseFloat (yt_Shape yearStyle))
    as [[shapeType shapeParams] err].
  set (width := Rmin _ 200).
  assert (Hw : width <= 200) by apply Rmin_r.
  destruct err as [e |]; cbv beta iota zeta;
    match goal with
    | |- context [drawYearShape ?p ?c0] =>
        destruct (year_shape_cases p c0) as (Hb & shape & Hs & Hl & Hk);
        set (d := drawYearShape p c0) in *
    end;
    destruct (negb (e_Link entry =? ""));
    exists shape, width;
    (split; [cbn [svg emit boundsRect logPrintf] in *; rewrite Hs;
             cbn [svg emit boundsRect logPrintf];
             rewrite <- ?app_assoc; reflexivity |]);
    (split; [exact Hl |]); (split; [exact Hk |]); (split; [exact Hw |]);
    cbn [timelineBounds emit boundsRect logPrintf] in *; rewrite Hb;
    reflexivity.
Qed.

(** ** Edge cases of padding strings *)

Lemma Fields_onlySpaces s : onlySpaces s = true -> strings.Fields s = [].
Proof.
  induction s as [| c r IH]; [reflexivity |].
  simpl. destruct (strings.isSpace c); [exact IH | discriminate].
Qed.

(** X16.  A padding string without any token (empty, or white space only)
    gives no padding at all, and of more than four tokens only the first
    four count, as top, right, bottom and left.  So "   " gives
    (0, 0, 0, 0) and "1 2 3 4 5" gives (1, 2, 3, 4). *)
Theorem padding_edge_cases (ParseFloat : string -> option R) :
  ParseFloat "1" = Some 1 -> ParseFloat "2" = Some 2 ->
  ParseFloat "3" = Some 3 -> ParseFloat "4" = Some 4 ->
  let value := paddingValue ParseFloat in
  (forall s, onlySpaces s = true -> parsePadding ParseFloat s = (0, 0, 0, 0))
  /\ (forall s a b c d e rest,
        strings.Fields s = a :: b :: c :: d :: e :: rest ->
        parsePadding ParseFloat s = (value a, value b, value c, value d))
  /\ parsePadding ParseFloat "   " = (0, 0, 0, 0)
  /\ parsePadding ParseFloat "1 2 3 4 5" = (1, 2, 3, 4).
Proof.
  intros H1 H2 H3 H4 value.
  assert (Hnone : forall s, onlySpaces s = true ->
            parsePadding ParseFloat s = (0, 0, 0, 0)).
  { intros s Hs. unfold parsePadding. rewrite (Fields_onlySpaces s Hs).
    by destruct (s =? ""). }
  assert (Hmany : forall s a b c d e rest,
            strings.Fields s = a :: b :: c :: d :: e :: rest ->
            parsePadding ParseFloat s = (value a, value b, value c, value d)).
  { intros s a b c d e rest Hs. unfold parsePadding.
    rewrite (Fields_nonempty s _ _ Hs), Hs. reflexivity. }
  split; [exact Hnone |]. split; [exact Hmany |].
  split; [by apply Hnone |].
  rewrite (Hmany "1 2 3 4 5" "1" "2" "3" "4" "5" []) by reflexivity.
  subst value. unfold paddingValue. by rewrite H1, H2, H3, H4.
Qed.

Lemma padding_edge_cases_witness :
  parsePadding parseDecimal "   " = (0, 0, 0, 0)
  /\ parsePadding parseDecimal "1 2 3 4 5" = (1, 2, 3, 4).
Proof.
  destruct (padding_edge_cases parseDecimal eq_refl eq_refl eq_refl eq_refl)
    as (_ & _ & H0 & H5).
  split; [exact H0 | exact H5].
Defined.

(** ** Dash patterns *)

(** X17.  For a line width below 2^61 (so that no product overflows):
    "dotted" and "dashed" are the only line types with a dash pattern, and
    the pattern always has a positive dash and a positive gap: a width of
    0 or less counts as 1, the gap is twice the width, a dot is as long as
    the width and a dash four times as long. *)
Theorem dash_pattern_positive (styleType : string) (width : Z) :
  (width < 2 ^ 61)%Z ->
  let w := Z.max 1 width in
  match getStrokeDashArray styleType width with
  | Some (dash, gap) =>
      (0 < dash)%Z /\ (0 < gap)%Z /\ gap = (2 * w)%Z
      /\ (styleType = "dotted" /\ dash = w
          \/ styleType = "dashed" /\ dash = (4 * w)%Z)
  | None => styleType <> "dotted" /\ styleType <> "dashed"
  end.
Proof.
  intros _ w. unfold getStrokeDashArray.
  assert (Hw : (if (width <=? 0)%Z then 1%Z else width) = w).
  { subst w. destruct (Z.leb_spec width 0); lia. }
  rewrite Hw. assert (1 <= w)%Z by lia.
  destruct (styleType =? "dotted") eqn:Hd.
  { apply String.eqb_eq in Hd. repeat split; try lia.
    left. split; [exact Hd | lia]. }
  destruct (styleType =? "dashed") eqn:Ha.
  { apply String.eqb_eq in Ha. repeat split; try lia.
    right. split; [exact Ha | lia]. }
  split; by apply String.eqb_neq.
Qed.

Lemma dash_pattern_positive_witness :
  getStrokeDashArray "dashed" 0 = Some (4%Z, 2%Z).
Proof.
  pose proof (dash_pattern_positive "dashed" 0 eq_refl) as H.
  cbv zeta in H. destruct (getStrokeDashArray "dashed" 0) as [[dash gap] |].
  - destruct H as (_ & _ & -> & [[Hd _] | [_ ->]]); [discriminate |].
    reflexivity.
  - by destruct H as [_ H].
Defined.

(** ** Sides by position name *)

(** X18.  [getCrossAxisDirection] always answers -1 (start) or +1 (end) and
    ignores the orientation.  "end" is +1; "alternate-start-end" is -1 on
    even and +1 on odd indices, "alternate-end-start" the opposite, so
    both change sides from one index to the next; the empty position,
    "start" and every unknown position name are -1. *)
Theorem cross_axis_direction_by_position (position : string) (index : Z)
    (isHorizontal : bool) :
  let dir := getCrossAxisDirection position index isHorizontal in
  (dir = -1 \/ dir = 1)
  /\ getCrossAxisDirection position index (negb isHorizontal) = dir
  /\ (position = "end" -> dir = 1)
  /\ (position = "alternate-start-end" ->
      dir = (if Z.even index then -1 else 1)
      /\ getCrossAxisDirection position (index + 1) isHorizontal = - dir
      /\ getCrossAxisDirection "alternate-end-start" index isHorizontal
         = - dir)
  /\ (position = "alternate-end-start" ->
      dir = (if Z.even index then 1 else -1)
      /\ getCrossAxisDirection position (index + 1) isHorizontal = - dir)
  /\ (position <> "end" -> position <> "alternate-start-end" ->
      position <> "alternate-end-start" -> dir = -1).
Proof.
  intros dir. subst dir.
  assert (Hrem : forall n : Z, (Z.rem n 2 =? 0)%Z = Z.even n).
  { intros n. apply Bool.eq_iff_eq_true.
    rewrite Z.eqb_eq, Z.even_spec, Z.rem_divide by lia.
    split; intros [m ->]; exists m; lia. }
  assert (Hnext : Z.even (index + 1) = negb (Z.even index)).
  { rewrite Z.add_1_r, Z.even_succ, <- Z.negb_even. reflexivity. }
  split.
  { unfold getCrossAxisDirection.
    repeat match goal with
           | |- context [if ?t then _ else _] => destruct t
           end; auto. }
  split; [reflexivity |].
  split; [intros ->; reflexivity |].
  split.
  { intros ->. unfold getCrossAxisDirection. cbn. rewrite !Hrem, Hnext.
    destruct (Z.even index); cbn; repeat split; lra. }
  split.
  { intros ->. unfold getCrossAxisDirection. cbn. rewrite !Hrem, Hnext.
    destruct (Z.even index); cbn; repeat split; lra. }
  intros He Ha Hb. unfold getCrossAxisDirection.
  destruct (position =? "") eqn:E0; [reflexivity |].
  destruct (position =? "start"); [reflexivity |].
  apply String.eqb_neq in He, Ha, Hb. by rewrite He, Ha, Hb.
Qed.

Lemma cross_axis_direction_by_position_witness :
  getCrossAxisDirection "alternate-start-end" 2 true = -1
  /\ getCrossAxisDirection "alternate-start-end" (2 + 1) true = - -1
  /\ getCrossAxisDirection "sideways" 2 true = -1.
Proof.
  destruct (cross_axis_direction_by_position "alternate-start-end" 2 true)
    as (_ & _ & _ & H & _).
  destruct (H eq_refl) as (H2 & H3 & _).
  destruct (cross_axis_direction_by_position "sideways" 2 true)
    as (_ & _ & _ & _ & _ & Hs).
  split; [exact H2 |]. split; [rewrite H3, H2; reflexivity |].
  apply Hs; discriminate.
Defined.

(** ** Junction markers *)

(** X19.  [drawJunctionMarker] leaves the canvas untouched for the shape
    "none", for a size of 0 or less and for every shape name it does not
    know.  "arrow" and "diamond" are drawn alike: two triangles that share
    the edge through the centre along the axis, of the length of the size,
    with their tips half the size away from the centre on either side of
    the axis; "circle" is a circle of half the size as radius.  Whenever
    something is drawn, the bounds afterwards are set and hold the square
    of the given size around the centre. *)
Theorem junction_marker_shapes (params : JunctionMarkerParams) (c : Canvas) :
  let c' := drawJunctionMarker params c in
  let style := jmp_Style params in
  let cx := jmp_CenterX params in
  let cy := jmp_CenterY params in
  let half := jm_Size style / 2 in
  let fill := jmp_MarkerColor params in
  let tip (d : R) := if jmp_IsHorizontal params then (cx, cy + d) else (cx + d, cy) in
  let edge (d : R) := if jmp_IsHorizontal params then (cx + d, cy) else (cx, cy + d) in
  let triangle (a b e : R * R) :=
    MarkerPolygon (fst a) (snd a) (fst b) (snd b) (fst e) (snd e) fill in
  logged c' = logged c
  /\ (c' = c
      /\ (jm_Shape style = "none" \/ jm_Size style <= 0
          \/ (jm_Shape style <> "arrow" /\ jm_Shape style <> "diamond"
              /\ jm_Shape style <> "circle"))
      \/ 0 < jm_Size style
         /\ (svg c' = (svg c ++ [MarkerCircle cx cy half fill])%list
             /\ jm_Shape style = "circle"
             \/ svg c'
                = (svg c ++ [triangle (tip half) (edge (- half)) (edge half);
                             triangle (tip (- half)) (edge (- half))
                               (edge half)])%list
                /\ (jm_Shape style = "arrow" \/ jm_Shape style = "diamond"))
         /\ isSet (timelineBounds c') = true
         /\ inside (timelineBounds c') (cx - half) (cy - half)
         /\ inside (timelineBounds c') (cx + half) (cy + half)).
Proof.
  intros c' style cx cy half fill tip edge triangle.
  subst c' tip edge triangle. unfold drawJunctionMarker. fold style.
  destruct (jm_Shape style =? "none") eqn:Hn.
  { apply String.eqb_eq in Hn. cbn [orb]. split; [reflexivity |].
    left. split; [reflexivity | by left]. }
  cbn [orb]. unfold Rleb.
  destruct (Rle_dec (jm_Size style) 0) as [Hle | Hpos].
  { split; [reflexivity |]. left. split; [reflexivity | right; by left]. }
  assert (H0 : 0 < jm_Size style) by lra.
  assert (Hh : 0 < half) by (subst half; lra).
  fold cx cy half fill.
  assert (Hpts : forall b,
            let b' := updatePoint (updatePoint b (cx - half) (cy - half))
                        (cx + half) (cy + half) in
            isSet b' = true
            /\ inside b' (cx - half) (cy - half)
            /\ inside b' (cx + half) (cy + half)).
  { intros b b'. subst b'.
    split; [apply updatePoint_isSet |]. split; [| apply inside_updatePoint].
    eapply inside_covers; [| apply inside_updatePoint].
    apply updatePoint_covers, updatePoint_isSet. }
  destruct (jm_Shape style =? "arrow") eqn:Ha.
  { apply String.eqb_eq in Ha. cbn [orb].
    destruct (jmp_IsHorizontal params);
      (split; [reflexivity |]); right; (split; [exact H0 |]);
      cbn [svg emit boundsPoint timelineBounds fst snd];
      (split; [right; split; [rewrite <- app_assoc; reflexivity | by left] |]);
      apply Hpts. }
  destruct (jm_Shape style =? "diamond") eqn:Hd.
  { apply String.eqb_eq in Hd. cbn [orb].
    destruct (jmp_IsHorizontal params);
      (split; [reflexivity |]); right; (split; [exact H0 |]);
      cbn [svg emit boundsPoint timelineBounds fst snd];
      (split; [right; split; [rewrite <- app_assoc; reflexivity | by right] |]);
      apply Hpts. }
  cbn [orb].
  destruct (jm_Shape style =? "circle") eqn:Hc.
  { apply String.eqb_eq in Hc. split; [reflexivity |]. right.
    split; [exact H0 |].
    cbn [svg emit boundsRect timelineBounds].
    split; [left; split; [reflexivity | exact Hc] |].
    unfold updateRect, Rgtb, Rltb.
    destruct (Rlt_dec 0 (jm_Size style)); [| contradiction]. cbn [andb].
    replace (cx - half + jm_Size style) with (cx + half) by (subst half; lra).
    replace (cy - half + jm_Size style) with (cy + half) by (subst half; lra).
    apply Hpts. }
  split; [reflexivity |]. left. split; [reflexivity |].
  right. right. apply String.eqb_neq in Ha, Hd, Hc. done.
Qed.

(** ** The parts of a comment block *)

(** X20.  [drawComment] writes at most one background, one title, one title
    line and one body region, in this order.  The background is drawn exactly for the shape "rectangle", the title
    exactly when the title text is not empty, the body region exactly when
    there is body text or an image.  The title line is drawn exactly when
    there is a title and the line is visible with positive length and
    width: without a title the layout still reserves the room of a visible
    title line, but the line itself is left out.  Something is logged
    only for an image that is given as a local path (neither "http://",
    "https://" nor "data:" in front): the attempt to read the file,
    followed by the success or by the warning that it cannot be read. *)
Theorem comment_block_parts (ParseFloat : string -> option R)
    (ReadImage : string -> option string)
    (params : CommentParams) (c : Canvas) :
  let c' := drawComment ParseFloat ReadImage params c in
  let style := cmt_Style params in
  let line := ct_TitleLine style in
  let image := cmt_ImageURL params in
  exists background title rule body events,
    svg c' = (svg c ++ background ++ title ++ rule ++ body)%list
    /\ logged c' = (logged c ++ events)%list
    /\ (events = [] /\ (image = "" \/ isLocalImage image = false)
        \/ image <> "" /\ isLocalImage image = true
           /\ (events = [LogImageAttempt image; LogImageEmbedded image]
               /\ ReadImage image <> None
               \/ events = [LogImageAttempt image; WarnImageRead image]
                  /\ ReadImage image = None))
    /\ optionalPart isCommentBackground background
    /\ optionalPart isCommentTitle title
    /\ optionalPart isCommentTitleLine rule
    /\ optionalPart isCommentBody body
    /\ (background <> [] <-> ct_Shape style = "rectangle")
    /\ (title <> [] <-> cmt_TitleText params <> "")
    /\ (rule <> [] <->
        cmt_TitleText params <> "" /\ tl_Visible line = true
        /\ 0 < tl_Length line /\ 0 < tl_Width line)
    /\ (body <> [] <-> cmt_BodyText params <> "" \/ cmt_ImageURL params <> "")
    /\ (cmt_TitleText params = "" -> tl_Visible line = true ->
        0 < tl_Length line -> 0 < tl_Width line ->
        let layout := calculateCommentBlockLayout ParseFloat params in
        bodyAbsY layout
        = blockY layout + padTop layout + tl_Margin line + tl_Width line
          + tl_Margin line).
Proof.
  intros c' style line image. subst c'. unfold drawComment.
  fold style. fold line.
  set (layout := calculateCommentBlockLayout ParseFloat params).
  assert (Hfo : foHeight layout
                = calculateForeignObjectHeight (cmt_BodyText params)
                    (cmt_ImageURL params)).
  { subst layout. unfold calculateCommentBlockLayout.
    destruct (parsePadding ParseFloat _) as [[[pt pr] pb] pl].
    destruct (negb (cmt_TitleText params =? ""));
      destruct (tl_Visible _ && Rgtb _ 0 && Rgtb _ 0);
      destruct (calculateBlockPosition _ _ _ _ _ _); reflexivity. }
  assert (Hroom : cmt_TitleText params = "" -> tl_Visible line = true ->
                  0 < tl_Length line -> 0 < tl_Width line ->
                  bodyAbsY layout
                  = blockY layout + padTop layout + tl_Margin line
                    + tl_Width line + tl_Margin line).
  { intros Ht Hv Hl Hw. subst layout. unfold calculateCommentBlockLayout.
    fold style. fold line. rewrite Ht, Hv. cbn [negb String.eqb andb].
    unfold Rgtb, Rltb.
    destruct (Rlt_dec 0 (tl_Width line)); [| contradiction].
    destruct (Rlt_dec 0 (tl_Length line)); [| contradiction].
    destruct (parsePadding ParseFloat _) as [[[pt pr] pb] pl].
    cbn [andb].
    destruct (calculateBlockPosition _ _ _ _ _ _). cbn. lra. }
  clearbody layout. cbv zeta.
  set (c1 := drawCommentBackground style layout c).
  set (c2 := if negb (cmt_TitleText params =? "") then drawCommentTitle _ c1
             else c1).
  set (c3 := if negb (cmt_TitleText params =? "") && tl_Visible line
                && Rgtb (tl_Length line) 0 && Rgtb (tl_Width line) 0
             then drawCommentTitleLine _ c2 else c2).
  assert (H1 : exists part,
             svg c1 = (svg c ++ part)%list /\ logged c1 = logged c
             /\ optionalPart isCommentBackground part
             /\ (part <> [] <-> ct_Shape style = "rectangle")).
  { subst c1. unfold drawCommentBackground, optionalPart.
    destruct (String.eqb_spec (ct_Shape style) "rectangle") as [Hs | Hs].
    - eexists. split; [reflexivity |]. split; [reflexivity |].
      split; [split; [simpl; lia | repeat constructor] |]. done.
    - exists []. split; [symmetry; apply app_nil_r |].
      split; [reflexivity |]. split; [split; [simpl; lia | constructor] |].
      done. }
  assert (H2 : exists part,
             svg c2 = (svg c1 ++ part)%list /\ logged c2 = logged c1
             /\ optionalPart isCommentTitle part
             /\ (part <> [] <-> cmt_TitleText params <> "")).
  { subst c2. unfold drawCommentTitle, optionalPart.
    destruct (String.eqb_spec (cmt_TitleText params) "") as [Ht | Ht];
      cbn [negb].
    - exists []. split; [symmetry; apply app_nil_r |].
      split; [reflexivity |]. split; [split; [simpl; lia | constructor] |].
      done.
    - eexists. split; [reflexivity |]. split; [reflexivity |].
      split; [split; [simpl; lia | repeat constructor] |]. done. }
  assert (H3 : exists part,
             svg c3 = (svg c2 ++ part)%list /\ logged c3 = logged c2
             /\ optionalPart isCommentTitleLine part
             /\ (part <> [] <->
                 cmt_TitleText params <> "" /\ tl_Visible line = true
                 /\ 0 < tl_Length line /\ 0 < tl_Width line)).
  { subst c3. unfold drawCommentTitleLine, optionalPart, Rgtb, Rltb.
    destruct (String.eqb_spec (cmt_TitleText params) "") as [Ht | Ht];
      destruct (tl_Visible line);
      destruct (Rlt_dec 0 (tl_Length line));
      destruct (Rlt_dec 0 (tl_Width line));
      cbn [negb andb];
      first
        [ exists []; split; [symmetry; apply app_nil_r |];
          split; [reflexivity |];
          split; [split; [simpl; lia | constructor] |];
          split; [done | intros (? & ? & ? & ?); done]
        | eexists; split; [reflexivity |]; split; [reflexivity |];
          split; [split; [simpl; lia | repeat constructor] |]; done ]. }
  set (bodyParams := {| cbp_Params := params; cbp_BodyFont := ct_Font style;
                        cbp_TextColor :=
                          if ct_TextColor style =? ""
                          then cmt_DefaultColor params else ct_TextColor style;
                        cbp_Layout := layout |}).
  set (c4 := if Rgtb (foHeight layout) 0
             then drawCommentBody ReadImage bodyParams c3 else c3).
  assert (H4 : exists part events,
             svg c4 = (svg c3 ++ part)%list
             /\ logged c4 = (logged c3 ++ events)%list
             /\ (events = [] /\ (image = "" \/ isLocalImage image = false)
                 \/ image <> "" /\ isLocalImage image = true
                    /\ (events = [LogImageAttempt image; LogImageEmbedded image]
                        /\ ReadImage image <> None
                        \/ events = [LogImageAttempt image; WarnImageRead image]
                           /\ ReadImage image = None))
             /\ optionalPart isCommentBody part
             /\ (part <> [] <->
                 cmt_BodyText params <> "" \/ cmt_ImageURL params <> "")).
  { subst c4. rewrite Hfo.
    unfold calculateForeignObjectHeight, imagePlaceholderHeight,
      foreignObjectHeightEstimate, drawCommentBody, optionalPart, Rgtb, Rltb.
    cbn [cbp_Params bodyParams cmt_ImageURL]. fold image.
    destruct (String.eqb_spec (cmt_BodyText params) "") as [Hb | Hb];
      destruct (String.eqb_spec image "") as [Hi | Hi];
      cbn [negb andb];
      match goal with
      | |- context [Rlt_dec ?x ?y] => destruct (Rlt_dec x y); try lra
      end;
      try (exists [], []; split; [symmetry; apply app_nil_r |];
           split; [symmetry; apply app_nil_r |];
           split; [left; split; [reflexivity | by left] |];
           split; [split; [simpl; lia | constructor] |];
           split; [done | intros [? | ?]; done]).
    all: destruct (isLocalImage image) eqn:Hlocal;
      [destruct (ReadImage image) as [dataURI |] eqn:Hread |];
      eexists; eexists;
      (split; [cbn [svg emit logPrintf boundsRect]; reflexivity |]);
      (split; [cbn [logged emit logPrintf boundsRect];
               first [ rewrite <- app_assoc; reflexivity
                     | symmetry; apply app_nil_r ] |]);
      (split; [first [ left; split; [reflexivity | tauto]
                     | right; split; [assumption |];
                       split; [reflexivity |];
                       first [ left; split; [reflexivity | congruence]
                             | right; split; reflexivity ] ] |]);
      (split; [split; [simpl; lia | repeat constructor] |]);
      (split; [intros _; auto | done]). }
  destruct H1 as (background & S1 & L1 & K1 & E1).
  destruct H2 as (title & S2 & L2 & K2 & E2).
  destruct H3 as (rule & S3 & L3 & K3 & E3).
  destruct H4 as (body & events & S4 & L4 & V4 & K4 & E4).
  exists background, title, rule, body, events.
  split; [rewrite S4, S3, S2, S1, <- !app_assoc; reflexivity |].
  split; [rewrite L4, L3, L2, L1; reflexivity |].
  repeat (split; [assumption |]). exact Hroom.
Qed.

(** ** Runs on valid input *)

(** X21.  The input validation of [main] checks the export format first:
    an unsupported format is fatal whatever the template, the data and the
    output are.  With a supported format, an orientation of "horizontal"
    or "vertical" and at least one entry the validation passes, and a run
    for the format "svg" can then fail only at the output: when the output
    file cannot be created, or when writing fails.  Otherwise it succeeds,
    and what it writes is the document [GenerateSVG] assembles from the
    drawn timeline. *)
Theorem valid_svg_run_succeeds
    (generateSVG : Template -> list TimelineEntry -> Result SVGDocument)
    (generateHTML : Template -> list TimelineEntry -> Result string)
    (generateImage :
       Template -> list TimelineEntry -> string -> string -> option string)
    (createFile : string -> option string)
    (writeString : string -> Output -> option string)
    (ParseFloat : string -> option R)
    (ReadImage : string -> option string)
    (outputFile : string)
    (template : Template) (timelineData : TimelineData) :
  let orientation := cl_Orientation (t_CenterLine template) in
  let entries := td_Entries timelineData in
  let run generate :=
    main generate generateHTML generateImage createFile writeString
      outputFile template timelineData in
  let document :=
    assembleFinalSVG (drawTimeline ParseFloat ReadImage template entries)
      (layoutPadding (initializeLayoutConfig template))
      (t_GlobalFont template) in
  let svgRun :=
    run (fun t es => fst (GenerateSVG ParseFloat ReadImage t es)) "svg" in
  (forall exportFormat, supportedFormats exportFormat = false ->
     run generateSVG exportFormat = Fatal (UnsupportedFormat exportFormat))
  /\ (orientation = "horizontal" \/ orientation = "vertical" ->
      entries <> [] ->
      (forall exportFormat, supportedFormats exportFormat = true ->
         validateInputs template timelineData exportFormat = None)
      /\ (forall err, outputFile <> "" -> createFile outputFile = Some err ->
            svgRun = Fatal (OutputFileError outputFile err))
      /\ (outputFile = "" \/ createFile outputFile = None ->
          (forall err, writeString outputFile (OutSVG document) = Some err ->
             svgRun = Fatal (GenerationFailed "svg" err))
          /\ (writeString outputFile (OutSVG document) = None ->
              svgRun = Done (OutSVG document)))).
Proof.
  intros orientation entries run document svgRun. split.
  { intros exportFormat Hf. subst run. unfold main, validateInputs.
    by rewrite Hf. }
  intros Ho Hne.
  assert (Hval : forall exportFormat, supportedFormats exportFormat = true ->
             validateInputs template timelineData exportFormat = None).
  { intros exportFormat Hf. unfold validateInputs. rewrite Hf. cbn [negb].
    fold orientation. fold entries.
    assert (Hor : negb (orientation =? "horizontal")
                  && negb (orientation =? "vertical") = false)
      by (destruct Ho as [-> | ->]; reflexivity).
    rewrite Hor. destruct entries; [done | reflexivity]. }
  assert (Hgen : fst (GenerateSVG ParseFloat ReadImage template entries)
                 = Ok document).
  { unfold GenerateSVG. destruct entries; [done | reflexivity]. }
  split; [exact Hval |].
  subst svgRun run. unfold main. rewrite Hval by reflexivity. fold entries.
  change ("svg" =? "svg") with true. cbv iota beta. rewrite Hgen.
  split.
  - intros err Hfile Hcreate. apply String.eqb_neq in Hfile.
    by rewrite Hfile, Hcreate.
  - intros Hout.
    assert (Hcreated : (if negb (outputFile =? "") then createFile outputFile
                        else None) = None).
    { destruct Hout as [-> | Hc]; [reflexivity |].
      by destruct (negb (outputFile =? "")). }
    rewrite Hcreated. split.
    + intros err Hw. by rewrite Hw.
    + intros Hw. by rewrite Hw.
Qed.

Lemma valid_svg_run_succeeds_witness :
  main (fun t es => fst (GenerateSVG parseDecimal noImages t es))
    (fun _ _ => Err "unused") (fun _ _ _ _ => None)
    createsAnyFile writesAnything "timeline.svg"
    sampleTemplate {| td_Entries := sampleEntries |} "svg"
  = Done (OutSVG
            (assembleFinalSVG
               (drawTimeline parseDecimal noImages sampleTemplate
                  sampleEntries)
               (layoutPadding (initializeLayoutConfig sampleTemplate))
               (t_GlobalFont sampleTemplate))).
Proof.
  destruct (valid_svg_run_succeeds (fun _ _ => Err "unused")
              (fun _ _ => Err "unused") (fun _ _ _ _ => None)
              createsAnyFile writesAnything parseDecimal noImages
              "timeline.svg" sampleTemplate {| td_Entries := sampleEntries |})
    as [_ H].
  destruct H as (_ & _ & H); [by left | discriminate |].
  destruct H as [_ H]; [by right |]. by apply H.
Defined.

(** ** Drawing order *)

Lemma forRangeFrom_appends {A : Type} (f : nat -> A -> Canvas -> Canvas)
    (kind : Primitive -> Prop) (mark : A -> Primitive -> Prop) (l : list A) :
  (forall i a, exists out,
      appends (f i a) out /\ Forall kind out
      /\ exists p, p ∈ out /\ mark a p) ->
  forall i, exists out,
    appends (forRangeFrom f i l) out /\ Forall kind out
    /\ forall a, a ∈ l -> exists p, p ∈ out /\ mark a p.
Proof.
  intros Hf. induction l as [| a l IH]; intros i.
  - exists []. split; [intros c; symmetry; apply app_nil_r |].
    split; [constructor |]. intros a Ha. by apply elem_of_nil in Ha.
  - destruct (Hf i a) as (out1 & H1 & K1 & p1 & Hp1 & Hm1).
    destruct (IH (S i)) as (out2 & H2 & K2 & M2).
    exists (out1 ++ out2)%list.
    split; [intros c; simpl; rewrite H2, H1; by rewrite app_assoc |].
    split; [apply Forall_app; by split |].
    intros b Hb. apply elem_of_cons in Hb as [-> | Hb].
    + exists p1. split; [apply elem_of_app; by left | exact Hm1].
    + destruct (M2 b Hb) as (p & Hp & Hm).
      exists p. split; [apply elem_of_app; by right | exact Hm].
Qed.

Lemma forRangeFrom_appends_one {A : Type} (f : nat -> A -> Canvas -> Canvas)
    (kind : Primitive -> Prop) (l : list A) :
  (forall i a, exists p, appends (f i a) [p] /\ kind p) ->
  forall i, exists out,
    appends (forRangeFrom f i l) out /\ Forall kind out
    /\ length out = length l.
Proof.
  intros Hf. induction l as [| a l IH]; intros i.
  - exists []. split; [intros c; symmetry; apply app_nil_r |].
    split; [constructor | reflexivity].
  - destruct (Hf i a) as (p & H1 & K1).
    destruct (IH (S i)) as (out2 & H2 & K2 & L2).
    exists (p :: out2).
    split; [intros c; simpl; rewrite H2, H1; by rewrite <- app_assoc |].
    split; [by constructor | simpl; by rewrite L2].
Qed.

Lemma drawComment_block ParseFloat ReadImage params :
  exists block,
    appends (drawComment ParseFloat ReadImage params) block
    /\ Forall (fun p => isCommentBlock p = true) block.
Proof.
  unfold drawComment.
  set (layout := calculateCommentBlockLayout ParseFloat params).
  match goal with
  | |- context [drawCommentBody ReadImage ?p] =>
      destruct (drawCommentBody_spec ReadImage p) as (imgSrc & events & Hbody)
  end.
  unfold drawCommentBackground, drawCommentTitle, drawCommentTitleLine.
  destruct (ct_Shape (cmt_Style params) =? "rectangle");
    destruct (negb (cmt_TitleText params =? ""));
    destruct (tl_Visible (ct_TitleLine (cmt_Style params)));
    destruct (Rgtb (tl_Length (ct_TitleLine (cmt_Style params))) 0);
    destruct (Rgtb (tl_Width (ct_TitleLine (cmt_Style params))) 0);
    destruct (Rgtb (foHeight layout) 0);
    (eexists; split;
     [ intros c; rewrite ?Hbody; cbn [svg emit boundsPoint boundsRect andb];
       rewrite <- ?app_assoc;
       first [ reflexivity | symmetry; apply app_nil_r ]
     | repeat constructor ]).
Qed.

(** What one entry adds to the drawing: no axis line, and a label with the
    period of the entry. *)
Lemma drawTimelineEntry_on_top ParseFloat ReadImage params :
  exists out,
    appends (drawTimelineEntry ParseFloat ReadImage params) out
    /\ Forall (fun p => isAxisLine p = false) out
    /\ exists p, p ∈ out
         /\ exists x y font fill,
              p = YearText x y font fill (e_Period (tep_Entry params)).
Proof.
  assert (Hm : forall l, Forall (fun p => isMarker p = true) l ->
                 Forall (fun p => isAxisLine p = false) l).
  { intros l H. eapply Forall_impl; [exact H | by intros []]. }
  assert (Hl : forall l, Forall (fun p => isConnectorLine p = true) l ->
                 Forall (fun p => isAxisLine p = false) l).
  { intros l H. eapply Forall_impl; [exact H | by intros []]. }
  assert (Hd : forall l, Forall (fun p => isDot p = true) l ->
                 Forall (fun p => isAxisLine p = false) l).
  { intros l H. eapply Forall_impl; [exact H | by intros []]. }
  assert (Hy : forall l, Forall (fun p => isYearElement p = true) l ->
                 Forall (fun p => isAxisLine p = false) l).
  { intros l H. eapply Forall_impl; [exact H | by intros []]. }
  assert (Hc : forall l, Forall (fun p => isCommentBlock p = true) l ->
                 Forall (fun p => isAxisLine p = false) l).
  { intros l H. eapply Forall_impl; [exact H | by intros []]. }
  destruct (drawEntryYearPart_appends ParseFloat params)
    as (marker & lines & dots & year & Hyear & Km & Kl & _ & Kd & _ & Ky
        & x & y & font & fill & Hin).
  assert (Hpart : Forall (fun p => isAxisLine p = false)
                    (marker ++ lines ++ dots ++ year)).
  { repeat (apply Forall_app; split); auto. }
  assert (Hlabel : YearText x y font fill (e_Period (tep_Entry params))
                   ∈ (marker ++ lines ++ dots ++ year)%list).
  { rewrite !elem_of_app. auto. }
  unfold drawTimelineEntry.
  destruct (hasComment (tep_Entry params)).
  - assert (Hcomment : exists rest,
               appends (drawEntryCommentPart ParseFloat ReadImage params) rest
               /\ Forall (fun p => isAxisLine p = false) rest).
    { unfold drawEntryCommentPart.
      destruct (crossAxisDirections _ _ _) as [commentDir yearDir].
      destruct (calculateElementCenter _) as [anchorX anchorY].
      destruct (calculateCommentEdgePoint _ _ _) as [edgeX edgeY].
      match goal with
      | |- context [drawComment ParseFloat ReadImage ?p] =>
          destruct (drawComment_block ParseFloat ReadImage p) as (block & Hb & Kb)
      end.
      match goal with
      | |- context [drawConnector ?p] =>
          destruct (drawConnector_appends p)
            as (ls & ds & Hconn & Kls & _ & Kds & _)
      end.
      exists ((ls ++ ds) ++ block)%list. split.
      - intros c. rewrite Hb, Hconn. by rewrite <- !app_assoc.
      - repeat (apply Forall_app; split); auto. }
    destruct Hcomment as (rest & Hrest & Kr).
    exists ((marker ++ lines ++ dots ++ year) ++ rest)%list.
    split; [intros c; rewrite Hrest, Hyear; by rewrite <- !app_assoc |].
    split; [apply Forall_app; by split |].
    eexists. split; [apply elem_of_app; left; exact Hlabel |]. eauto.
  - exists (marker ++ lines ++ dots ++ year)%list.
    split; [exact Hyear |]. split; [exact Hpart |].
    eexists. split; [exact Hlabel |]. eauto.
Qed.

(** X22.  The body of the document [GenerateSVG] returns starts with the
    centre line, one axis segment per entry, and everything else follows:
    no axis segment is written after the first junction marker, connector,
    label or comment, so the entries are painted on top of the whole
    centre line; and for every entry a label with its period is among what
    follows. *)
Theorem centre_line_below_entries (ParseFloat : string -> option R)
    (ReadImage : string -> option string)
    (template : Template) (entries : list TimelineEntry) :
  entries <> [] ->
  exists doc axisLines rest,
    fst (GenerateSVG ParseFloat ReadImage template entries) = Ok doc
    /\ doc_Body doc = (axisLines ++ rest)%list
    /\ length axisLines = length entries
    /\ Forall (fun p => isAxisLine p = true) axisLines
    /\ Forall (fun p => isAxisLine p = false) rest
    /\ forall entry, entry ∈ entries ->
         exists x y font fill,
           YearText x y font fill (e_Period entry) ∈ rest.
Proof.
  intros Hne. unfold GenerateSVG.
  destruct entries as [| e es]; [done |]. cbn [List.length Nat.eqb fst].
  set (entries := e :: es).
  change (S (length es)) with (length entries).
  unfold drawTimeline.
  set (config := initializeLayoutConfig template).
  set (data := calculateTimelinePositionsAndStyles entries template config).
  set (axis := calculateAxis template entries data).
  set (c0 := boundsPoint 0 0 emptyCanvas).
  destruct (forRangeFrom_appends_one
              (fun i (_ : TimelineEntry) c =>
                 drawCenterLineSegment
                   {| clsp_X1 := X (nth i (segmentStartPoints axis)
                                      {| X := 0; Y := 0 |});
                      clsp_Y1 := Y (nth i (segmentStartPoints axis)
                                      {| X := 0; Y := 0 |});
                      clsp_X2 := X (nth i (segmentEndPoints axis)
                                      {| X := 0; Y := 0 |});
                      clsp_Y2 := Y (nth i (segmentEndPoints axis)
                                      {| X := 0; Y := 0 |});
                      clsp_Color :=
                        if nth i (segmentColors data) "" =? ""
                        then centerLineBaseColor config
                        else nth i (segmentColors data) "";
                      clsp_Width := centerLineWidth config;
                      clsp_LineType := cl_Type (t_CenterLine template);
                      clsp_RoundedCaps := centerLineIsRounded config |} c)
              (fun p => isAxisLine p = true) entries) with (i := 0%nat)
    as (axisLines & Haxis & Kaxis & Laxis).
  { intros i a. eexists. split; [intros c; reflexivity | reflexivity]. }
  destruct (forRangeFrom_appends
              (fun i entry c =>
                 drawTimelineEntry ParseFloat ReadImage
                   {| tep_Index := i; tep_Entry := entry; tep_Data := data;
                      tep_EntryAxisX := X (nth i (entryAxisPoints axis)
                                             {| X := 0; Y := 0 |});
                      tep_EntryAxisY := Y (nth i (entryAxisPoints axis)
                                             {| X := 0; Y := 0 |});
                      tep_IsHorizontal :=
                        cl_Orientation (t_CenterLine template) =? "horizontal";
                      tep_Config := config |} c)
              (fun p => isAxisLine p = false)
              (fun entry p => exists x y font fill,
                   p = YearText x y font fill (e_Period entry))
              entries) with (i := 0%nat)
    as (rest & Hrest & Krest & Mrest).
  { intros i a.
    destruct (drawTimelineEntry_on_top ParseFloat ReadImage
                {| tep_Index := i; tep_Entry := a; tep_Data := data;
                   tep_EntryAxisX := X (nth i (entryAxisPoints axis)
                                          {| X := 0; Y := 0 |});
                   tep_EntryAxisY := Y (nth i (entryAxisPoints axis)
                                          {| X := 0; Y := 0 |});
                   tep_IsHorizontal :=
                     cl_Orientation (t_CenterLine template) =? "horizontal";
                   tep_Config := config |}) as (out & H1 & H2 & H3).
    exists out. done. }
  eexists. exists axisLines, rest.
  split; [reflexivity |].
  split.
  { unfold assembleFinalSVG.
    match goal with
    | |- context [if ?t then _ else _] => destruct t
    end; cbn [doc_Body];
      unfold drawEntries, drawCenterLine, forRange;
      rewrite Hrest, Haxis; reflexivity. }
  split; [exact Laxis |]. split; [exact Kaxis |]. split; [exact Krest |].
  intros entry Hin. destruct (Mrest entry Hin) as (p & Hp & x & y & f & fl & ->).
  eauto.
Qed.

Lemma centre_line_below_entries_witness :
  exists doc axisLines rest,
    fst (GenerateSVG parseDecimal noImages sampleTemplate sampleEntries) = Ok doc
    /\ doc_Body doc = (axisLines ++ rest)%list
    /\ length axisLines = 3%nat
    /\ Forall (fun p => isAxisLine p = false) rest.
Proof.
  destruct (centre_line_below_entries parseDecimal noImages sampleTemplate
              sampleEntries) as (doc & axisLines & rest & H1 & H2 & H3 & _ & H5 & _);
    [discriminate |].
  exists doc, axisLines, rest. done.
Defined.

(** ** Connector dots *)

(** X23.  [drawConnectorDot] leaves the canvas untouched for a dot that is
    not visible, has the shape "none" or a size of 0 or less.  Otherwise
    the bounds grow by the square of the dot size around the dot position,
    also for a shape name that is not known and draws nothing.  A circle
    has half the size as radius and a square the size as side, both
    centred on the dot position.  An arrow has its base, as long as the
    size, through the dot position along the axis, and its tip across the
    axis: for a cross-axis direction of +1 or -1 the tip is 0.6 times the
    size away from the dot position, outside the square that the bounds
    record. *)
Theorem connector_dot_shapes (params : ConnectorDotParams) (dotX dotY : R)
    (c : Canvas) :
  let c' := drawConnectorDot params dotX dotY c in
  let style := cdp_DotStyle params in
  let size := float64 (dot_Size style) in
  let half := size / 2 in
  let dir := cdp_CrossAxisDir params in
  let fill :=
    if dot_Color style =? "" then cdp_DefaultColor params
    else dot_Color style in
  logged c' = logged c
  /\ (c' = c
      /\ (dot_Visible style = false \/ dot_Shape style = "none"
          \/ (dot_Size style <= 0)%Z)
      \/ 0 < size
         /\ isSet (timelineBounds c') = true
         /\ inside (timelineBounds c') (dotX - half) (dotY - half)
         /\ inside (timelineBounds c') (dotX + half) (dotY + half)
         /\ (svg c' = svg c
             /\ dot_Shape style <> "circle" /\ dot_Shape style <> "square"
             /\ dot_Shape style <> "arrow"
             \/ svg c' = (svg c ++ [DotCircle dotX dotY half fill])%list
                /\ dot_Shape style = "circle"
             \/ svg c'
                = (svg c ++ [DotSquare (dotX - half) (dotY - half) size size
                               fill])%list
                /\ dot_Shape style = "square"
             \/ exists tipX tipY,
                  svg c'
                  = (svg c
                       ++ [if cdp_IsHorizontal params
                           then DotArrow (dotX - half) dotY (dotX + half) dotY
                                  tipX tipY fill
                           else DotArrow dotX (dotY - half) dotX (dotY + half)
                                  tipX tipY fill])%list
                  /\ dot_Shape style = "arrow"
                  /\ (if cdp_IsHorizontal params
                      then tipX = dotX /\ tipY = dotY - dir * (size * (6 / 10))
                      else tipY = dotY /\ tipX = dotX - dir * (size * (6 / 10)))
                  /\ (dir = 1 \/ dir = -1 ->
                      ~ (dotX - half <= tipX <= dotX + half
                         /\ dotY - half <= tipY <= dotY + half)))).
Proof.
  intros c' style size half dir fill. subst c'. unfold drawConnectorDot.
  fold style.
  destruct (dot_Visible style) eqn:Hv; cbn [negb orb];
    [| split; [reflexivity |]; left; split; [reflexivity | by left]].
  destruct (String.eqb_spec (dot_Shape style) "none") as [Hn | Hn];
    cbn [orb];
    [split; [reflexivity |]; left; split; [reflexivity | right; by left] |].
  destruct (Z.leb_spec (dot_Size style) 0) as [Hle | Hpos];
    [split; [reflexivity |]; left; split; [reflexivity | right; by right] |].
  assert (H0 : 0 < size) by (subst size; unfold float64; by apply IZR_lt).
  assert (Hh : 0 < half) by (subst half; lra).
  fold size half fill dir.
  assert (Hsq : forall b,
            let b' := updateRect b (dotX - half) (dotY - half) size size in
            isSet b' = true
            /\ inside b' (dotX - half) (dotY - half)
            /\ inside b' (dotX + half) (dotY + half)).
  { intros b b'. subst b'. unfold updateRect, Rgtb, Rltb.
    destruct (Rlt_dec 0 size); [| contradiction]. cbn [andb].
    replace (dotX - half + size) with (dotX + half) by (subst half; lra).
    replace (dotY - half + size) with (dotY + half) by (subst half; lra).
    split; [apply updatePoint_isSet |]. split; [| apply inside_updatePoint].
    eapply inside_covers; [| apply inside_updatePoint].
    apply updatePoint_covers, updatePoint_isSet. }
  split.
  { repeat match goal with
           | |- context [if ?t then _ else _] => destruct t
           end; reflexivity. }
  right. split; [exact H0 |].
  destruct (String.eqb_spec (dot_Shape style) "circle") as [Hc | Hc].
  { cbn [timelineBounds svg emit boundsRect].
    split; [apply Hsq |]. split; [apply Hsq |]. split; [apply Hsq |].
    right. left. done. }
  destruct (String.eqb_spec (dot_Shape style) "square") as [Hs | Hs].
  { cbn [timelineBounds svg emit boundsRect].
    split; [apply Hsq |]. split; [apply Hsq |]. split; [apply Hsq |].
    right. right. left. done. }
  destruct (String.eqb_spec (dot_Shape style) "arrow") as [Ha | Ha].
  - destruct (cdp_IsHorizontal params);
      cbn [timelineBounds svg emit boundsRect];
      (split; [apply Hsq |]); (split; [apply Hsq |]); (split; [apply Hsq |]);
      right; right; right; eexists; eexists;
      (split; [reflexivity |]); (split; [exact Ha |]);
      (split; [split; [reflexivity | subst half; lra] |]);
      intros [Hd | Hd]; fold dir; rewrite Hd; subst half; lra.
  - cbn [timelineBounds svg emit boundsRect].
    split; [apply Hsq |]. split; [apply Hsq |]. split; [apply Hsq |].
    left. done.
Qed.

(** ** Connectors that are switched off *)

Lemma drawConnector_hidden params :
  conn_LineIsVisible params = false ->
  let dot := cs_Dot (conn_Style params) in
  exists dots,
    appends (drawConnector params) dots
    /\ Forall (fun p => isDot p = true) dots
    /\ (dot_Visible dot = true -> dot_Shape dot = "circle" ->
        (0 < dot_Size dot)%Z -> dots <> []).
Proof.
  intros Hvis dot. unfold drawConnector.
  destruct (calculateConnectorStyleAttributes _ _) as [[color width] dash].
  destruct (calculateConnectorVectors _ _ _ _) as [[[[ux uy] nx] ny] len].
  destruct (calculateConnectorDotPosition _ _ _ _ _ _ _) as [dotX dotY].
  unfold drawConnectorLineSegments. cbn [seg_ConnParams]. rewrite Hvis.
  cbn [negb]. unfold drawConnectorDot. cbn [cdp_DotStyle]. fold dot.
  destruct (dot_Visible dot) eqn:Hv; cbn [negb orb];
    [| exists []; split; [intros c; symmetry; apply app_nil_r |];
       split; [constructor | intros; discriminate]].
  destruct (String.eqb_spec (dot_Shape dot) "none") as [Hn | Hn]; cbn [orb];
    [exists []; split; [intros c; symmetry; apply app_nil_r |];
     split; [constructor | intros _ Hc; congruence] |].
  destruct (Z.leb_spec (dot_Size dot) 0) as [Hle | Hpos];
    [exists []; split; [intros c; symmetry; apply app_nil_r |];
     split; [constructor | intros; lia] |].
  destruct (String.eqb_spec (dot_Shape dot) "circle") as [Hc | Hc];
    [read_appended; split; [repeat constructor | done] |].
  destruct (dot_Shape dot =? "square");
    [read_appended; split; [repeat constructor | done] |].
  destruct (dot_Shape dot =? "arrow").
  - destruct (cdp_IsHorizontal _);
      read_appended; (split; [repeat constructor | done]).
  - read_appended. split; [constructor | intros; contradiction].
Qed.

(** X24.  The two connectors of an entry are switched off differently.
    With draw_to_period set to false the label part of the entry is the
    junction marker followed by the label and nothing else: neither
    connector line nor connector dot.  With draw_to_comment set to false
    the comment part has no connector line either, but the connector is
    still processed and its dot is drawn before the comment block (for a
    visible dot of shape "circle" and positive size there is one). *)
Theorem hidden_connectors_differ (ParseFloat : string -> option R)
    (ReadImage : string -> option string)
    (params : TimelineEntryParams) :
  let connStyle :=
    nth (tep_Index params) (connectorStyles (tep_Data params))
      zeroConnectorStyle in
  let dot := cs_Dot connStyle in
  (cs_DrawToPeriod connStyle = Some false ->
   exists marker year,
     appends (drawEntryYearPart ParseFloat params) (marker ++ year)%list
     /\ Forall (fun p => isMarker p = true) marker
     /\ Forall (fun p => isYearElement p = true) year)
  /\ (cs_DrawToComment connStyle = Some false ->
      exists dots block,
        appends (drawEntryCommentPart ParseFloat ReadImage params) (dots ++ block)%list
        /\ Forall (fun p => isDot p = true) dots
        /\ Forall (fun p => isCommentBlock p = true) block
        /\ (dot_Visible dot = true -> dot_Shape dot = "circle" ->
            (0 < dot_Size dot)%Z -> dots <> [])).
Proof.
  intros connStyle dot. split.
  - intros Hoff. unfold drawEntryYearPart. fold connStyle. rewrite Hoff.
    cbn [drawLine].
    destruct (crossAxisDirections _ _ _) as [commentDir yearDir].
    destruct (calculateElementCenter _) as [yearCenterX yearCenterY].
    match goal with
    | |- context [drawJunctionMarker ?p] =>
        destruct (drawJunctionMarker_appends p) as (marker & Hm & Km)
    end.
    match goal with
    | |- context [drawYearElement ParseFloat ?e ?s ?x ?y] =>
        destruct (drawYearElement_appends ParseFloat e s x y)
          as (year & Hy & Ky & _)
    end.
    exists marker, year. split; [| by split].
    intros c. rewrite Hy, Hm. by rewrite <- app_assoc.
  - intros Hoff. unfold drawEntryCommentPart. fold connStyle. rewrite Hoff.
    cbn [drawLine].
    destruct (crossAxisDirections _ _ _) as [commentDir yearDir].
    destruct (calculateElementCenter _) as [anchorX anchorY].
    destruct (calculateCommentEdgePoint _ _ _) as [edgeX edgeY].
    match goal with
    | |- context [drawComment ParseFloat ReadImage ?p] =>
        destruct (drawComment_block ParseFloat ReadImage p) as (block & Hb & Kb)
    end.
    match goal with
    | |- context [drawConnector ?p] =>
        destruct (drawConnector_hidden p eq_refl) as (dots & Hd & Kd & Ed)
    end.
    exists dots, block. split; [| by repeat split].
    intros c. rewrite Hb, Hd. by rewrite <- app_assoc.
Qed.

(** ** Where the entries are drawn *)

(** A loop whose steps only append keeps what an earlier step has drawn. *)
Lemma forRangeFrom_keeps {A : Type} (f : nat -> A -> Canvas -> Canvas)
    (l : list A) (p : Primitive) :
  (forall i a, exists out, appends (f i a) out) ->
  forall (start : nat) (c : Canvas),
    (p ∈ svg c
     \/ exists (k : nat) a,
          l !! k = Some a /\ forall c', p ∈ svg (f (start + k)%nat a c')) ->
    p ∈ svg (forRangeFrom f start l c).
Proof.
  intros Hf. induction l as [| a l IH]; intros start c H.
  - destruct H as [H | (k & b & Hk & _)]; [exact H | discriminate].
  - simpl. apply IH. destruct H as [H | (k & b & Hk & Hp)].
    + left. destruct (Hf start a) as (out & Hout). rewrite Hout.
      apply elem_of_app. by left.
    + destruct k as [| k]; simpl in Hk.
      * injection Hk as <-. left.
        replace start with (start + 0)%nat at 1 by lia. apply Hp.
      * right. exists k, b. split; [exact Hk |]. intros c'.
        replace (S start + k)%nat with (start + S k)%nat by lia. apply Hp.
Qed.

(** The label of an entry is drawn at the centre computed from the axis
    point that [drawTimelineEntry] is given. *)
Lemma drawTimelineEntry_label ParseFloat ReadImage params :
  let i := tep_Index params in
  let data := tep_Data params in
  let horizontal := effectiveOrientation params in
  let connStyle := nth i (connectorStyles data) zeroConnectorStyle in
  let yearStyle := nth i (yearStyles data) zeroYearTextStyle in
  let centre :=
    calculateElementCenter
      {| ecp_AxisX := tep_EntryAxisX params;
         ecp_AxisY := tep_EntryAxisY params;
         ecp_MainOffset := yt_MainAxisOffset yearStyle;
         ecp_CrossOffset := yt_CrossAxisOffset yearStyle;
         ecp_ConnectorLen := defaultConnectorLength (tep_Config params);
         ecp_CrossDir := snd (crossAxisDirections i horizontal connStyle);
         ecp_IsHorizontal := horizontal |} in
  exists out,
    appends (drawTimelineEntry ParseFloat ReadImage params) out
    /\ YearText (fst centre) (snd centre) (yt_Font yearStyle)
         (yt_TextColor yearStyle) (e_Period (tep_Entry params)) ∈ out.
Proof.
  intros i data horizontal connStyle yearStyle centre.
  assert (Hyear : exists out,
             appends (drawEntryYearPart ParseFloat params) out
             /\ YearText (fst centre) (snd centre) (yt_Font yearStyle)
                  (yt_TextColor yearStyle) (e_Period (tep_Entry params))
                ∈ out).
  { subst centre. unfold drawEntryYearPart.
    fold i data horizontal connStyle yearStyle.
    destruct (crossAxisDirections i horizontal connStyle)
      as [commentDir yearDir]. cbn [snd].
    destruct (calculateElementCenter _) as [cx cy]. cbn [fst snd].
    match goal with
    | |- context [drawJunctionMarker ?p] =>
        destruct (drawJunctionMarker_appends p) as (marker & Hm & _)
    end.
    destruct (drawYearElement_appends ParseFloat (tep_Entry params) yearStyle
                cx cy) as (year & Hy & _ & Hin).
    destruct (drawLine _).
    - match goal with
      | |- context [drawConnector ?p] =>
          destruct (drawConnector_appends p) as (lines & dots & Hc & _)
      end.
      exists (marker ++ (lines ++ dots) ++ year)%list. split.
      + intros c. rewrite Hy, Hc, Hm. by rewrite <- !app_assoc.
      + rewrite !elem_of_app. auto.
    - exists (marker ++ year)%list. split.
      + intros c. rewrite Hy, Hm. by rewrite <- !app_assoc.
      + rewrite !elem_of_app. auto. }
  destruct Hyear as (out & Hout & Hin).
  unfold drawTimelineEntry. destruct (hasComment (tep_Entry params)).
  - destruct (drawEntryCommentPart_appends ParseFloat ReadImage params)
      as (rest & Hrest).
    exists (out ++ rest)%list. split.
    + intros c. rewrite Hrest, Hout. by rewrite <- app_assoc.
    + apply elem_of_app. by left.
  - exists out. by split.
Qed.

(** C3, as stated, fails.  The template has horizontal orientation and
    entry_spacing = 100, the three entries have no overrides.  The
    junctions are computed as 0, 100, 200, 300 and the entry offsets are
    stored as 50, 150, 250, but the stored offsets are never read: the
    axis walk of [GenerateSVG] starts with a segment of length 0 and puts
    the axis point of entry i on junction i.  So the entries' axis points
    are at X = 0, 100, 200 (all with Y = 0), not at the junction plus half
    of the spacing, and the labels of the three entries are drawn at
    X = 0, 100, 200 and not at 50, 150, 250. *)
Lemma horizontal_layout_positions_counterexample :
  let config := initializeLayoutConfig sampleTemplate in
  let data :=
    calculateTimelinePositionsAndStyles sampleEntries sampleTemplate config in
  let axis := calculateAxis sampleTemplate sampleEntries data in
  let at_ (x : R) := {| X := x; Y := 0 |} in
  junctionPoints data = [0; 100; 200; 300]
  /\ entryPoints data = [50; 150; 250]
  /\ segmentStartPoints axis = [at_ 0; at_ 0; at_ 100]
  /\ segmentEndPoints axis = [at_ 0; at_ 100; at_ 200]
  /\ entryAxisPoints axis = [at_ 0; at_ 100; at_ 200]
  /\ map X (entryAxisPoints axis) <> [50; 150; 250]
  /\ ~ (forall (i : nat) entry p,
          sampleEntries !! i = Some entry ->
          entryAxisPoints axis !! i = Some p ->
          X p = nth i (junctionPoints data) 0 + entrySpacing config entry / 2)
  /\ exists doc,
       fst (GenerateSVG parseDecimal noImages sampleTemplate sampleEntries)
       = Ok doc
       /\ (exists y font fill, YearText 0 y font fill "2001" ∈ doc_Body doc)
       /\ (exists y font fill, YearText 100 y font fill "2002" ∈ doc_Body doc)
       /\ (exists y font fill, YearText 200 y font fill "2003" ∈ doc_Body doc).
Proof.
  intros config data axis at_.
  assert (Hsp : forall period, entrySpacing config (plainEntry period) = 100).
  { intros period. unfold entrySpacing, config, initializeLayoutConfig. simpl.
    rdecide; lra. }
  assert (HJ : junctionPoints data = [0; 100; 200; 300]).
  { subst data. unfold calculateTimelinePositionsAndStyles, sampleEntries.
    simpl. rewrite !Hsp. repeat (f_equal; try lra). }
  assert (HE : entryPoints data = [50; 150; 250]).
  { subst data. unfold calculateTimelinePositionsAndStyles, sampleEntries.
    simpl. rewrite !Hsp. repeat (f_equal; try lra). }
  assert (Hno : forall e, e ∈ sampleEntries -> e_AngleOverride e = None).
  { intros e He. unfold sampleEntries in He.
    repeat (apply elem_of_cons in He as [-> | He]; [reflexivity |]).
    by apply elem_of_nil in He. }
  pose proof (horizontal_axis_points sampleTemplate sampleEntries data
                eq_refl eq_refl Hno) as Hax.
  fold axis in Hax. cbv zeta in Hax. rewrite HJ in Hax.
  destruct (Hax 0%nat (plainEntry "2001") eq_refl) as (A0 & B0 & C0).
  destruct (Hax 1%nat (plainEntry "2002") eq_refl) as (A1 & B1 & C1).
  destruct (Hax 2%nat (plainEntry "2003") eq_refl) as (A2 & B2 & C2).
  cbn [nth] in A0, B0, C0, A1, B1, C1, A2, B2, C2.
  destruct (calculateAxis_lengths sampleTemplate (plainEntry "2001")
              [plainEntry "2002"; plainEntry "2003"] data) as (L1 & L2 & L3).
  change (plainEntry "2001" :: [plainEntry "2002"; plainEntry "2003"])
    with sampleEntries in L1, L2, L3. fold axis in L1, L2, L3.
  assert (Hthree : forall (l : list AxisPoint) a b c,
             length l = 3%nat -> l !! 0%nat = Some a -> l !! 1%nat = Some b ->
             l !! 2%nat = Some c -> l = [a; b; c]).
  { intros l a b c Hl H0 H1 H2.
    destruct l as [| x [| y [| z [| w l']]]]; try discriminate.
    simpl in H0, H1, H2. congruence. }
  assert (HP : entryAxisPoints axis = [at_ 0; at_ 100; at_ 200])
    by (by apply Hthree).
  split; [exact HJ |]. split; [exact HE |].
  split; [by apply Hthree |]. split; [by apply Hthree |].
  split; [exact HP |].
  split.
  { rewrite HP. cbn [map X at_]. intros Heq. injection Heq as Heq _. lra. }
  split.
  { intros Hhalf.
    specialize (Hhalf 0%nat (plainEntry "2001") (at_ 0) eq_refl).
    rewrite HP, HJ, Hsp in Hhalf. specialize (Hhalf eq_refl).
    cbn [X at_ nth] in Hhalf. lra. }
  eexists. split; [reflexivity |].
  cbn [doc_Body assembleFinalSVG].
  assert (Hbody : forall c padding font,
             doc_Body (assembleFinalSVG c padding font) = svg c).
  { intros c padding font. unfold assembleFinalSVG.
    by destruct (isSet (timelineBounds c)). }
  rewrite Hbody. unfold drawTimeline. fold config data axis.
  unfold drawEntries, forRange.
  assert (Hlabel : forall (k : nat) period x,
             sampleEntries !! k = Some (plainEntry period) ->
             X (nth k (entryAxisPoints axis) (at_ 0)) = x ->
             exists y font fill,
               YearText x y font fill period
               ∈ svg (forRangeFrom
                        (fun i entry c =>
                           drawTimelineEntry parseDecimal noImages
                             {| tep_Index := i; tep_Entry := entry;
                                tep_Data := data;
                                tep_EntryAxisX :=
                                  X (nth i (entryAxisPoints axis) (at_ 0));
                                tep_EntryAxisY :=
                                  Y (nth i (entryAxisPoints axis) (at_ 0));
                                tep_IsHorizontal :=
                                  cl_Orientation (t_CenterLine sampleTemplate)
                                  =? "horizontal";
                                tep_Config := config |} c)
                        0 sampleEntries
                        (drawCenterLine sampleTemplate config data axis
                           sampleEntries (boundsPoint 0 0 emptyCanvas)))).
  { intros k period x Hk Hx.
    pose (params := {| tep_Index := k; tep_Entry := plainEntry period;
                       tep_Data := data;
                       tep_EntryAxisX :=
                         X (nth k (entryAxisPoints axis) (at_ 0));
                       tep_EntryAxisY :=
                         Y (nth k (entryAxisPoints axis) (at_ 0));
                       tep_IsHorizontal :=
                         cl_Orientation (t_CenterLine sampleTemplate)
                         =? "horizontal";
                       tep_Config := config |}).
    destruct (drawTimelineEntry_label parseDecimal noImages params)
      as (out & Hout & Hin).
    cbv zeta in Hin.
    assert (Hcx : fst (calculateElementCenter
                         {| ecp_AxisX := tep_EntryAxisX params;
                            ecp_AxisY := tep_EntryAxisY params;
                            ecp_MainOffset :=
                              yt_MainAxisOffset
                                (nth (tep_Index params)
                                   (yearStyles (tep_Data params))
                                   zeroYearTextStyle);
                            ecp_CrossOffset :=
                              yt_CrossAxisOffset
                                (nth (tep_Index params)
                                   (yearStyles (tep_Data params))
                                   zeroYearTextStyle);
                            ecp_ConnectorLen :=
                              defaultConnectorLength (tep_Config params);
                            ecp_CrossDir :=
                              snd (crossAxisDirections (tep_Index params)
                                     (effectiveOrientation params)
                                     (nth (tep_Index params)
                                        (connectorStyles (tep_Data params))
                                        zeroConnectorStyle));
                            ecp_IsHorizontal := effectiveOrientation params |})
                  = x).
    { unfold calculateElementCenter.
      cbn [ecp_AxisX ecp_AxisY ecp_MainOffset ecp_CrossOffset
             ecp_ConnectorLen ecp_CrossDir ecp_IsHorizontal].
      change (effectiveOrientation params) with true. cbv iota.
      cbn [fst tep_EntryAxisX params]. rewrite Hx.
      assert (Hoff : yt_MainAxisOffset
                       (nth (tep_Index params) (yearStyles (tep_Data params))
                          zeroYearTextStyle) = 0).
      { cbn [tep_Index tep_Data params].
        destruct k as [| [| [| k]]]; try discriminate; reflexivity. }
      rewrite Hoff. lra. }
    rewrite Hcx in Hin.
    eexists _, _, _.
    apply forRangeFrom_keeps.
    - intros i a.
      match goal with
      | |- context [drawTimelineEntry parseDecimal noImages ?p] =>
          destruct (drawTimelineEntry_label parseDecimal noImages p)
            as (o & Ho & _)
      end.
      by exists o.
    - right. exists k, (plainEntry period). split; [exact Hk |].
      intros c'. cbn [Nat.add]. fold params. rewrite Hout.
      apply elem_of_app. right. exact Hin. }
  split; [apply (Hlabel 0%nat); [reflexivity | by rewrite HP] |].
  split; [apply (Hlabel 1%nat); [reflexivity | by rewrite HP] |].
  apply (Hlabel 2%nat); [reflexivity | by rewrite HP].
Qed.

(** C3, amended.  For a template with horizontal orientation, no global
    angle and no per-entry angle overrides (the effective spacings are
    then strictly positive): junction point i lies at the sum of the first
    i spacings and strictly increases with i, the axis point at which
    entry i is drawn exists and is junction i, at the end of the segment
    that leads to it, every axis point has the same Y (namely 0), and the
    X of the entries' axis points strictly increases with the entry index.
    With entry_spacing = 100 and three entries without spacing overrides
    the junctions are 0, 100, 200, 300 and the entries' axis points are at
    X = 0, 100, 200. *)
Theorem horizontal_layout_positions (template : Template)
    (entries : list TimelineEntry) :
  cl_Orientation (t_CenterLine template) = "horizontal" ->
  cl_Angle (t_CenterLine template) = None ->
  (forall e, e ∈ entries -> e_AngleOverride e = None) ->
  let config := initializeLayoutConfig template in
  let data := calculateTimelinePositionsAndStyles entries template config in
  let axis := calculateAxis template entries data in
  let J := junctionPoints data in
  let at_ (x : R) := {| X := x; Y := 0 |} in
  length J = S (length entries)
  /\ length (entryAxisPoints axis) = length entries
  /\ (forall i : nat, (i <= length entries)%nat ->
        nth i J 0 = sumR (take i (spacings config entries)))
  /\ (forall i j : nat, (i < j <= length entries)%nat -> nth i J 0 < nth j J 0)
  /\ (forall (i : nat) entry, entries !! i = Some entry ->
        0 < entrySpacing config entry
        /\ entryAxisPoints axis !! i = Some (at_ (nth i J 0))
        /\ segmentEndPoints axis !! i = Some (at_ (nth i J 0))
        /\ segmentStartPoints axis !! i
           = Some (at_ (match i with O => 0 | S k => nth k J 0 end)))
  /\ (forall i j : nat, (i < j < length entries)%nat ->
        exists p q,
          entryAxisPoints axis !! i = Some p
          /\ entryAxisPoints axis !! j = Some q
          /\ Y p = Y q /\ X p < X q)
  /\ (lo_EntrySpacing (t_Layout template) = 100 ->
      length entries = 3%nat ->
      (forall e, e ∈ entries -> e_EntrySpacingOverride e = None) ->
      J = [0; 100; 200; 300]
      /\ entryAxisPoints axis = [at_ 0; at_ 100; at_ 200]).
Proof.
  intros Ho Hga Hoa config data axis J at_.
  pose proof (initializeLayoutConfig_spacing_pos template) as Hpos.
  fold config in Hpos.
  assert (HJ : forall i : nat, (i <= length entries)%nat ->
            nth i J 0 = sumR (take i (spacings config entries))).
  { intros i Hi. subst J data. unfold calculateTimelinePositionsAndStyles.
    rewrite junctionPoints_nth by exact Hi. lra. }
  assert (HJlt : forall i j : nat, (i < j <= length entries)%nat ->
            nth i J 0 < nth j J 0).
  { intros i j Hij. subst J data. unfold calculateTimelinePositionsAndStyles.
    by apply junctionPoints_increasing. }
  assert (Hax := horizontal_axis_points template entries data Ho Hga Hoa).
  fold axis J in Hax. cbv zeta in Hax.
  assert (Hlen : length (entryAxisPoints axis) = length entries).
  { destruct entries as [| e0 rest]; [reflexivity |].
    destruct (calculateAxis_lengths template e0 rest data) as (L1 & _).
    exact L1. }
  split; [apply positions_lengths |].
  split; [exact Hlen |].
  split; [exact HJ |].
  split; [exact HJlt |].
  split.
  { intros i entry Hi. split; [by apply entrySpacing_pos |].
    apply (Hax i entry Hi). }
  split.
  { intros i j Hij.
    destruct (lookup_lt_is_Some_2 entries i) as (ei & Hei); [lia |].
    destruct (lookup_lt_is_Some_2 entries j) as (ej & Hej); [lia |].
    destruct (Hax i ei Hei) as (Hpi & _). destruct (Hax j ej Hej) as (Hqj & _).
    exists (at_ (nth i J 0)), (at_ (nth j J 0)).
    split; [exact Hpi |]. split; [exact Hqj |]. split; [reflexivity |].
    cbn [X at_]. apply HJlt. lia. }
  intros H100 Hl Hnone.
  destruct entries as [| e1 [| e2 [| e3 [| ? ?]]]]; try discriminate.
  assert (Hsp : forall e, e ∈ [e1; e2; e3] -> entrySpacing config e = 100).
  { intros e He. unfold entrySpacing. rewrite (Hnone e He).
    subst config. unfold initializeLayoutConfig. simpl. rewrite H100.
    rdecide; lra. }
  assert (HJ3 : J = [0; 100; 200; 300]).
  { subst J data. unfold calculateTimelinePositionsAndStyles. simpl.
    rewrite !Hsp by repeat constructor. repeat (f_equal; try lra). }
  split; [exact HJ3 |].
  destruct (Hax 0%nat e1 eq_refl) as (A0 & _).
  destruct (Hax 1%nat e2 eq_refl) as (A1 & _).
  destruct (Hax 2%nat e3 eq_refl) as (A2 & _).
  rewrite HJ3 in A0, A1, A2. cbn [nth] in A0, A1, A2.
  destruct (entryAxisPoints axis) as [| x [| y [| z [| w l']]]];
    simpl in Hlen, A0, A1, A2; try discriminate.
  subst at_. cbv beta. congruence.
Qed.

Lemma horizontal_layout_positions_witness :
  let config := initializeLayoutConfig sampleTemplate in
  let data :=
    calculateTimelinePositionsAndStyles sampleEntries sampleTemplate config in
  let axis := calculateAxis sampleTemplate sampleEntries data in
  junctionPoints data = [0; 100; 200; 300]
  /\ entryAxisPoints axis
     = [{| X := 0; Y := 0 |}; {| X := 100; Y := 0 |}; {| X := 200; Y := 0 |}].
Proof.
  intros config data axis.
  assert (Hno : forall e, e ∈ sampleEntries -> e_AngleOverride e = None).
  { intros e He. unfold sampleEntries in He.
    repeat (apply elem_of_cons in He as [-> | He]; [reflexivity |]).
    by apply elem_of_nil in He. }
  assert (Hsp : forall e, e ∈ sampleEntries -> e_EntrySpacingOverride e = None).
  { intros e He. unfold sampleEntries in He.
    repeat (apply elem_of_cons in He as [-> | He]; [reflexivity |]).
    by apply elem_of_nil in He. }
  apply (horizontal_layout_positions sampleTemplate sampleEntries
           eq_refl eq_refl Hno); [reflexivity | reflexivity | exact Hsp].
Defined.

(** ** Instances of the properties above on the sample inputs *)


Lemma comment_block_placement_witness :
  let layout := calculateCommentBlockLayout parseDecimal (sampleComment "") in
  blockX layout + visualBlockWidth layout / 2 = 50
  /\ blockY layout + visualBlockHeight layout = -50.
Proof.
  pose proof (comment_block_placement parseDecimal (sampleComment "")) as H.
  cbv zeta in H. change (cmt_IsHorizontal (sampleComment "")) with true in H.
  cbv iota in H. destruct H as (Hx & Hup & _).
  split; [exact Hx |]. apply Hup. cbn. lra.
Defined.

Lemma comment_block_dimensions_witness :
  let layout :=
    calculateCommentBlockLayout parseDecimal (sampleComment "Title") in
  contentWidth layout = 120
  /\ titleTextAbsY layout = blockY layout + padTop layout.
Proof.
  destruct (comment_block_dimensions parseDecimal (sampleComment "Title"))
    as (_ & _ & Hw & _ & _ & _ & _ & _ & _ & Ht).
  split; [apply Hw; [reflexivity | lra] | apply Ht; discriminate].
Defined.

Lemma comment_block_parts_witness :
  let layout := calculateCommentBlockLayout parseDecimal (sampleComment "") in
  bodyAbsY layout = blockY layout + padTop layout + 4 + 2 + 4.
Proof.
  destruct (comment_block_parts parseDecimal noImages (sampleComment "")
              emptyCanvas)
    as (background & title & rule & body & events & H).
  destruct H as (_ & _ & _ & _ & _ & _ & _ & _ & _ & _ & _ & H).
  apply H; [reflexivity | reflexivity | cbn; lra | cbn; lra].
Defined.

Lemma connector_dot_shapes_witness :
  exists tipX tipY,
    svg (drawConnectorDot sampleArrowDot 50 0 emptyCanvas)
    = [DotArrow (50 - float64 8 / 2) 0 (50 + float64 8 / 2) 0 tipX tipY
         "#888888"]
    /\ ~ (50 - float64 8 / 2 <= tipX <= 50 + float64 8 / 2
          /\ 0 - float64 8 / 2 <= tipY <= 0 + float64 8 / 2).
Proof.
  destruct (connector_dot_shapes sampleArrowDot 50 0 emptyCanvas)
    as [_ [[_ Hoff] | (_ & _ & _ & _ & Hshape)]].
  - exfalso. cbn in Hoff. destruct Hoff as [Hv | [Hn | Hs]];
      [discriminate | discriminate | lia].
  - destruct Hshape as [(_ & _ & _ & Hna) | [[_ Hc] | [[_ Hs] | Harrow]]];
      try discriminate; [by destruct Hna |].
    destruct Harrow as (tipX & tipY & Hsvg & _ & _ & Hout).
    exists tipX, tipY. split; [exact Hsvg |]. apply Hout. by right.
Defined.

Lemma hidden_connectors_differ_witness :
  (exists marker year,
     appends (drawEntryYearPart parseDecimal sampleHiddenConnectors)
       (marker ++ year)%list
     /\ Forall (fun p => isMarker p = true) marker
     /\ Forall (fun p => isYearElement p = true) year)
  /\ (exists dots block,
        appends (drawEntryCommentPart parseDecimal noImages sampleHiddenConnectors)
          (dots ++ block)%list
        /\ Forall (fun p => isDot p = true) dots
        /\ dots <> []).
Proof.
  destruct (hidden_connectors_differ parseDecimal noImages sampleHiddenConnectors)
    as [Hyear Hcomment].
  split; [exact (Hyear eq_refl) |].
  destruct (Hcomment eq_refl) as (dots & block & Happ & Kd & _ & Hne).
  exists dots, block. split; [exact Happ |]. split; [exact Kd |].
  apply Hne; [reflexivity | reflexivity | cbn; lia].
Defined.
